(** * scripts/buildcommands.py: command registry and protocol dictionary

    A shallow embedding of Klipper's build-time request processor
    (scripts/buildcommands.py, Python 2) and the properties of its
    command/message registry: identifier assignment, conflict detection,
    the command/response partition, the dense dispatch table and the
    interning of parameter-type signatures. *)

From Stdlib Require Import List String Ascii ZArith Lia Bool Permutation Arith.
From Stdlib Require Import DecimalString Relations.Relation_Operators.
From Stdlib Require Import Sorting.Sorted.
Import ListNotations.
Open Scope string_scope.
Open Scope Z_scope.



(* ================================================================== *)
(** * Python values: exceptions, strings, dictionaries *)
(* ================================================================== *)

(** The exceptions the script can end with.  [SystemExit msg] is what
    [error(msg)] amounts to: the message goes to stderr and the process
    exits with status -1. *)
Inductive pyerr : Type :=
| SystemExit (msg : string)
| ValueError
| KeyError
| IndexError
| LibError.      (* raised inside msgproto / json *)

Inductive result (A : Type) : Type :=
| Ok (a : A)
| Raise (e : pyerr).
Arguments Ok {A} a.
Arguments Raise {A} e.

Definition bind {A B} (m : result A) (k : A -> result B) : result B :=
  match m with
  | Ok a => k a
  | Raise e => Raise e
  end.

Declare Scope py_scope.
Delimit Scope py_scope with py.
Notation "x <- m ;; k" := (bind m (fun x => k))
  (at level 61, m at next level, right associativity) : py_scope.
Notation "' p <- m ;; k" := (bind m (fun x => match x with p => k end))
  (at level 61, p pattern, m at next level, right associativity) : py_scope.
Open Scope py_scope.

(** def error(msg): sys.stderr.write(msg + "\n"); sys.exit(-1) *)
Definition error {A} (msg : string) : result A := Raise (SystemExit msg).

Definition is_ok {A} (r : result A) : bool :=
  match r with Ok _ => true | Raise _ => false end.

(** A loop whose body can raise. *)
Fixpoint foldM {A S} (f : S -> A -> result S) (l : list A) (s : S) : result S :=
  match l with
  | [] => Ok s
  | a :: l' => s' <- f s a ;; foldM f l' s'
  end.

(* ------------------------------------------------------------------ *)
(** ** Byte strings *)

Definition NL : string := String (ascii_of_nat 10) "".
Definition NUL : ascii := ascii_of_nat 0.

(** str.isspace for one byte (C locale): space, \t, \n, \v, \f, \r. *)
Definition isspace (c : ascii) : bool :=
  let n := nat_of_ascii c in
  (Nat.eqb n 32 || (Nat.leb 9 n && Nat.leb n 13))%bool.

(** str.lstrip() *)
Fixpoint lstrip (s : string) : string :=
  match s with
  | String c s' => if isspace c then lstrip s' else s
  | EmptyString => EmptyString
  end.

(** The leading run of non-space bytes, and what follows it. *)
Fixpoint token (s : string) : string :=
  match s with
  | String c s' => if isspace c then EmptyString else String c (token s')
  | EmptyString => EmptyString
  end.

Fixpoint after_token (s : string) : string :=
  match s with
  | String c s' => if isspace c then s else after_token s'
  | EmptyString => EmptyString
  end.

(** str.split(None, maxsplit): at most [maxsplit] tokens are cut off; what
    is left, without its leading white space, is the last element. *)
Fixpoint split_max (maxsplit : nat) (s : string) : list string :=
  match lstrip s with
  | EmptyString => []
  | s1 =>
      match maxsplit with
      | O => [s1]
      | S n => token s1 :: split_max n (after_token s1)
      end
  end.

(** str.split(): no bound on the number of splits. *)
Definition split (s : string) : list string := split_max (String.length s) s.

(** str.split(sep) for a one-byte separator. *)
Fixpoint split_on (sep : ascii) (s : string) : list string :=
  match s with
  | EmptyString => [EmptyString]
  | String c s' =>
      if Ascii.eqb c sep then EmptyString :: split_on sep s'
      else match split_on sep s' with
           | t :: ts => String c t :: ts
           | [] => [String c EmptyString]
           end
  end.

(** str.rstrip() and str.strip() *)
Fixpoint rstrip (s : string) : string :=
  match s with
  | EmptyString => EmptyString
  | String c s' =>
      match rstrip s' with
      | EmptyString => if isspace c then EmptyString else String c EmptyString
      | r => String c r
      end
  end.

Definition strip (s : string) : string := rstrip (lstrip s).

(** sep.join(l) *)
Definition join (sep : string) (l : list string) : string := String.concat sep l.

(** "%d" % n *)
Definition fmt_d (n : Z) : string := NilZero.string_of_int (Z.to_int n).

(** "%02x" % n for a byte *)
Definition hex_digit (n : nat) : ascii :=
  if Nat.ltb n 10 then ascii_of_nat (48 + n) else ascii_of_nat (87 + n).
Definition fmt_02x (n : nat) : string :=
  String (hex_digit (n / 16)) (String (hex_digit (n mod 16)) "").

(** Byte-wise order on strings, as cmp() on str. *)
Definition str_leb (a b : string) : bool :=
  match String.compare a b with Gt => false | _ => true end.

(* ------------------------------------------------------------------ *)
(** ** Dictionaries

    A dict is kept as the list of its items in order of first insertion;
    assigning to a key that is present replaces the value in place.  The
    order in which Python 2 walks a dict comes from the hashes of the keys
    and the history of insertions, so iteration goes through [hash_order],
    an unknown rearrangement of the items. *)

Class EqKey (K : Type) := {
  key_eqb : K -> K -> bool;
  key_eqb_spec : forall a b : K, reflect (a = b) (key_eqb a b)
}.

#[export] Instance string_eqkey : EqKey string :=
  {| key_eqb := String.eqb; key_eqb_spec := String.eqb_spec |}.
#[export] Instance Z_eqkey : EqKey Z :=
  {| key_eqb := Z.eqb; key_eqb_spec := Z.eqb_spec |}.

Fixpoint list_eqb {K} `{EqKey K} (a b : list K) : bool :=
  match a, b with
  | [], [] => true
  | x :: a', y :: b' => (key_eqb x y && list_eqb a' b')%bool
  | _, _ => false
  end.

Lemma list_eqb_spec {K} `{EqKey K} (a b : list K) :
  reflect (a = b) (list_eqb a b).
Proof.
  revert b; induction a as [|x a IH]; intros [|y b]; simpl;
    try (constructor; congruence).
  destruct (key_eqb_spec x y) as [->|Hn]; simpl.
  - destruct (IH b) as [->|Hn]; constructor; congruence.
  - constructor; congruence.
Qed.

#[export] Instance list_eqkey {K} `{EqKey K} : EqKey (list K) :=
  {| key_eqb := list_eqb; key_eqb_spec := list_eqb_spec |}.

Definition dict (K V : Type) : Type := list (K * V).

Section Dict.
Context {K V : Type} `{EqKey K}.

(** d.get(k) *)
Fixpoint dict_get (k : K) (d : dict K V) : option V :=
  match d with
  | [] => None
  | (k', v) :: d' => if key_eqb k k' then Some v else dict_get k d'
  end.

(** k in d *)
Definition dict_in (k : K) (d : dict K V) : bool :=
  match dict_get k d with Some _ => true | None => false end.

(** d[k] = v *)
Fixpoint dict_set (k : K) (v : V) (d : dict K V) : dict K V :=
  match d with
  | [] => [(k, v)]
  | (k', v') :: d' =>
      if key_eqb k k' then (k', v) :: d' else (k', v') :: dict_set k v d'
  end.

(** d[k], raising KeyError *)
Definition dict_getitem (k : K) (d : dict K V) : result V :=
  match dict_get k d with Some v => Ok v | None => Raise KeyError end.

(** { k: v for k, v in l } and dict literals *)
Definition dict_of_list (l : list (K * V)) : dict K V :=
  fold_left (fun d kv => dict_set (fst kv) (snd kv) d) l [].
End Dict.

Class HashOrder (K : Type) := {
  hash_order : forall V, list (K * V) -> list (K * V);
  hash_order_perm : forall V (l : list (K * V)), Permutation (hash_order V l) l
}.
Arguments hash_order {K _ V} l.

(** d.items(), d.keys(), d.values() *)
Definition dict_items {K V} `{HashOrder K} (d : dict K V) : list (K * V) :=
  hash_order d.
Definition dict_keys {K V} `{HashOrder K} (d : dict K V) : list K :=
  map fst (dict_items d).
Definition dict_values {K V} `{HashOrder K} (d : dict K V) : list V :=
  map snd (dict_items d).

(** The order of first insertion is one possible iteration order. *)
Definition insertion_order (K : Type) : HashOrder K :=
  {| hash_order := fun V l => l;
     hash_order_perm := fun V l => Permutation_refl l |}.

(** The reverse of it is another. *)
Definition reversed_order (K : Type) : HashOrder K :=
  {| hash_order := fun V l => rev l;
     hash_order_perm := fun V l => Permutation_sym (Permutation_rev l) |}.

(** max(l), raising ValueError on an empty sequence *)
Definition py_max (l : list Z) : result Z :=
  match l with
  | [] => Raise ValueError
  | x :: l' => Ok (fold_left Z.max l' x)
  end.

(** sorted(l) *)
Section Sorted.
Context {A : Type} (leb : A -> A -> bool).
Fixpoint insert_sorted (x : A) (l : list A) : list A :=
  match l with
  | [] => [x]
  | y :: l' => if leb x y then x :: l else y :: insert_sorted x l'
  end.
Definition sorted (l : list A) : list A := fold_right insert_sorted [] l.
End Sorted.
Arguments sorted {A} leb l.

(** l[i], raising IndexError *)
Definition list_getitem {A} (l : list A) (i : nat) : result A :=
  match nth_error l i with Some a => Ok a | None => Raise IndexError end.

(** l[i:j] *)
Definition slice {A} (i j : nat) (l : list A) : list A :=
  firstn (j - i) (skipn i l).

Definition DQ : string := String (ascii_of_nat 34) "".

(** s.startswith('"'), s.endswith('"'), s[1:-1] *)
Definition starts_with_dq (s : string) : bool :=
  match s with
  | String c _ => Ascii.eqb c (ascii_of_nat 34)
  | EmptyString => false
  end.
Fixpoint ends_with_dq (s : string) : bool :=
  match s with
  | EmptyString => false
  | String c EmptyString => Ascii.eqb c (ascii_of_nat 34)
  | String _ s' => ends_with_dq s'
  end.
Fixpoint drop_last (s : string) : string :=
  match s with
  | EmptyString => EmptyString
  | String _ EmptyString => EmptyString
  | String c s' => String c (drop_last s')
  end.
Definition slice_1_m1 (s : string) : string :=
  match s with
  | String _ s' => drop_last s'
  | EmptyString => EmptyString
  end.

(* ================================================================== *)
(** * The msgproto module

    klippy/msgproto.py is imported by the script; what the script uses of it
    is taken as given: the baseline messages, the two size constants and the
    two format parsers, of which only the fields read by [build_parser]
    appear. *)
(* ================================================================== *)

Record param_type := {
  class_name : string;      (* t.__class__.__name__ *)
  max_length : Z
}.

Record parser := {
  name : string;
  msgid : Z;
  msgformat : string;
  param_types : list param_type
}.

Class Msgproto := {
  DefaultMessages : list (Z * string);      (* the dict literal *)
  MESSAGE_MIN : Z;
  MESSAGE_MAX : Z;
  MessageFormat : Z -> string -> result parser;
  OutputFormat : Z -> string -> result parser
}.

(** Of the Python library, zlib.compress is taken as given, and so is the
    path of json's string encoder for strings that are not plain ASCII (it
    decodes them as UTF-8 and can raise). *)
Class PyLib := {
  zlib_compress : string -> nat -> string;
  json_encode_utf8 : string -> result string
}.

(** Of shlex and subprocess: shlex.split(prog), which raises ValueError on
    a command line that it cannot split (a quote that is not closed, a
    backslash at the end); and the run of subprocess.Popen(args,
    stdout=subprocess.PIPE), communicate() and poll(): the output and the
    return code of the program, [None] when the run raises OSError, and an
    exception of its own when it raises another one. *)
Class Subprocess := {
  shlex_split : string -> result (list string);
  popen : list string -> result (option (string * Z))
}.

(* ================================================================== *)
(** * C call list generation *)
(* ================================================================== *)

Section Handlers.
Context {hs : HashOrder string} {hz : HashOrder Z}
        {ht : HashOrder (list string)} {mp : Msgproto} {pl : PyLib}.
Context {sp : Subprocess}.

Record HandleCallList := {
  call_lists : dict string (list string)
}.

Definition HandleCallList_init : HandleCallList :=
  {| call_lists := dict_of_list [("ctr_run_initfuncs", [])] |}.

Definition decl_calllist (req : string) (h : HandleCallList)
  : result HandleCallList :=
  match skipn 1 (split req) with
  | [funcname; callname] =>
      let old := match dict_get funcname (call_lists h) with
                 | Some l => l
                 | None => []
                 end in
      Ok {| call_lists := dict_set funcname (old ++ [callname])%list (call_lists h) |}
  | _ => Raise ValueError
  end.

Definition calllist_generate_code (h : HandleCallList) : string :=
  join "" (map (fun '(funcname, funcs) =>
    let func_code := map (fun f =>
      "    extern void " ++ f ++ "(void);
    " ++ f ++ "();") funcs in
    let func_code :=
      if String.eqb funcname "ctr_run_taskfuncs"
      then map (fun fc => "    irq_poll();
" ++ fc) func_code
      else func_code in
    "
void
" ++ funcname ++ "(void)
{
    " ++ strip (join NL func_code) ++ "
}
") (dict_items (call_lists h))).

(* ================================================================== *)
(** * Static string generation *)
(* ================================================================== *)

Definition STATIC_STRING_MIN : Z := 2.

Record HandleStaticStrings := {
  static_strings : list string
}.

Definition HandleStaticStrings_init : HandleStaticStrings :=
  {| static_strings := [] |}.

Definition decl_static_str (req : string) (h : HandleStaticStrings)
  : result HandleStaticStrings :=
  msg <- list_getitem (split_max 1 req) 1 ;;
  Ok {| static_strings := (static_strings h ++ [msg])%list |}.

(** enumerate(l) *)
Definition enumerate {A} (l : list A) : list (Z * A) :=
  combine (map Z.of_nat (seq 0 (List.length l))) l.

Definition staticstr_generate_code (h : HandleStaticStrings) : string :=
  let code := map (fun '(i, s) =>
    "    if (__builtin_strcmp(str, " ++ DQ ++ s ++ DQ ++ ") == 0)
        return " ++ fmt_d (i + STATIC_STRING_MIN) ++ ";
") (enumerate (static_strings h)) in
  "
uint8_t __always_inline
ctr_lookup_static_string(const char *str)
{
    " ++ strip (join "" code) ++ "
    return 0xff;
}
".

(* ================================================================== *)
(** * Constants *)
(* ================================================================== *)

Record HandleConstants := {
  constants : dict string string
}.

Definition HandleConstants_init : HandleConstants := {| constants := [] |}.

Definition decl_constant (req : string) (h : HandleConstants)
  : result HandleConstants :=
  match skipn 1 (split req) with
  | [cname; value] =>
      let value := strip value in
      let value := if (starts_with_dq value && ends_with_dq value)%bool
                   then slice_1_m1 value else value in
      match dict_get cname (constants h) with
      | Some old =>
          if negb (String.eqb old value)
          then error ("Conflicting definition for constant '" ++ cname ++ "'")
          else Ok {| constants := dict_set cname value (constants h) |}
      | None => Ok {| constants := dict_set cname value (constants h) |}
      end
  | _ => Raise ValueError
  end.

Definition constants_generate_code (h : HandleConstants) : string := "".

(* ================================================================== *)
(** * Wire protocol commands and responses *)
(* ================================================================== *)

Record HandleCommandGeneration := {
  commands : dict string (string * string * string);
  encoders : list (option string * string);
  msg_to_id : dict string Z;
  messages_by_name : dict string string;
  all_param_types : dict (list string) nat
}.

(** __init__ *)
Definition HandleCommandGeneration_init : result HandleCommandGeneration :=
  let msg_to_id0 : dict string Z :=
    dict_of_list (map (fun '(i, m) => (m, i))
                      (dict_items (dict_of_list DefaultMessages))) in
  messages_by_name0 <-
    foldM (fun d m => n <- list_getitem (split m) 0 ;; Ok (dict_set n m d))
          (dict_keys msg_to_id0) [] ;;
  Ok {| commands := [];
        encoders := [];
        msg_to_id := msg_to_id0;
        messages_by_name := messages_by_name0;
        all_param_types := [] |}.

Definition decl_command (req : string) (h : HandleCommandGeneration)
  : result HandleCommandGeneration :=
  match slice 1 4 (split req) with
  | [funcname; flags; msgname] =>
      if dict_in msgname (commands h)
      then error ("Multiple definitions for command '" ++ msgname ++ "'")
      else
        let commands' := dict_set msgname (funcname, flags, msgname) (commands h) in
        msg <- list_getitem (split_max 3 req) 3 ;;
        let m := dict_get msgname (messages_by_name h) in
        match m with
        | Some m' =>
            if negb (String.eqb m' msg)
            then error ("Conflicting definition for command '" ++ msgname ++ "'")
            else Ok {| commands := commands';
                       encoders := encoders h;
                       msg_to_id := msg_to_id h;
                       messages_by_name := dict_set msgname msg (messages_by_name h);
                       all_param_types := all_param_types h |}
        | None =>
            Ok {| commands := commands';
                  encoders := encoders h;
                  msg_to_id := msg_to_id h;
                  messages_by_name := dict_set msgname msg (messages_by_name h);
                  all_param_types := all_param_types h |}
        end
  | _ => Raise ValueError
  end.

Definition decl_encoder (req : string) (h : HandleCommandGeneration)
  : result HandleCommandGeneration :=
  msg <- list_getitem (split_max 1 req) 1 ;;
  msgname <- list_getitem (split msg) 0 ;;
  let m := dict_get msgname (messages_by_name h) in
  let conflict := match m with
                  | Some m' => negb (String.eqb m' msg)
                  | None => false
                  end in
  if conflict
  then error ("Conflicting definition for message '" ++ msgname ++ "'")
  else Ok {| commands := commands h;
             encoders := (encoders h ++ [(Some msgname, msg)])%list;
             msg_to_id := msg_to_id h;
             messages_by_name := dict_set msgname msg (messages_by_name h);
             all_param_types := all_param_types h |}.

Definition decl_output (req : string) (h : HandleCommandGeneration)
  : result HandleCommandGeneration :=
  msg <- list_getitem (split_max 1 req) 1 ;;
  Ok {| commands := commands h;
        encoders := (encoders h ++ [(None, msg)])%list;
        msg_to_id := msg_to_id h;
        messages_by_name := messages_by_name h;
        all_param_types := all_param_types h |}.

(** One turn of the loop of create_message_ids. *)
Definition assign_id (mbn : dict string string) (st : Z * dict string Z)
           (msgname : string) : Z * dict string Z :=
  let '(msgid, m2i) := st in
  let msg := match dict_get msgname mbn with
             | Some m => m
             | None => msgname
             end in
  if negb (dict_in msg m2i)
  then (msgid + 1, dict_set msg (msgid + 1) m2i)
  else (msgid, m2i).

Definition create_message_ids (h : HandleCommandGeneration)
  : result HandleCommandGeneration :=
  msgid <- py_max (dict_values (msg_to_id h)) ;;
  let names := (dict_keys (commands h) ++ map snd (encoders h))%list in
  let '(_, m2i) := fold_left (assign_id (messages_by_name h)) names
                             (msgid, msg_to_id h) in
  Ok {| commands := commands h;
        encoders := encoders h;
        msg_to_id := m2i;
        messages_by_name := messages_by_name h;
        all_param_types := all_param_types h |}.

(** Values that end up in the data dictionary. *)
Unset Elimination Schemes.
Inductive pyval : Type :=
| PStr (s : string)
| PInt (n : Z)
| PList (l : list pyval)
| PDictS (d : list (string * pyval))
| PDictI (d : list (Z * pyval)).
Set Elimination Schemes.

Definition with_msg_to_id (h : HandleCommandGeneration) (m2i : dict string Z)
  : HandleCommandGeneration :=
  {| commands := commands h;
     encoders := encoders h;
     msg_to_id := m2i;
     messages_by_name := messages_by_name h;
     all_param_types := all_param_types h |}.

Definition with_all_param_types (h : HandleCommandGeneration)
           (apt : dict (list string) nat) : HandleCommandGeneration :=
  {| commands := commands h;
     encoders := encoders h;
     msg_to_id := msg_to_id h;
     messages_by_name := messages_by_name h;
     all_param_types := apt |}.

(** [f(x) for x in l] where f can raise *)
Fixpoint mapM {A B} (f : A -> result B) (l : list A) : result (list B) :=
  match l with
  | [] => Ok []
  | a :: l' => b <- f a ;; bs <- mapM f l' ;; Ok (b :: bs)
  end.

(** messages = { msgid: msg for msg, msgid in self.msg_to_id.items() } *)
Definition messages_dict (h : HandleCommandGeneration) : dict Z string :=
  dict_of_list (map (fun '(msg, i) => (i, msg)) (dict_items (msg_to_id h))).

(** [self.msg_to_id[msg] for msgname, msg in self.messages_by_name.items()
     if cond(msgname in self.commands)] *)
Definition ids_where (cond : bool -> bool) (h : HandleCommandGeneration)
  : result (list Z) :=
  mapM (fun '(msgname, msg) => dict_getitem msg (msg_to_id h))
       (filter (fun '(msgname, msg) => cond (dict_in msgname (commands h)))
               (dict_items (messages_by_name h))).

Definition cmdgen_update_data_dictionary (h : HandleCommandGeneration)
           (data : dict string pyval)
  : result (HandleCommandGeneration * dict string pyval) :=
  h <- create_message_ids h ;;
  let messages := messages_dict h in
  let data := dict_set "messages"
                (PDictI (map (fun '(i, m) => (i, PStr m)) (dict_items messages)))
                data in
  cmds <- ids_where (fun b => b) h ;;
  let data := dict_set "commands" (PList (map PInt (sorted Z.leb cmds))) data in
  resps <- ids_where negb h ;;
  let data := dict_set "responses" (PList (map PInt (sorted Z.leb resps))) data in
  Ok (h, data).

(** Lines 186-192 of build_parser: the signature of a parser is looked up in
    all_param_types and entered under the next free number when new; the
    empty signature is not entered. *)
Definition intern_types (types : list string) (apt : dict (list string) nat)
  : option nat * dict (list string) nat :=
  match types with
  | [] => (None, apt)
  | _ =>
      match dict_get types apt with
      | Some paramid => (Some paramid, apt)
      | None => let paramid := List.length apt in
                (Some paramid, dict_set types paramid apt)
      end
  end.

Definition count_name (n : string) (types : list string) : nat :=
  List.length (filter (String.eqb n) types).

Definition build_parser (p : parser) (iscmd : bool)
           (apt : dict (list string) nat)
  : string * dict (list string) nat :=
  let comment := if String.eqb (name p) "#output"
                 then "Output: " ++ msgformat p
                 else msgformat p in
  let types := map class_name (param_types p) in
  let '(paramid, apt) := intern_types types apt in
  let params := match paramid with
                | Some i => "command_parameters" ++ fmt_d (Z.of_nat i)
                | None => "0"
                end in
  let out := "
    // " ++ comment ++ "
    .msg_id=" ++ fmt_d (msgid p) ++ ",
    .num_params=" ++ fmt_d (Z.of_nat (List.length types)) ++ ",
    .param_types = " ++ params ++ ",
" in
  let out :=
    if iscmd then
      let num_args := (List.length types + count_name "PT_progmem_buffer" types
                       + count_name "PT_buffer" types)%nat in
      out ++ "    .num_args=" ++ fmt_d (Z.of_nat num_args) ++ ","
    else
      let max_size :=
        Z.min MESSAGE_MAX
              (MESSAGE_MIN + 1
               + fold_left Z.add (map max_length (param_types p)) 0) in
      out ++ "    .max_size=" ++ fmt_d max_size ++ "," in
  (out, apt).

(** The line of a lookup chain, and the definition of an encoder. *)
Definition lookup_line (s : string) (msgid : Z) : string :=
  "    if (__builtin_strcmp(str, " ++ DQ ++ s ++ DQ ++ ") == 0)
        return &command_encoder_" ++ fmt_d msgid ++ ";
".

Definition encoder_def (msgid : Z) (parsercode : string) : string :=
  "const struct command_encoder command_encoder_" ++ fmt_d msgid
  ++ " PROGMEM = {    " ++ parsercode ++ "
};
".

(** The variables of the loop of generate_responses_code. *)
Record responses_loop := {
  encoder_defs : list string;
  output_code : list string;
  encoder_code : list string;
  did_output : dict Z bool;
  loop_param_types : dict (list string) nat
}.

Definition responses_step (m2i : dict string Z) (st : responses_loop)
           (enc : option string * string) : result responses_loop :=
  let '(msgname, msg) := enc in
  msgid <- dict_getitem msg m2i ;;
  if dict_in msgid (did_output st) then Ok st
  else
    let s := msg in
    let did := dict_set msgid true (did_output st) in
    let code := lookup_line s msgid in
    p <- match msgname with
         | None => OutputFormat msgid msg
         | Some _ => MessageFormat msgid msg
         end ;;
    let '(parsercode, apt) := build_parser p false (loop_param_types st) in
    Ok {| encoder_defs := (encoder_defs st ++ [encoder_def msgid parsercode])%list;
          output_code := match msgname with
                         | None => (output_code st ++ [code])%list
                         | Some _ => output_code st
                         end;
          encoder_code := match msgname with
                          | None => encoder_code st
                          | Some _ => (encoder_code st ++ [code])%list
                          end;
          did_output := did;
          loop_param_types := apt |}.

Definition responses_loop_run (h : HandleCommandGeneration)
  : result responses_loop :=
  foldM (responses_step (msg_to_id h)) (encoders h)
        {| encoder_defs := []; output_code := []; encoder_code := [];
           did_output := []; loop_param_types := all_param_types h |}.

Definition generate_responses_code (h : HandleCommandGeneration)
  : result (string * HandleCommandGeneration) :=
  st <- responses_loop_run h ;;
  Ok ("
" ++ strip (join "" (encoder_defs st)) ++ "

const __always_inline struct command_encoder *
ctr_lookup_encoder(const char *str)
{
    " ++ strip (join "" (encoder_code st)) ++ "
    return NULL;
}

const __always_inline struct command_encoder *
ctr_lookup_output(const char *str)
{
    " ++ strip (join "" (output_code st)) ++ "
    return NULL;
}
", with_all_param_types h (loop_param_types st)).

(** cmd_by_id = { self.msg_to_id[self.messages_by_name.get(msgname, msgname)]:
                  cmd for msgname, cmd in self.commands.items() } *)
Definition cmd_by_id (h : HandleCommandGeneration)
  : result (dict Z (string * string * string)) :=
  foldM (fun d '(msgname, cmd) =>
           let msg := match dict_get msgname (messages_by_name h) with
                      | Some m => m
                      | None => msgname
                      end in
           i <- dict_getitem msg (msg_to_id h) ;;
           Ok (dict_set i cmd d))
        (dict_items (commands h)) [].

(** The two kinds of entry of command_index. *)
Definition placeholder_entry : string := " {
},".

Definition command_entry (parsercode flags funcname : string) : string :=
  " {" ++ parsercode ++ "
    .flags=" ++ flags ++ ",
    .func=" ++ funcname ++ "
},".

(** The variables of the loop of generate_commands_code. *)
Record commands_loop := {
  index : list string;
  externs : dict string Z;
  cmd_param_types : dict (list string) nat
}.

Definition commands_step (h : HandleCommandGeneration)
           (by_id : dict Z (string * string * string))
           (st : commands_loop) (msgid : Z) : result commands_loop :=
  match dict_get msgid by_id with
  | None =>
      Ok {| index := (index st ++ [placeholder_entry])%list;
            externs := externs st;
            cmd_param_types := cmd_param_types st |}
  | Some (funcname, flags, msgname) =>
      msg <- dict_getitem msgname (messages_by_name h) ;;
      let ext := dict_set funcname 1 (externs st) in
      p <- MessageFormat msgid msg ;;
      let '(parsercode, apt) := build_parser p true (cmd_param_types st) in
      Ok {| index := (index st ++ [command_entry parsercode flags funcname])%list;
            externs := ext;
            cmd_param_types := apt |}
  end.

(** range(n) *)
Definition range (n : Z) : list Z := map Z.of_nat (seq 0 (Z.to_nat n)).

Definition commands_loop_run (h : HandleCommandGeneration)
  : result commands_loop :=
  by_id <- cmd_by_id h ;;
  max_cmd_msgid <- py_max (dict_keys by_id) ;;
  foldM (commands_step h by_id) (range (max_cmd_msgid + 1))
        {| index := []; externs := []; cmd_param_types := all_param_types h |}.

Definition generate_commands_code (h : HandleCommandGeneration)
  : result (string * HandleCommandGeneration) :=
  st <- commands_loop_run h ;;
  let index := strip (join "" (index st)) in
  let externs := join NL (map (fun funcname =>
                                 "extern void " ++ funcname ++ "(uint32_t*);")
                              (sorted str_leb (dict_keys (externs st)))) in
  Ok ("
" ++ externs ++ "

const struct command_parser command_index[] PROGMEM = {
" ++ index ++ "
};

const uint8_t command_index_size PROGMEM = ARRAY_SIZE(command_index);
", with_all_param_types h (cmd_param_types st)).

(** Order of the pairs (paramid, argtypes), as Python compares tuples. *)
Fixpoint tuple_leb (a b : list string) : bool :=
  match a, b with
  | [], _ => true
  | _ :: _, [] => false
  | x :: a', y :: b' =>
      match String.compare x y with
      | Lt => true
      | Gt => false
      | Eq => tuple_leb a' b'
      end
  end.

Definition param_leb (a b : nat * list string) : bool :=
  (Nat.ltb (fst a) (fst b)
   || (Nat.eqb (fst a) (fst b) && tuple_leb (snd a) (snd b)))%bool.

Definition generate_param_code (h : HandleCommandGeneration) : string :=
  let sorted_param_types :=
    sorted param_leb (map (fun '(a, i) => (i, a))
                          (dict_items (all_param_types h))) in
  let params := map (fun '(paramid, argtypes) =>
    "static const uint8_t command_parameters" ++ fmt_d (Z.of_nat paramid)
    ++ "[] PROGMEM = {
    " ++ join ", " argtypes ++ " };") sorted_param_types in
  join NL ([""] ++ params ++ [""])%list.

Definition cmdgen_generate_code (h : HandleCommandGeneration)
  : result (string * HandleCommandGeneration) :=
  '(parsercode, h) <- generate_responses_code h ;;
  '(cmdcode, h) <- generate_commands_code h ;;
  let paramcode := generate_param_code h in
  Ok (paramcode ++ parsercode ++ cmdcode, h).

(* ================================================================== *)
(** * Identify data dictionary generation *)
(* ================================================================== *)

(** json.dumps with its defaults: separators ", " and ": ", ensure_ascii.
    A [PDictS] or [PDictI] holds its items in the order the dict is walked. *)
Definition json_escape_char (c : ascii) : string :=
  let n := nat_of_ascii c in
  if Nat.eqb n 34 then "\" ++ DQ
  else if Nat.eqb n 92 then "\\"
  else if Nat.eqb n 10 then "\n"
  else if Nat.eqb n 13 then "\r"
  else if Nat.eqb n 9 then "\t"
  else if Nat.eqb n 12 then "\f"
  else if Nat.eqb n 8 then "\b"
  else if (Nat.ltb n 32 || Nat.eqb n 127)%bool then "\u00" ++ fmt_02x n
  else String c "".

Fixpoint is_ascii (s : string) : bool :=
  match s with
  | EmptyString => true
  | String c s' => (Nat.ltb (nat_of_ascii c) 128 && is_ascii s')%bool
  end.

Definition json_encode_str (s : string) : result string :=
  if is_ascii s
  then Ok (DQ ++ join "" (map json_escape_char (list_ascii_of_string s)) ++ DQ)
  else json_encode_utf8 s.

Fixpoint json_dumps (v : pyval) : result string :=
  match v with
  | PStr s => json_encode_str s
  | PInt n => Ok (fmt_d n)
  | PList l =>
      items <- (fix go (l : list pyval) : result (list string) :=
                  match l with
                  | [] => Ok []
                  | x :: l' => a <- json_dumps x ;; r <- go l' ;; Ok (a :: r)
                  end) l ;;
      Ok ("[" ++ join ", " items ++ "]")
  | PDictS d =>
      items <- (fix go (l : list (string * pyval)) : result (list string) :=
                  match l with
                  | [] => Ok []
                  | (k, x) :: l' =>
                      kk <- json_encode_str k ;;
                      a <- json_dumps x ;;
                      r <- go l' ;;
                      Ok ((kk ++ ": " ++ a) :: r)
                  end) d ;;
      Ok ("{" ++ join ", " items ++ "}")
  | PDictI d =>
      items <- (fix go (l : list (Z * pyval)) : result (list string) :=
                  match l with
                  | [] => Ok []
                  | (k, x) :: l' =>
                      a <- json_dumps x ;;
                      r <- go l' ;;
                      Ok ((DQ ++ fmt_d k ++ DQ ++ ": " ++ a) :: r)
                  end) d ;;
      Ok ("{" ++ join ", " items ++ "}")
  end.

(** The update_data_dictionary methods of the other three handlers. *)
Definition calllist_update_data_dictionary (h : HandleCallList)
           (data : dict string pyval) : dict string pyval := data.

Definition staticstr_update_data_dictionary (h : HandleStaticStrings)
           (data : dict string pyval) : dict string pyval :=
  let d : dict Z string :=
    dict_of_list (map (fun '(i, s) => (i + STATIC_STRING_MIN, s))
                      (enumerate (static_strings h))) in
  dict_set "static_strings"
           (PDictI (map (fun '(i, s) => (i, PStr s)) (dict_items d))) data.

Definition constants_update_data_dictionary (h : HandleConstants)
           (data : dict string pyval) : dict string pyval :=
  dict_set "config"
           (PDictS (map (fun '(k, v) => (k, PStr v)) (dict_items (constants h))))
           data.

(** Handlers, in the order they are appended. *)
Record handlers := {
  calllist : HandleCallList;
  staticstr : HandleStaticStrings;
  consts : HandleConstants;
  cmdgen : HandleCommandGeneration
}.

Definition Handlers : result handlers :=
  h <- HandleCommandGeneration_init ;;
  Ok {| calllist := HandleCallList_init;
        staticstr := HandleStaticStrings_init;
        consts := HandleConstants_init;
        cmdgen := h |}.

Definition with_cmdgen (H : handlers) (h : HandleCommandGeneration) : handlers :=
  {| calllist := calllist H; staticstr := staticstr H; consts := consts H;
     cmdgen := h |}.

(** The walk of "for h in Handlers: h.update_data_dictionary(data)". *)
Definition update_all (H : handlers) (data : dict string pyval)
  : result (handlers * dict string pyval) :=
  let data := calllist_update_data_dictionary (calllist H) data in
  let data := staticstr_update_data_dictionary (staticstr H) data in
  let data := constants_update_data_dictionary (consts H) data in
  '(h, data) <- cmdgen_update_data_dictionary (cmdgen H) data ;;
  Ok (with_cmdgen H h, data).

(** for i in range(len(zdata)): ... *)
Fixpoint hex_lines (i : nat) (zdata : list ascii) : list string :=
  match zdata with
  | [] => []
  | c :: z' =>
      ((if Nat.eqb (i mod 8) 0 then ["
   "] else [])
       ++ [(" 0x" ++ fmt_02x (nat_of_ascii c) ++ ",")%string]
       ++ hex_lines (S i) z')%list
  end.

Definition build_identify (H : handlers) (version toolstr : string)
  : result (handlers * string * string) :=
  '(H, data) <- update_all H [] ;;
  let data := dict_set "version" (PStr version) data in
  let data := dict_set "build_versions" (PStr toolstr) data in
  (* Format compressed info into C code *)
  data <- json_dumps (PDictS (dict_items data)) ;;
  let zdata := zlib_compress data 9 in
  let out := hex_lines 0 (list_ascii_of_string zdata) in
  Ok (H, data, "
// version: " ++ version ++ "
// build_versions: " ++ toolstr ++ "

const uint8_t command_identify_data[] PROGMEM = {" ++ join "" out ++ "
};

// Identify size = " ++ fmt_d (Z.of_nat (String.length zdata))
  ++ " (" ++ fmt_d (Z.of_nat (String.length data)) ++ " uncompressed)
const uint32_t command_identify_size PROGMEM
    = ARRAY_SIZE(command_identify_data);
").

(* ================================================================== *)
(** * Version generation *)
(* ================================================================== *)

(** What the run finds around it: the command line, the result of
    git_version(), the clock, the host name and the string that
    tool_versions() makes of the tool chain. *)
Record environment := {
  opt_extra : string;
  opt_write_dictionary : option string;
  outcfile : string;
  git_version : string;
  btime : string;             (* time.strftime("%Y%m%d_%H%M%S") *)
  hostname : string;
  toolstr : string
}.

Definition build_version (env : environment) : string :=
  let version := git_version env in
  let version := if String.eqb version "" then "?" else version in
  version ++ "-" ++ btime env ++ "-" ++ hostname env ++ opt_extra env.

(* ================================================================== *)
(** * Tool versions *)
(* ================================================================== *)

(** c in s, for one byte *)
Fixpoint contains_char (c : ascii) (s : string) : bool :=
  match s with
  | EmptyString => false
  | String a s' => (Ascii.eqb a c || contains_char c s')%bool
  end.

(** s.startswith(p), and s[n:] *)
Fixpoint startswith (p s : string) : bool :=
  match p, s with
  | EmptyString, _ => true
  | String a p', String b s' => (Ascii.eqb a b && startswith p' s')%bool
  | String _ _, EmptyString => false
  end.

Fixpoint string_drop (n : nat) (s : string) : string :=
  match n, s with
  | O, _ => s
  | S n', String _ s' => string_drop n' s'
  | S _, EmptyString => EmptyString
  end.

(** s.split(sep, 1) for a byte [sep] that occurs in [s]: what is before
    its first occurrence, and what is after it. *)
Fixpoint split_once (sep : ascii) (s : string) : string * string :=
  match s with
  | EmptyString => (EmptyString, EmptyString)
  | String c s' =>
      if Ascii.eqb c sep then (EmptyString, s')
      else let '(a, b) := split_once sep s' in (String c a, b)
  end.

(** versions[isbinutils], and versions[isbinutils] = ver *)
Definition version_of (isbinutils : bool) (v : string * string) : string :=
  if isbinutils then snd v else fst v.

Definition set_version (isbinutils : bool) (ver : string) (v : string * string)
  : string * string :=
  if isbinutils then (fst v, ver) else (ver, snd v).

(** Run program and return the specified output: the empty string when
    the program cannot be started, when it fails and when its output is no
    ASCII text (output.decode() with the default codec of Python 2). *)
Definition check_output (prog : string) : result string :=
  args <- shlex_split prog ;;
  r <- popen args ;;
  match r with
  | None => Ok ""
  | Some (output, retcode) =>
      if negb (Z.eqb retcode 0) then Ok ""
      else if is_ascii output then Ok output
      else Ok ""
  end.

(** The variables of the loop of tool_versions. *)
Record tool_state := {
  versions : string * string;
  success : nat
}.

(** The body of "for tool in tools". *)
Definition tool_step (st : tool_state) (tool : string) : result tool_state :=
  (* Extract first line from "tool --version" output *)
  out <- check_output (tool ++ " --version") ;;
  let verstr := hd "" (split_on (ascii_of_nat 10) out) in
  (* Check if this tool looks like a binutils program *)
  let '(isbinutils, verstr) :=
    if startswith "GNU " verstr then (true, string_drop 4 verstr)
    else (false, verstr) in
  (* Extract version information and exclude program name *)
  if negb (contains_char " " verstr) then Ok st
  else
    let '(prog, ver) := split_once " " verstr in
    if (String.eqb prog "" || String.eqb ver "")%bool then Ok st
    else
      (* Check for any version conflicts *)
      let cur := version_of isbinutils (versions st) in
      if (negb (String.eqb cur "") && negb (String.eqb cur ver))%bool
      then Ok {| versions := set_version isbinutils "mixed" (versions st);
                 success := success st |}
      else Ok {| versions := set_version isbinutils ver (versions st);
                 success := S (success st) |}.

(** tools = [t.strip() for t in tools.split(';')] *)
Definition tool_list (tools : string) : list string :=
  map strip (split_on ";" tools).

Definition tool_loop (tools : list string) : result tool_state :=
  foldM tool_step tools {| versions := ("", ""); success := 0 |}.

(** The first component is the truth value of cleanbuild. *)
Definition tool_versions (tools : string) : result (bool * string) :=
  let tools := tool_list tools in
  st <- tool_loop tools ;;
  let cleanbuild :=
    (negb (String.eqb (fst (versions st)) "")
     && negb (String.eqb (snd (versions st)) "")
     && Nat.eqb (success st) (List.length tools))%bool in
  Ok (cleanbuild,
      "gcc: " ++ fst (versions st) ++ " binutils: " ++ snd (versions st)).

(* ================================================================== *)
(** * Main code *)
(* ================================================================== *)

Definition FILEHEADER : string := "
/* DO NOT EDIT!  This is an autogenerated file.  See scripts/buildcommands.py. */

#include " ++ DQ ++ "board/irq.h" ++ DQ ++ "
#include " ++ DQ ++ "board/pgm.h" ++ DQ ++ "
#include " ++ DQ ++ "command.h" ++ DQ ++ "
#include " ++ DQ ++ "compiler.h" ++ DQ ++ "
".

Definition on_cmdgen (f : string -> HandleCommandGeneration
                          -> result HandleCommandGeneration)
           (req : string) (H : handlers) : result handlers :=
  h <- f req (cmdgen H) ;; Ok (with_cmdgen H h).

(** ctr_dispatch = { k: v for h in Handlers for k, v in h.ctr_dispatch.items() } *)
Definition ctr_dispatch (cmd : string)
  : option (string -> handlers -> result handlers) :=
  if String.eqb cmd "_DECL_CALLLIST" then
    Some (fun req H => h <- decl_calllist req (calllist H) ;;
            Ok {| calllist := h; staticstr := staticstr H; consts := consts H;
                  cmdgen := cmdgen H |})
  else if String.eqb cmd "_DECL_STATIC_STR" then
    Some (fun req H => h <- decl_static_str req (staticstr H) ;;
            Ok {| calllist := calllist H; staticstr := h; consts := consts H;
                  cmdgen := cmdgen H |})
  else if String.eqb cmd "_DECL_CONSTANT" then
    Some (fun req H => h <- decl_constant req (consts H) ;;
            Ok {| calllist := calllist H; staticstr := staticstr H; consts := h;
                  cmdgen := cmdgen H |})
  else if String.eqb cmd "_DECL_COMMAND" then Some (on_cmdgen decl_command)
  else if String.eqb cmd "_DECL_ENCODER" then Some (on_cmdgen decl_encoder)
  else if String.eqb cmd "_DECL_OUTPUT" then Some (on_cmdgen decl_output)
  else None.

(** The body of "for req in data.split('\0')". *)
Definition handle_request (H : handlers) (req : string) : result handlers :=
  let req := lstrip req in
  if String.eqb req "" then Ok H
  else
    cmd <- list_getitem (split req) 0 ;;
    match ctr_dispatch cmd with
    | None => error ("Unknown build time command '" ++ cmd ++ "'")
    | Some handler => handler req H
    end.

Definition parse_request_file (data : string) (H : handlers) : result handlers :=
  foldM handle_request (split_on NUL data) H.

(** "".join([h.generate_code() for h in Handlers]) *)
Definition generate_all (H : handlers) : result string :=
  let c1 := calllist_generate_code (calllist H) in
  let c2 := staticstr_generate_code (staticstr H) in
  let c3 := constants_generate_code (consts H) in
  '(c4, _) <- cmdgen_generate_code (cmdgen H) ;;
  Ok (join "" [c1; c2; c3; c4]).

(** What a run does to the world outside, in order. *)
Inductive event : Type :=
| Stdout (s : string)
| Open (path : string)        (* open(path, 'wb'): the file is now empty *)
| Write (path : string) (s : string)
| Close (path : string).

Record outcome := {
  events : list event;
  finish : result unit
}.

(** The exit status of the process: 0, the argument of sys.exit, or 1 after
    an exception nobody caught. *)
Definition exit_status (o : outcome) : Z :=
  match finish o with
  | Ok _ => 0
  | Raise (SystemExit _) => -1
  | Raise _ => 1
  end.

Definition stop (evs : list event) (e : pyerr) : outcome :=
  {| events := evs; finish := Raise e |}.

Definition main (env : environment) (data : string) : outcome :=
  match Handlers with
  | Raise e => stop [] e
  | Ok H =>
  (* Parse request file *)
  match parse_request_file data H with
  | Raise e => stop [] e
  | Ok H =>
  (* Create identify information *)
  let toolstr := toolstr env in
  let version := build_version env in
  let evs := [Stdout ("Version: " ++ version ++ NL)] in
  match build_identify H version toolstr with
  | Raise e => stop evs e
  | Ok (H, datadict, icode) =>
  (* Write output *)
  let evs := (evs ++ [Open (outcfile env)])%list in
  match generate_all H with
  | Raise e => stop evs e
  | Ok code =>
  let evs := (evs ++ [Write (outcfile env) (FILEHEADER ++ code ++ icode);
                      Close (outcfile env)])%list in
  (* Write data dictionary *)
  match opt_write_dictionary env with
  | Some path =>
      if String.eqb path "" then {| events := evs; finish := Ok tt |}
      else
        {| events := (evs ++ [Open path; Write path datadict; Close path])%list;
           finish := Ok tt |}
  | None => {| events := evs; finish := Ok tt |}
  end end end end end.

(** The files a run has touched. *)
Definition files_touched (o : outcome) : list string :=
  flat_map (fun e => match e with
                     | Open p => [p]
                     | Write p _ => [p]
                     | _ => []
                     end) (events o).

(* ================================================================== *)
(** * The vocabulary of the properties *)
(* ================================================================== *)

(** A string without white space and not empty: what split() returns. *)
Fixpoint no_space (s : string) : bool :=
  match s with
  | EmptyString => true
  | String c s' => (negb (isspace c) && no_space s')%bool
  end.

Definition is_token (s : string) : Prop := s <> "" /\ no_space s = true.

(** The first element of s.split(), when there is one. *)
Definition first_token (s : string) : option string := nth_error (split s) 0.

(** The registry after a command declaration that went through. *)
Definition declared_command (h : HandleCommandGeneration)
           (funcname flags msgname msg : string) : HandleCommandGeneration :=
  {| commands := dict_set msgname (funcname, flags, msgname) (commands h);
     encoders := encoders h;
     msg_to_id := msg_to_id h;
     messages_by_name := dict_set msgname msg (messages_by_name h);
     all_param_types := all_param_types h |}.

Definition declared_encoder (h : HandleCommandGeneration)
           (msgname : option string) (msg : string) : HandleCommandGeneration :=
  {| commands := commands h;
     encoders := (encoders h ++ [(msgname, msg)])%list;
     msg_to_id := msg_to_id h;
     messages_by_name := match msgname with
                         | Some n => dict_set n msg (messages_by_name h)
                         | None => messages_by_name h
                         end;
     all_param_types := all_param_types h |}.

(** One request changes the registry by one declaration, or not at all. *)
Inductive registry_step (h : HandleCommandGeneration)
  : HandleCommandGeneration -> Prop :=
| step_none : registry_step h h
| step_command req h' : decl_command req h = Ok h' -> registry_step h h'
| step_encoder req h' : decl_encoder req h = Ok h' -> registry_step h h'
| step_output req h' : decl_output req h = Ok h' -> registry_step h h'.

(** What holds of the registry at any point of the replay. *)
Record registry_inv (h : HandleCommandGeneration) : Prop := {
  inv_cmd_nodup : NoDup (map fst (commands h));
  inv_mbn_nodup : NoDup (map fst (messages_by_name h));
  inv_names : forall n m,
      dict_get n (messages_by_name h) = Some m -> first_token m = Some n;
  inv_cmd_named : forall n c,
      dict_get n (commands h) = Some c ->
      (exists f fl, c = (f, fl, n)) /\
      exists m, dict_get n (messages_by_name h) = Some m;
  inv_covered : forall n m,
      dict_get n (messages_by_name h) = Some m ->
      dict_in m (msg_to_id h) = true \/ dict_in n (commands h) = true \/
      In (Some n, m) (encoders h);
  inv_enc : forall n m,
      In (Some n, m) (encoders h) -> dict_get n (messages_by_name h) = Some m
}.

(** Distinct formats have distinct identifiers. *)
Record ids_inv (d : dict string Z) : Prop := {
  ids_nodup : NoDup (map fst d);
  ids_inj : forall m1 m2 i,
      dict_get m1 d = Some i -> dict_get m2 d = Some i -> m1 = m2
}.

Definition baseline_ids : dict string Z :=
  dict_of_list (map (fun '(i, m) => (m, i))
                    (dict_items (dict_of_list DefaultMessages))).

(** The state of the handlers once the requests [reqs] are replayed. *)
Definition replayed (reqs : list string) (H : handlers) : Prop :=
  exists H0, Handlers = Ok H0 /\ foldM handle_request reqs H0 = Ok H.

(** self.messages_by_name.get(msgname, msgname) *)
Definition resolve (mbn : dict string string) (msgname : string) : string :=
  match dict_get msgname mbn with
  | Some m => m
  | None => msgname
  end.

(** Identifiers c+1, c+2, ... *)
Definition ids_from (c : Z) (n : nat) : list Z :=
  map (fun j => c + 1 + Z.of_nat j) (seq 0 n).

(** The names that create_message_ids walks through. *)
Definition referenced (h : HandleCommandGeneration) : list string :=
  (dict_keys (commands h) ++ map snd (encoders h))%list.

(** A request as decl_command reads it: handler, flags, message name and
    format; and as decl_encoder reads it: message name and format. *)
Definition command_of (req : string)
  : option (string * string * string * string) :=
  match split req with
  | cmd :: funcname :: flags :: msgname :: _ =>
      if String.eqb cmd "_DECL_COMMAND"
      then option_map (fun msg => (funcname, flags, msgname, msg))
                      (nth_error (split_max 3 req) 3)
      else None
  | _ => None
  end.

Definition encoder_of (req : string) : option (string * string) :=
  match split req with
  | cmd :: _ =>
      if String.eqb cmd "_DECL_ENCODER"
      then match nth_error (split_max 1 req) 1 with
           | Some msg => option_map (fun n => (n, msg)) (first_token msg)
           | None => None
           end
      else None
  | [] => None
  end.

Definition multiple_definitions (n : string) : pyerr :=
  SystemExit ("Multiple definitions for command '" ++ n ++ "'").
Definition conflicting_message (n : string) : pyerr :=
  SystemExit ("Conflicting definition for message '" ++ n ++ "'").

(** The signature that build_parser takes from a parser. *)
Definition signature (p : parser) : list string :=
  map class_name (param_types p).

(** A run of calls of build_parser, seen from all_param_types: the
    signatures handed in, the numbers handed back. *)
Fixpoint intern_seq (sigs : list (list string)) (apt : dict (list string) nat)
  : list (option nat) * dict (list string) nat :=
  match sigs with
  | [] => ([], apt)
  | t :: rest =>
      let '(i, apt1) := intern_types t apt in
      let '(rs, apt2) := intern_seq rest apt1 in
      (i :: rs, apt2)
  end.

Definition sig_dec : forall a b : list string, {a = b} + {a <> b} :=
  list_eq_dec string_dec.

Definition nonempty_sig (t : list string) : bool :=
  match t with [] => false | _ => true end.

(** The number of distinct non-empty signatures in a list. *)
Definition distinct_count (l : list (list string)) : nat :=
  List.length (nodup sig_dec (filter nonempty_sig l)).

(** The table numbers its keys 0, 1, 2, ... in the order they came in, and
    the empty signature is not a key. *)
Record table_ok (apt : dict (list string) nat) : Prop := {
  tbl_nodup : NoDup (map fst apt);
  tbl_count : map snd apt = seq 0 (List.length apt);
  tbl_nonempty : ~ In [] (map fst apt)
}.

Record assigned (h : HandleCommandGeneration) : Prop := {
  as_inv : registry_inv h;
  as_ids : ids_inv (msg_to_id h);
  as_ref : forall n, In n (referenced h) ->
                     dict_in (resolve (messages_by_name h) n) (msg_to_id h) = true
}.

(** The identifier of a command, found through its message name. *)
Definition command_id (h : HandleCommandGeneration) (msgname : string)
  : option Z :=
  dict_get (resolve (messages_by_name h) msgname) (msg_to_id h).

(** What the loop of generate_commands_code appends for identifier [i]. *)
Definition entry_for (by_id : dict Z (string * string * string))
           (i : Z) (e : string) : Prop :=
  match dict_get i by_id with
  | None => e = placeholder_entry
  | Some (funcname, flags, _) =>
      exists parsercode, e = command_entry parsercode flags funcname
  end.

(** The schema document of a run: the first component of what
    build_identify returns in main. *)
Definition schema_document (env : environment) (data : string) : result string :=
  H0 <- Handlers ;;
  H <- parse_request_file data H0 ;;
  '(_, doc, _) <- build_identify H (build_version env) (toolstr env) ;;
  Ok doc.

(** The generated tables of a run: the code of the handlers, as main joins
    it. *)
Definition generated_tables (env : environment) (data : string) : result string :=
  H0 <- Handlers ;;
  H <- parse_request_file data H0 ;;
  '(H, _, _) <- build_identify H (build_version env) (toolstr env) ;;
  generate_all H.


(** [l] with one more [x] put in at position [k]. *)
Definition dup_at {A} (k : nat) (x : A) (l : list A) : list A :=
  (firstn k l ++ x :: skipn k l)%list.





(** An entry of the encoder table: the message name it was declared under
    (none for an output), its format, its identifier and the code that
    build_parser made for it. *)
Record table_entry := {
  e_name : option string;
  e_msg : string;
  e_id : Z;
  e_code : string
}.

Definition is_named (e : table_entry) : bool :=
  match e_name e with Some _ => true | None => false end.

(** The three lists of generate_responses_code, for a list of entries. *)
Definition defs_of (E : list table_entry) : list string :=
  map (fun e => encoder_def (e_id e) (e_code e)) E.
Definition encoder_lines_of (E : list table_entry) : list string :=
  map (fun e => lookup_line (e_msg e) (e_id e)) (filter is_named E).
Definition output_lines_of (E : list table_entry) : list string :=
  map (fun e => lookup_line (e_msg e) (e_id e))
      (filter (fun e => negb (is_named e)) E).

Definition renders (st : responses_loop) (E : list table_entry) : Prop :=
  encoder_defs st = defs_of E /\
  output_code st = output_lines_of E /\
  encoder_code st = encoder_lines_of E /\
  (forall i, dict_in i (did_output st) = true <-> In i (map e_id E)) /\
  NoDup (map e_id E).

(** msgproto's parser for an entry of self.encoders. *)
Definition parser_for (o : option string) (i : Z) (m : string) : result parser :=
  match o with
  | None => OutputFormat i m
  | Some _ => MessageFormat i m
  end.

(** The keys of ctr_dispatch. *)
Definition directives : list string :=
  ["_DECL_CALLLIST"; "_DECL_STATIC_STR"; "_DECL_CONSTANT";
   "_DECL_COMMAND"; "_DECL_ENCODER"; "_DECL_OUTPUT"].

Definition unknown_command (cmd : string) : pyerr :=
  SystemExit ("Unknown build time command '" ++ cmd ++ "'").

(** A request as decl_calllist, decl_static_str and decl_constant read
    it. *)
Definition calllist_of (req : string) : option (string * string) :=
  match split req with
  | [cmd; funcname; callname] =>
      if String.eqb cmd "_DECL_CALLLIST" then Some (funcname, callname) else None
  | _ => None
  end.

Definition static_str_of (req : string) : option string :=
  match split req with
  | cmd :: _ =>
      if String.eqb cmd "_DECL_STATIC_STR"
      then nth_error (split_max 1 req) 1
      else None
  | [] => None
  end.

(** Lines 108-110: the value without the blanks around it and without one
    pair of double quotes. *)
Definition unquote (value : string) : string :=
  let value := strip value in
  if (starts_with_dq value && ends_with_dq value)%bool
  then slice_1_m1 value else value.

Definition constant_of (req : string) : option (string * string) :=
  match split req with
  | [cmd; cname; value] =>
      if String.eqb cmd "_DECL_CONSTANT" then Some (cname, unquote value) else None
  | _ => None
  end.

(** The call names declared for [funcname], and the static strings, in the
    order of the requests. *)
Definition calls_for (funcname : string) (reqs : list string) : list string :=
  flat_map (fun r => match calllist_of r with
                     | Some (f, c) => if String.eqb f funcname then [c] else []
                     | None => []
                     end) reqs.

Definition static_strs (reqs : list string) : list string :=
  flat_map (fun r => match static_str_of r with
                     | Some s => [s]
                     | None => []
                     end) reqs.

Definition conflicting_constant (n : string) : pyerr :=
  SystemExit ("Conflicting definition for constant '" ++ n ++ "'").

(** What call_lists holds for [f] when the requests [reqs] are behind. *)
Definition calls_expected (f : string) (reqs : list string)
  : option (list string) :=
  match calls_for f reqs with
  | [] => if String.eqb f "ctr_run_initfuncs" then Some [] else None
  | l => Some l
  end.

(** The constants table against the requests that are behind: its keys are
    the declared names, each with the value of its declarations. *)
Definition constants_recorded (H : handlers) (done : list string) : Prop :=
  NoDup (map fst (constants (consts H))) /\
  forall n v,
    dict_get n (constants (consts H)) = Some v <->
    exists r, In r done /\ constant_of r = Some (n, v).

(** The items that update_data_dictionary numbers: enumerate from [a],
    shifted by STATIC_STRING_MIN. *)
Definition numbered_from (a : nat) (l : list string) : list (Z * string) :=
  map (fun '(i, s) => (i + STATIC_STRING_MIN, s))
      (combine (map Z.of_nat (seq a (List.length l))) l).

(** What can follow a word in a request: nothing, or white space first. *)
Definition blank_head (r : string) : bool :=
  match r with
  | EmptyString => true
  | String c _ => isspace c
  end.

Definition conflicting_command (n : string) : pyerr :=
  SystemExit ("Conflicting definition for command '" ++ n ++ "'").

(** The exception of a request whose number of words does not fit its
    directive: the unpacking of req.split()[1:] and of req.split()[1:4]
    raises ValueError, the index 1 of req.split(None, 1) IndexError. *)
Definition wrong_arity (req : string) : option pyerr :=
  match split req with
  | cmd :: args =>
      if (String.eqb cmd "_DECL_CALLLIST" || String.eqb cmd "_DECL_CONSTANT")%bool
      then if Nat.eqb (List.length args) 2 then None else Some ValueError
      else if String.eqb cmd "_DECL_COMMAND"
      then if Nat.ltb (List.length args) 3 then Some ValueError else None
      else if (String.eqb cmd "_DECL_STATIC_STR" || String.eqb cmd "_DECL_ENCODER"
               || String.eqb cmd "_DECL_OUTPUT")%bool
      then match args with [] => Some IndexError | _ => None end
      else None
  | [] => None
  end.

(** The handlers with one more static string. *)
Definition with_static_str (H : handlers) (msg : string) : handlers :=
  {| calllist := calllist H;
     staticstr := {| static_strings := (static_strings (staticstr H) ++ [msg])%list |};
     consts := consts H;
     cmdgen := cmdgen H |}.

(** One array of generate_param_code. *)
Definition param_array (paramid : nat) (argtypes : list string) : string :=
  "static const uint8_t command_parameters" ++ fmt_d (Z.of_nat paramid)
  ++ "[] PROGMEM = {
    " ++ join ", " argtypes ++ " };".

(** The pairs that generate_param_code sorts, in the order of their
    numbers. *)
Definition by_paramid (a b : nat * list string) : Prop :=
  (fst a < fst b)%nat.

(** What the loop of tool_versions takes from the output of one tool:
    whether it is a binutils program, and its version; nothing when the
    first line of the output is not a program name, a blank and a
    version. *)
Definition version_line (out : string) : option (bool * string) :=
  let verstr := hd "" (split_on (ascii_of_nat 10) out) in
  let '(isbinutils, verstr) :=
    if startswith "GNU " verstr then (true, string_drop 4 verstr)
    else (false, verstr) in
  if negb (contains_char " " verstr) then None
  else
    let '(prog, ver) := split_once " " verstr in
    if (String.eqb prog "" || String.eqb ver "")%bool then None
    else Some (isbinutils, ver).

(** What one tool reports, when check_output returns for it. *)
Definition reported (tool : string) : result (option (bool * string)) :=
  out <- check_output (tool ++ " --version") ;;
  Ok (version_line out).

(** The loop, over what the tools report. *)
Definition report_step (st : tool_state) (r : option (bool * string))
  : tool_state :=
  match r with
  | None => st
  | Some (k, ver) =>
      let cur := version_of k (versions st) in
      if (negb (String.eqb cur "") && negb (String.eqb cur ver))%bool
      then {| versions := set_version k "mixed" (versions st);
              success := success st |}
      else {| versions := set_version k ver (versions st);
              success := S (success st) |}
  end.

Definition tool_state0 : tool_state := {| versions := ("", ""); success := 0 |}.

(** No report has the empty version. *)
Definition versions_given (rs : list (option (bool * string))) : Prop :=
  forall k, ~ In (Some (k, "")) rs.

(** All the reports so far went into the count, and agree with the
    recorded versions. *)
Definition clean_so_far (rs : list (option (bool * string))) (st : tool_state)
  : Prop :=
  (forall r, In r rs -> exists k, r = Some (k, version_of k (versions st))) /\
  (forall k, version_of k (versions st) <> "" ->
             In (Some (k, version_of k (versions st))) rs).

(** The recorded version of a class is "mixed", or the one of every
    report of the class. *)
Definition mixed_or_agreed (rs : list (option (bool * string)))
           (st : tool_state) : Prop :=
  forall k,
    version_of k (versions st) = "mixed" \/
    forall ver, In (Some (k, ver)) rs -> ver = version_of k (versions st).

(** Reading the identify array back: the value of a hexadecimal digit, and
    the byte of an item " 0xhh," of the array; the line breaks between the
    items are no items. *)
Definition unhex (c : ascii) : option nat :=
  let n := nat_of_ascii c in
  if (Nat.leb 48 n && Nat.leb n 57)%bool then Some (n - 48)%nat
  else if (Nat.leb 97 n && Nat.leb n 102)%bool then Some (n - 87)%nat
  else None.

Definition item_byte (item : string) : option nat :=
  match item with
  | String " " (String "0" (String "x" (String h (String l (String "," EmptyString))))) =>
      match unhex h, unhex l with
      | Some a, Some b => Some (16 * a + b)%nat
      | _, _ => None
      end
  | _ => None
  end.

Definition array_bytes (items : list string) : list nat :=
  flat_map (fun item => match item_byte item with
                        | Some b => [b]
                        | None => []
                        end) items.

(** The text that build_identify makes of the version, of the tool
    versions, of the items of the array and of the two sizes. *)
Definition identify_code (version toolstr : string) (items : list string)
           (zlen dlen : nat) : string :=
  "
// version: " ++ version ++ "
// build_versions: " ++ toolstr ++ "

const uint8_t command_identify_data[] PROGMEM = {" ++ join "" items ++ "
};

// Identify size = " ++ fmt_d (Z.of_nat zlen)
  ++ " (" ++ fmt_d (Z.of_nat dlen) ++ " uncompressed)
const uint32_t command_identify_size PROGMEM
    = ARRAY_SIZE(command_identify_data);
".

(** The message-to-identifier mapping of a run: msg_to_id once
    build_identify has called update_data_dictionary. *)
Definition identifier_mapping (data : string) : result (dict string Z) :=
  H0 <- Handlers ;;
  H <- parse_request_file data H0 ;;
  '(H', _) <- update_all H [] ;;
  Ok (msg_to_id (cmdgen H')).

(** The text of generate_commands_code, for the names of the handler
    functions and the entries of the array. *)
Definition command_index_text (funcnames : list string) (entries : list string)
  : string :=
  "
" ++ join NL (map (fun funcname => "extern void " ++ funcname ++ "(uint32_t*);")
                  funcnames) ++ "

const struct command_parser command_index[] PROGMEM = {
" ++ strip (join "" entries) ++ "
};

const uint8_t command_index_size PROGMEM = ARRAY_SIZE(command_index);
".

(** The reference to its parameter array that build_parser writes into
    the text of a parser: the array of the table index, or 0 for a parser
    without parameters. *)
Definition params_ref (paramid : option nat) : string :=
  match paramid with
  | Some i => "command_parameters" ++ fmt_d (Z.of_nat i)
  | None => "0"
  end.

(** The text of build_parser for a parser, given that reference. *)
Definition parser_text (p : parser) (iscmd : bool) (params : string) : string :=
  let comment := if String.eqb (name p) "#output"
                 then "Output: " ++ msgformat p
                 else msgformat p in
  let types := signature p in
  let out := "
    // " ++ comment ++ "
    .msg_id=" ++ fmt_d (msgid p) ++ ",
    .num_params=" ++ fmt_d (Z.of_nat (List.length types)) ++ ",
    .param_types = " ++ params ++ ",
" in
  if iscmd then
    out ++ "    .num_args="
        ++ fmt_d (Z.of_nat (List.length types
                            + count_name "PT_progmem_buffer" types
                            + count_name "PT_buffer" types)) ++ ","
  else
    out ++ "    .max_size="
        ++ fmt_d (Z.min MESSAGE_MAX
                        (MESSAGE_MIN + 1
                         + fold_left Z.add (map max_length (param_types p)) 0))
        ++ ",".

(** A run of calls of build_parser, each on the table that the call
    before it left: the texts returned, and the table in the end. *)
Fixpoint build_parser_run (calls : list (parser * bool))
         (apt : dict (list string) nat)
  : list string * dict (list string) nat :=
  match calls with
  | [] => ([], apt)
  | (p, iscmd) :: rest =>
      let '(out, apt1) := build_parser p iscmd apt in
      let '(outs, apt2) := build_parser_run rest apt1 in
      (out :: outs, apt2)
  end.

(** The calls of build_parser in generate_responses_code, for the
    identifiers and parsers of the encoders it emits, and the
    command_encoder definitions made of the texts they return. *)
Definition encoder_calls (built : list (Z * parser)) : list (parser * bool) :=
  map (fun b => (snd b, false)) built.

Definition encoder_defs_of (built : list (Z * parser)) (texts : list string)
  : list string :=
  map (fun '(b, t) => encoder_def (fst b) t) (combine built texts).

(** The calls of build_parser in generate_commands_code, for the slots of
    command_index: no command, or the flags, the handler and the parser of
    one; and the entries made of the texts they return. *)
Definition command_calls (slots : list (option (string * string * parser)))
  : list (parser * bool) :=
  flat_map (fun s => match s with
                     | Some (_, _, p) => [(p, true)]
                     | None => []
                     end) slots.

Fixpoint index_of (slots : list (option (string * string * parser)))
         (texts : list string) : list string :=
  match slots with
  | [] => []
  | None :: rest => placeholder_entry :: index_of rest texts
  | Some (flags, funcname, _) :: rest =>
      match texts with
      | t :: ts => command_entry t flags funcname :: index_of rest ts
      | [] => []
      end
  end.

(** The text of generate_responses_code, for the command_encoder
    definitions and the lines of the two lookup chains. *)
Definition responses_text (defs encoder_lines output_lines : list string)
  : string :=
  "
" ++ strip (join "" defs) ++ "

const __always_inline struct command_encoder *
ctr_lookup_encoder(const char *str)
{
    " ++ strip (join "" encoder_lines) ++ "
    return NULL;
}

const __always_inline struct command_encoder *
ctr_lookup_output(const char *str)
{
    " ++ strip (join "" output_lines) ++ "
    return NULL;
}
".



End Handlers.

(* ================================================================== *)
(** * A concrete setting *)
(* ================================================================== *)

(** The parameter types and the two parsers of msgproto, for the requests
    of the examples below. *)
Definition example_types : list (string * param_type) :=
  [("%u", {| class_name := "PT_uint32"; max_length := 5 |});
   ("%i", {| class_name := "PT_int32"; max_length := 5 |});
   ("%hu", {| class_name := "PT_uint16"; max_length := 3 |});
   ("%hi", {| class_name := "PT_int16"; max_length := 3 |});
   ("%c", {| class_name := "PT_byte"; max_length := 2 |});
   ("%s", {| class_name := "PT_string"; max_length := 64 |});
   ("%.*s", {| class_name := "PT_progmem_buffer"; max_length := 64 |});
   ("%*s", {| class_name := "PT_buffer"; max_length := 64 |})].

Definition example_arg_type (arg : string) : result param_type :=
  match split_on "=" arg with
  | [_; fmt] => match dict_get fmt example_types with
                | Some t => Ok t
                | None => Raise LibError
                end
  | _ => Raise LibError
  end.

Definition example_MessageFormat (msgid : Z) (msg : string) : result parser :=
  match split msg with
  | n :: args =>
      ts <- mapM example_arg_type args ;;
      Ok {| name := n; msgid := msgid; msgformat := msg; param_types := ts |}
  | [] => Raise IndexError
  end.

Definition example_OutputFormat (msgid : Z) (msg : string) : result parser :=
  Ok {| name := "#output"; msgid := msgid; msgformat := msg; param_types := [] |}.

Definition example_msgproto : Msgproto :=
  {| DefaultMessages := [(0, "identify_response offset=%u data=%.*s");
                         (1, "identify offset=%u count=%c")];
     MESSAGE_MIN := 5;
     MESSAGE_MAX := 64;
     MessageFormat := example_MessageFormat;
     OutputFormat := example_OutputFormat |}.

Definition example_pylib : PyLib :=
  {| zlib_compress := fun s _ => s;
     json_encode_utf8 := fun _ => Raise LibError |}.

Definition example_env : environment :=
  {| opt_extra := "";
     opt_write_dictionary := Some "out/klipper.dict";
     outcfile := "out/compile_time_request.c";
     git_version := "v0.5.0-12-gabcdef";
     btime := "20180101_120000";
     hostname := "build";
     toolstr := "gcc: 7.2.0 binutils: 2.29" |}.

Definition example_order_string : HashOrder string := insertion_order string.
Definition example_order_Z : HashOrder Z := insertion_order Z.
Definition example_order_sig : HashOrder (list string) :=
  insertion_order (list string).

(** A tool chain: what its programs print, one of them from another
    release; a program that is not there; and command lines with a quote
    that is not closed. *)
Definition example_subprocess : Subprocess :=
  {| shlex_split := fun prog =>
       if contains_char (ascii_of_nat 39) prog then Raise ValueError
       else Ok (split prog);
     popen := fun args =>
       let cmd := join " " args in
       if String.eqb cmd "avr-gcc --version"
       then Ok (Some ("avr-gcc (GCC) 7.2.0" ++ NL
                      ++ "Copyright (C) 2017 Free Software Foundation, Inc.",
                      0))
       else if String.eqb cmd "avr-ld --version"
       then Ok (Some ("GNU ld (GNU Binutils) 2.29" ++ NL, 0))
       else if String.eqb cmd "avr-objcopy --version"
       then Ok (Some ("GNU objcopy (GNU Binutils) 2.26" ++ NL, 0))
       else Ok None |}.

Section Examples.

#[local] Existing Instance example_msgproto.
#[local] Existing Instance example_pylib.
#[local] Existing Instance example_order_string.
#[local] Existing Instance example_order_Z.
#[local] Existing Instance example_order_sig.
#[local] Existing Instance example_subprocess.

Definition request_file (reqs : list string) : string :=
  join (String NUL "") reqs.

Definition example_requests : list string :=
  ["_DECL_COMMAND command_get_config 0x01 get_config";
   " _DECL_COMMAND command_queue_step 0 queue_step oid=%c interval=%u count=%hu add=%hi";
   "_DECL_ENCODER config is_config=%c crc=%u move_count=%hu";
   "_DECL_OUTPUT hello %u";
   "_DECL_CONSTANT MCU avr";
   "_DECL_STATIC_STR Timer too close";
   "_DECL_CALLLIST ctr_run_initfuncs sched_init"].

Definition empty_handlers : handlers :=
  {| calllist := HandleCallList_init;
     staticstr := HandleStaticStrings_init;
     consts := HandleConstants_init;
     cmdgen := {| commands := []; encoders := []; msg_to_id := [];
                  messages_by_name := []; all_param_types := [] |} |}.

(** The handlers after the example requests, and after identifier
    assignment. *)
Definition example_handlers : handlers :=
  Eval vm_compute in
    match H0 <- Handlers ;; foldM handle_request example_requests H0 with
    | Ok H => H
    | Raise _ => empty_handlers
    end.

Definition example_assigned : handlers :=
  Eval vm_compute in
    match update_all example_handlers [] with
    | Ok (H, _) => H
    | Raise _ => empty_handlers
    end.

(** A request file that declares nothing but an output. *)
Definition output_only_handlers : handlers :=
  Eval vm_compute in
    match H0 <- Handlers ;; foldM handle_request ["_DECL_OUTPUT hello %u"] H0 with
    | Ok H => H
    | Raise _ => empty_handlers
    end.

(** C4 as the specification states it: the two lists are disjoint and
    between them hold every identifier of 'messages'. *)
Definition partition_as_stated : Prop :=
  forall reqs H H' doc msgs cmds resps,
    replayed reqs H ->
    update_all H [] = Ok (H', doc) ->
    dict_get "messages" doc = Some (PDictI msgs) ->
    dict_get "commands" doc = Some (PList (map PInt cmds)) ->
    dict_get "responses" doc = Some (PList (map PInt resps)) ->
    (forall i, ~ (In i cmds /\ In i resps)) /\
    (forall i, dict_in i msgs = true <-> In i cmds \/ In i resps).

Definition conflict_file : string :=
  request_file ["_DECL_COMMAND command_x 0 a %u";
                "_DECL_COMMAND command_x 0 a %hu"].

Definition repeated_file : string :=
  request_file ["_DECL_COMMAND command_get_config 0x01 get_config";
                "_DECL_ENCODER config is_config=%c";
                "_DECL_COMMAND command_get_config 0x01 get_config"].

Definition repeated_handlers : handlers :=
  Eval vm_compute in
    match H0 <- Handlers ;;
          foldM handle_request
                ["_DECL_COMMAND command_get_config 0x01 get_config";
                 "_DECL_ENCODER config is_config=%c"] H0 with
    | Ok H => H
    | Raise _ => empty_handlers
    end.



(** A request file with a record that is no directive. *)
Definition unknown_directive_file : string :=
  request_file ["_DECL_CONSTANT MCU avr";
                "_DECL_BOGUS x";
                "_DECL_OUTPUT hello %u"].

Definition one_constant_handlers : handlers :=
  Eval vm_compute in
    match H0 <- Handlers ;; foldM handle_request ["_DECL_CONSTANT MCU avr"] H0 with
    | Ok H => H
    | Raise _ => empty_handlers
    end.

(** Requests for two call lists, interleaved. *)
Definition calllist_requests : list string :=
  ["_DECL_CALLLIST ctr_run_taskfuncs sched_task";
   "_DECL_CALLLIST ctr_run_initfuncs sched_init";
   "_DECL_CALLLIST ctr_run_taskfuncs adc_task";
   "_DECL_CONSTANT MCU avr"].

Definition calllist_handlers : handlers :=
  Eval vm_compute in
    match H0 <- Handlers ;; foldM handle_request calllist_requests H0 with
    | Ok H => H
    | Raise _ => empty_handlers
    end.

(** Static strings, one of them declared twice. *)
Definition static_requests : list string :=
  ["_DECL_STATIC_STR Timer too close";
   "_DECL_CONSTANT MCU avr";
   "_DECL_STATIC_STR Rescheduled timer in the past";
   "_DECL_STATIC_STR Timer too close"].

Definition static_handlers : handlers :=
  Eval vm_compute in
    match H0 <- Handlers ;; foldM handle_request static_requests H0 with
    | Ok H => H
    | Raise _ => empty_handlers
    end.

(** Constants, one of them declared with and without quotes. *)
Definition constant_requests : list string :=
  ["_DECL_CONSTANT MCU avr";
   "_DECL_CONSTANT CLOCK_FREQ 16000000";
   "_DECL_CONSTANT MCU " ++ DQ ++ "avr" ++ DQ].

Definition constant_handlers : handlers :=
  Eval vm_compute in
    match H0 <- Handlers ;; foldM handle_request constant_requests H0 with
    | Ok H => H
    | Raise _ => empty_handlers
    end.

Definition constant_conflict_file : string :=
  request_file ["_DECL_CONSTANT MCU avr";
                "_DECL_CONSTANT MCU sam3x8e"].

(** A constant whose quoted value holds a blank. *)
Definition blank_constant_file : string :=
  request_file ["_DECL_CONSTANT MCU avr";
                "_DECL_CONSTANT BOARD " ++ DQ ++ "my board" ++ DQ].

(** A command for the name of an encoder, with another format. *)
Definition one_encoder_handlers : handlers :=
  Eval vm_compute in
    match H0 <- Handlers ;;
          foldM handle_request ["_DECL_ENCODER stats count=%u"] H0 with
    | Ok H => H
    | Raise _ => empty_handlers
    end.

Definition command_conflict_file : string :=
  request_file ["_DECL_ENCODER stats count=%u";
                "_DECL_COMMAND command_stats 0 stats count=%hu"].

(** An output with the name of an encoder. *)
Definition shadowed_output_file : string :=
  request_file ["_DECL_ENCODER status clock=%u";
                "_DECL_OUTPUT status";
                "_DECL_COMMAND command_get_config 0x01 get_config"].

Definition shadowed_output_handlers : handlers :=
  Eval vm_compute in
    match H0 <- Handlers ;;
          foldM handle_request (split_on NUL shadowed_output_file) H0 with
    | Ok H => H
    | Raise _ => empty_handlers
    end.

(** Two commands and nothing else. *)
Definition two_commands_file : string :=
  request_file ["_DECL_COMMAND command_get_config 0x01 get_config";
                "_DECL_COMMAND command_queue_step 0 queue_step oid=%c interval=%u count=%hu add=%hi"].







End Examples.

(* ================================================================== *)
(** * Properties *)
(* ================================================================== *)

Section Properties.
Context {hs : HashOrder string} {hz : HashOrder Z}
        {ht : HashOrder (list string)} {mp : Msgproto} {pl : PyLib}.
Context {sp : Subprocess}.

(* ================================================================== *)
(** * Facts about splitting *)
(* ================================================================== *)

Lemma lstrip_length s : (String.length (lstrip s) <= String.length s)%nat.
Proof.
  induction s as [|c s IH]; simpl; [lia|].
  destruct (isspace c); simpl; lia.
Qed.

Lemma lstrip_head s c s' : lstrip s = String c s' -> isspace c = false.
Proof.
  induction s as [|a s IH]; simpl; [discriminate|].
  destruct (isspace a) eqn:E; [exact IH|].
  intros Heq; injection Heq as <- _; exact E.
Qed.

Lemma lstrip_idem s : lstrip (lstrip s) = lstrip s.
Proof.
  induction s as [|c s IH]; simpl; [reflexivity|].
  destruct (isspace c) eqn:E; [exact IH|].
  simpl; rewrite E; reflexivity.
Qed.

Lemma after_token_length s : (String.length (after_token s) <= String.length s)%nat.
Proof.
  induction s as [|c s IH]; simpl; [lia|].
  destruct (isspace c); simpl; lia.
Qed.

Lemma after_token_shorter c s :
  isspace c = false ->
  (String.length (after_token (String c s)) < String.length (String c s))%nat.
Proof.
  intros E; simpl; rewrite E.
  pose proof (after_token_length s); lia.
Qed.

Lemma token_no_space s : no_space (token s) = true.
Proof.
  induction s as [|c s IH]; simpl; [reflexivity|].
  destruct (isspace c) eqn:E; simpl; [reflexivity|].
  rewrite E; exact IH.
Qed.

Lemma no_space_lstrip s : no_space s = true -> lstrip s = s.
Proof.
  destruct s as [|c s]; simpl; [reflexivity|].
  destruct (isspace c); simpl; [discriminate|reflexivity].
Qed.

Lemma no_space_token s : no_space s = true -> token s = s.
Proof.
  induction s as [|c s IH]; simpl; [reflexivity|].
  destruct (isspace c); simpl; [discriminate|].
  intros Hs; rewrite IH by exact Hs; reflexivity.
Qed.

Lemma first_token_spec s :
  first_token s =
  match lstrip s with
  | EmptyString => None
  | s1 => Some (token s1)
  end.
Proof.
  unfold first_token, split.
  destruct s as [|c s]; [reflexivity|].
  cbn [String.length split_max].
  destruct (lstrip (String c s)); reflexivity.
Qed.

Lemma first_token_is_token s t : first_token s = Some t -> is_token t.
Proof.
  rewrite first_token_spec.
  destruct (lstrip s) as [|c s1] eqn:E; [discriminate|].
  intros Heq; injection Heq as <-.
  pose proof (lstrip_head _ _ _ E) as Hc.
  split.
  - simpl; rewrite Hc; discriminate.
  - apply (token_no_space (String c s1)).
Qed.

Lemma is_token_first_token t : is_token t -> first_token t = Some t.
Proof.
  intros [Hne Hns].
  rewrite first_token_spec, (no_space_lstrip _ Hns).
  destruct t as [|c t]; [congruence|].
  rewrite (no_space_token _ Hns); reflexivity.
Qed.

Lemma split_max_nil n s : lstrip s = "" -> split_max n s = [].
Proof. intros E; destruct n; simpl; rewrite E; reflexivity. Qed.

Lemma split_max_O s c s1 : lstrip s = String c s1 -> split_max 0 s = [String c s1].
Proof. intros E; simpl; rewrite E; reflexivity. Qed.

Lemma split_max_S n s c s1 :
  lstrip s = String c s1 ->
  split_max (S n) s = token (String c s1) :: split_max n (after_token (String c s1)).
Proof. intros E; simpl; rewrite E; reflexivity. Qed.

(** What is left after [n] splits starts with the token that the full
    split has at position [n]. *)
Lemma split_max_rest n : forall s r,
  nth_error (split_max n s) n = Some r ->
  lstrip r = r /\ r <> "" /\ (n + String.length r <= String.length s)%nat /\
  forall N, (n + String.length r <= N)%nat ->
            nth_error (split_max N s) n = Some (token r).
Proof.
  induction n as [|n IH]; intros s r.
  - destruct (lstrip s) as [|c s1] eqn:E.
    + rewrite (split_max_nil _ _ E); discriminate.
    + rewrite (split_max_O _ _ _ E); cbn [nth_error].
      intros Heq; injection Heq as <-.
      repeat split.
      * rewrite <- E; apply lstrip_idem.
      * discriminate.
      * rewrite <- E; apply lstrip_length.
      * intros N HN. destruct N as [|N]; [cbn in HN; lia|].
        rewrite (split_max_S _ _ _ _ E); reflexivity.
  - destruct (lstrip s) as [|c s1] eqn:E.
    + rewrite (split_max_nil _ _ E); discriminate.
    + rewrite (split_max_S _ _ _ _ E); cbn [nth_error].
      intros Hn. destruct (IH _ _ Hn) as (H1 & H2 & H3 & H4).
      pose proof (lstrip_head _ _ _ E) as Hc.
      pose proof (after_token_shorter c s1 Hc) as Hlt.
      pose proof (lstrip_length s) as Hls. rewrite E in Hls.
      repeat split; auto.
      * lia.
      * intros N HN. destruct N as [|N]; [lia|].
        rewrite (split_max_S _ _ _ _ E); cbn [nth_error]. apply H4; lia.
Qed.

Lemma split_max_first_token n s r :
  nth_error (split_max n s) n = Some r ->
  exists t, nth_error (split s) n = Some t /\ first_token r = Some t.
Proof.
  intros Hn. destruct (split_max_rest _ _ _ Hn) as (H1 & H2 & H3 & H4).
  exists (token r); split.
  - unfold split; apply H4; exact H3.
  - rewrite first_token_spec, H1. destruct r; [congruence|reflexivity].
Qed.

(** Elements before the bound do not depend on the bound. *)
Lemma split_max_prefix n : forall s k t N,
  (k < n)%nat -> (k < N)%nat ->
  nth_error (split_max n s) k = Some t ->
  nth_error (split_max N s) k = Some t.
Proof.
  induction n as [|n IH]; intros s k t N Hk HN; [lia|].
  destruct N as [|N]; [lia|].
  destruct (lstrip s) as [|c s1] eqn:E.
  - rewrite !(split_max_nil _ _ E); auto.
  - rewrite !(split_max_S _ _ _ _ E).
    destruct k as [|k]; cbn [nth_error]; [auto|].
    apply IH; lia.
Qed.

(* ------------------------------------------------------------------ *)
(** ** Facts about dictionaries *)

Section DictFacts.
Context {K V : Type} `{EqKey K}.
Implicit Types (d : dict K V) (k : K) (v : V).

Lemma key_eqb_refl k : key_eqb k k = true.
Proof. destruct (key_eqb_spec k k); congruence. Qed.

Lemma key_eqb_neq k k' : k <> k' -> key_eqb k k' = false.
Proof. destruct (key_eqb_spec k k'); congruence. Qed.

Lemma dict_get_set_eq d k v : dict_get k (dict_set k v d) = Some v.
Proof.
  induction d as [|[k' v'] d IH]; simpl.
  - rewrite key_eqb_refl; reflexivity.
  - destruct (key_eqb_spec k k') as [->|Hn]; simpl.
    + rewrite key_eqb_refl; reflexivity.
    + rewrite key_eqb_neq by exact Hn. exact IH.
Qed.

Lemma dict_get_set_neq d k k' v :
  k <> k' -> dict_get k' (dict_set k v d) = dict_get k' d.
Proof.
  intros Hn; induction d as [|[k0 v0] d IH]; simpl.
  - rewrite key_eqb_neq by congruence; reflexivity.
  - destruct (key_eqb_spec k k0) as [->|Hn0]; simpl.
    + rewrite key_eqb_neq by congruence; reflexivity.
    + destruct (key_eqb k' k0); [reflexivity|exact IH].
Qed.

Lemma dict_get_set d k k' v :
  dict_get k' (dict_set k v d) = if key_eqb k' k then Some v else dict_get k' d.
Proof.
  destruct (key_eqb_spec k' k) as [->|Hn].
  - apply dict_get_set_eq.
  - apply dict_get_set_neq; congruence.
Qed.

Lemma dict_get_None_notin d k : dict_get k d = None <-> ~ In k (map fst d).
Proof.
  induction d as [|[k' v'] d IH]; simpl; [tauto|].
  destruct (key_eqb_spec k k') as [->|Hn].
  - split; [discriminate|]. intros Hc; exfalso; apply Hc; left; reflexivity.
  - rewrite IH. split; [intros Hc [He|Hi]; [congruence|tauto]|tauto].
Qed.

Lemma dict_get_In d k v : dict_get k d = Some v -> In (k, v) d.
Proof.
  induction d as [|[k' v'] d IH]; simpl; [discriminate|].
  destruct (key_eqb_spec k k') as [->|Hn].
  - intros Heq; injection Heq as ->; left; reflexivity.
  - intros Hg; right; exact (IH Hg).
Qed.

Lemma In_dict_get d k v :
  NoDup (map fst d) -> In (k, v) d -> dict_get k d = Some v.
Proof.
  induction d as [|[k' v'] d IH]; simpl; [tauto|].
  intros Hnd [Heq|Hin]; inversion Hnd as [|? ? Hni Hnd']; subst.
  - injection Heq as -> ->. rewrite key_eqb_refl; reflexivity.
  - destruct (key_eqb_spec k k') as [->|Hn]; [|exact (IH Hnd' Hin)].
    exfalso; apply Hni. apply (in_map fst) in Hin; exact Hin.
Qed.

(** Assigning to a new key puts the item at the end. *)
Lemma dict_set_new d k v :
  dict_get k d = None -> dict_set k v d = (d ++ [(k, v)])%list.
Proof.
  induction d as [|[k' v'] d IH]; simpl; [reflexivity|].
  destruct (key_eqb k k'); [discriminate|].
  intros Hg; rewrite (IH Hg); reflexivity.
Qed.

Lemma dict_set_keys_old d k v v0 :
  dict_get k d = Some v0 -> map fst (dict_set k v d) = map fst d.
Proof.
  induction d as [|[k' v'] d IH]; simpl; [discriminate|].
  destruct (key_eqb k k'); simpl; [reflexivity|].
  intros Hg; rewrite (IH Hg); reflexivity.
Qed.

Lemma dict_set_same d k v : dict_get k d = Some v -> dict_set k v d = d.
Proof.
  induction d as [|[k' v'] d IH]; simpl; [discriminate|].
  destruct (key_eqb k k').
  - intros Heq; injection Heq as ->; reflexivity.
  - intros Hg; rewrite (IH Hg); reflexivity.
Qed.

Lemma dict_set_NoDup d k v :
  NoDup (map fst d) -> NoDup (map fst (dict_set k v d)).
Proof.
  intros Hnd. destruct (dict_get k d) as [v0|] eqn:E.
  - rewrite (dict_set_keys_old _ _ v _ E); exact Hnd.
  - rewrite (dict_set_new _ _ v E), map_app; simpl.
    apply NoDup_app; [exact Hnd|repeat constructor; simpl; tauto|].
    intros x Hx [<-|[]]. apply dict_get_None_notin in E; tauto.
Qed.

Lemma dict_of_list_NoDup (l : list (K * V)) : NoDup (map fst (dict_of_list l)).
Proof.
  unfold dict_of_list.
  assert (Hg : forall d0 : dict K V, NoDup (map fst d0) ->
    NoDup (map fst (fold_left (fun d kv => dict_set (fst kv) (snd kv) d) l d0))).
  { induction l as [|[k v] l IH]; intros d0 Hd0; simpl; [exact Hd0|].
    apply IH, dict_set_NoDup, Hd0. }
  apply Hg; constructor.
Qed.

Lemma dict_in_true d k : dict_in k d = true <-> exists v, dict_get k d = Some v.
Proof.
  unfold dict_in; destruct (dict_get k d) as [v|].
  - split; [eauto|reflexivity].
  - split; [discriminate|intros [v Hv]; discriminate].
Qed.

Lemma dict_in_false d k : dict_in k d = false <-> dict_get k d = None.
Proof.
  unfold dict_in; destruct (dict_get k d); split; congruence.
Qed.
End DictFacts.

(* ================================================================== *)
(** * The registry while declarations are replayed *)
(* ================================================================== *)

Lemma bind_Ok {A B} (m : result A) (k : A -> result B) (b : B) :
  bind m k = Ok b -> exists a, m = Ok a /\ k a = Ok b.
Proof. destruct m as [a|e]; simpl; [eauto|discriminate]. Qed.

Lemma list_getitem_Ok {A} (l : list A) i a :
  list_getitem l i = Ok a <-> nth_error l i = Some a.
Proof.
  unfold list_getitem; destruct (nth_error l i); split; congruence.
Qed.

Lemma dict_getitem_Ok {K V} `{EqKey K} (d : dict K V) k v :
  dict_getitem k d = Ok v <-> dict_get k d = Some v.
Proof.
  unfold dict_getitem; destruct (dict_get k d); split; congruence.
Qed.

Lemma slice_1_4 {A} (l : list A) a b c :
  slice 1 4 l = [a; b; c] -> nth_error l 3 = Some c.
Proof.
  unfold slice; simpl.
  destruct l as [|x0 [|x1 [|x2 [|x3 l]]]]; simpl; try discriminate.
  intros Heq; injection Heq as _ _ ->; reflexivity.
Qed.

Lemma foldM_app {A S} (f : S -> A -> result S) l1 l2 s :
  foldM f (l1 ++ l2)%list s = (s' <- foldM f l1 s ;; foldM f l2 s').
Proof.
  revert s; induction l1 as [|a l1 IH]; intros s; simpl; [reflexivity|].
  destruct (f s a); simpl; [apply IH|reflexivity].
Qed.

Lemma decl_command_Ok req h h' :
  decl_command req h = Ok h' ->
  exists funcname flags msgname msg,
    slice 1 4 (split req) = [funcname; flags; msgname] /\
    nth_error (split_max 3 req) 3 = Some msg /\
    first_token msg = Some msgname /\
    dict_get msgname (commands h) = None /\
    (dict_get msgname (messages_by_name h) = None \/
     dict_get msgname (messages_by_name h) = Some msg) /\
    h' = declared_command h funcname flags msgname msg.
Proof.
  unfold decl_command.
  destruct (slice 1 4 (split req)) as [|f [|fl [|n [|? ?]]]] eqn:Es;
    try discriminate.
  destruct (dict_in n (commands h)) eqn:Ein; [discriminate|].
  intros Hb. apply bind_Ok in Hb as (msg & Hmsg & Hk).
  apply list_getitem_Ok in Hmsg.
  exists f, fl, n, msg.
  destruct (split_max_first_token _ _ _ Hmsg) as (t & Ht & Hft).
  rewrite (slice_1_4 _ _ _ _ Es) in Ht; injection Ht as <-.
  apply dict_in_false in Ein.
  cbv zeta in Hk.
  destruct (dict_get n (messages_by_name h)) as [m'|] eqn:Em.
  - destruct (String.eqb_spec m' msg) as [Heq|Hn]; simpl in Hk; [|discriminate].
    subst m'. injection Hk as <-. repeat split; auto.
  - injection Hk as <-. repeat split; auto.
Qed.

Lemma decl_encoder_Ok req h h' :
  decl_encoder req h = Ok h' ->
  exists msgname msg,
    nth_error (split_max 1 req) 1 = Some msg /\
    first_token msg = Some msgname /\
    (dict_get msgname (messages_by_name h) = None \/
     dict_get msgname (messages_by_name h) = Some msg) /\
    h' = declared_encoder h (Some msgname) msg.
Proof.
  unfold decl_encoder. intros Hb.
  apply bind_Ok in Hb as (msg & Hmsg & Hb).
  apply bind_Ok in Hb as (n & Hn & Hk).
  apply list_getitem_Ok in Hmsg. apply list_getitem_Ok in Hn.
  exists n, msg. cbv zeta in Hk.
  destruct (dict_get n (messages_by_name h)) as [m'|] eqn:Em.
  - destruct (String.eqb_spec m' msg) as [Heq|Hne]; simpl in Hk; [|discriminate].
    subst m'. injection Hk as <-. repeat split; auto.
  - injection Hk as <-. repeat split; auto.
Qed.

Lemma decl_output_Ok req h h' :
  decl_output req h = Ok h' ->
  exists msg, nth_error (split_max 1 req) 1 = Some msg /\
              h' = declared_encoder h None msg.
Proof.
  unfold decl_output. intros Hb.
  apply bind_Ok in Hb as (msg & Hmsg & Hk).
  apply list_getitem_Ok in Hmsg.
  exists msg; split; [exact Hmsg|]. injection Hk as <-; reflexivity.
Qed.

Lemma with_cmdgen_same H : with_cmdgen H (cmdgen H) = H.
Proof. destruct H; reflexivity. Qed.

Lemma handle_request_step H req H' :
  handle_request H req = Ok H' -> registry_step (cmdgen H) (cmdgen H').
Proof.
  unfold handle_request.
  destruct (String.eqb (lstrip req) "").
  { intros Heq; injection Heq as <-; constructor. }
  intros Hb. apply bind_Ok in Hb as (cmd & _ & Hk).
  unfold ctr_dispatch in Hk.
  repeat match type of Hk with
         | context [if ?b then _ else _] => destruct b
         end; try discriminate;
    try (apply bind_Ok in Hk as (h & Hh & Hk); injection Hk as <-; simpl).
  - constructor.
  - constructor.
  - constructor.
  - eapply step_command; exact Hh.
  - eapply step_encoder; exact Hh.
  - eapply step_output; exact Hh.
Qed.

Lemma registry_step_inv h h' :
  registry_step h h' -> registry_inv h -> registry_inv h'.
Proof.
  intros Hs Hi. destruct Hi as [I1 I2 I3 I4 I5 I6].
  destruct Hs as [|req h1 Hd|req h1 Hd|req h1 Hd].
  - constructor; assumption.
  - apply decl_command_Ok in Hd as (f & fl & n & msg & _ & _ & Hft & Hc & Hm & ->).
    constructor; simpl.
    + apply dict_set_NoDup, I1.
    + apply dict_set_NoDup, I2.
    + intros n' m'. rewrite dict_get_set.
      destruct (key_eqb_spec n' n) as [->|Hn]; [congruence|apply I3].
    + intros n' c. rewrite !dict_get_set.
      destruct (key_eqb_spec n' n) as [->|Hn].
      * intros Heq; injection Heq as <-. split; eauto.
      * apply I4.
    + intros n' m'. rewrite dict_get_set. unfold dict_in. rewrite dict_get_set.
      destruct (key_eqb_spec n' n) as [->|Hn]; [auto|].
      intros Hg. destruct (I5 _ _ Hg) as [H1|[H1|H1]]; auto.
    + intros n' m' Hin. rewrite dict_get_set.
      destruct (key_eqb_spec n' n) as [->|Hn]; [|apply I6, Hin].
      apply I6 in Hin. destruct Hm as [Hm|Hm]; congruence.
  - apply decl_encoder_Ok in Hd as (n & msg & _ & Hft & Hm & ->).
    constructor; simpl.
    + exact I1.
    + apply dict_set_NoDup, I2.
    + intros n' m'. rewrite dict_get_set.
      destruct (key_eqb_spec n' n) as [->|Hn]; [congruence|apply I3].
    + intros n' c Hc. destruct (I4 _ _ Hc) as [He [m Hg]]. split; [exact He|].
      rewrite dict_get_set.
      destruct (key_eqb_spec n' n) as [->|Hn]; eauto.
    + intros n' m'. rewrite dict_get_set.
      destruct (key_eqb_spec n' n) as [->|Hn].
      * intros Heq; injection Heq as <-. right; right.
        apply in_or_app; right; left; reflexivity.
      * intros Hg. destruct (I5 _ _ Hg) as [H1|[H1|H1]]; auto.
        right; right; apply in_or_app; left; exact H1.
    + intros n' m' Hin. rewrite dict_get_set.
      apply in_app_or in Hin as [Hin|[Heq|[]]].
      * apply I6 in Hin.
        destruct (key_eqb_spec n' n) as [->|Hn]; [|exact Hin].
        destruct Hm as [Hm|Hm]; congruence.
      * injection Heq as <- <-. rewrite key_eqb_refl; reflexivity.
  - apply decl_output_Ok in Hd as (msg & _ & ->).
    constructor; simpl; auto.
    + intros n m Hg. destruct (I5 _ _ Hg) as [H1|[H1|H1]]; auto.
      right; right; apply in_or_app; left; exact H1.
    + intros n m Hin. apply in_app_or in Hin as [Hin|[Heq|[]]]; [auto|].
      discriminate.
Qed.

Lemma registry_step_msg_to_id h h' :
  registry_step h h' -> msg_to_id h' = msg_to_id h.
Proof.
  intros [|req h1 Hd|req h1 Hd|req h1 Hd]; [reflexivity| | |].
  - apply decl_command_Ok in Hd as (f & fl & n & msg & _ & _ & _ & _ & _ & ->).
    reflexivity.
  - apply decl_encoder_Ok in Hd as (n & msg & _ & _ & _ & ->). reflexivity.
  - apply decl_output_Ok in Hd as (msg & _ & ->). reflexivity.
Qed.

Lemma registry_step_all_param_types h h' :
  registry_step h h' -> all_param_types h' = all_param_types h.
Proof.
  intros [|req h1 Hd|req h1 Hd|req h1 Hd]; [reflexivity| | |].
  - apply decl_command_Ok in Hd as (f & fl & n & msg & _ & _ & _ & _ & _ & ->).
    reflexivity.
  - apply decl_encoder_Ok in Hd as (n & msg & _ & _ & _ & ->). reflexivity.
  - apply decl_output_Ok in Hd as (msg & _ & ->). reflexivity.
Qed.

(* ------------------------------------------------------------------ *)
(** ** Walking a dictionary *)

Lemma dict_items_In {K V} `{HashOrder K} (d : dict K V) kv :
  In kv (dict_items d) <-> In kv d.
Proof.
  unfold dict_items; split; apply Permutation_in;
    [|apply Permutation_sym]; apply hash_order_perm.
Qed.

Lemma dict_keys_In {K V} `{HashOrder K} (d : dict K V) k :
  In k (dict_keys d) <-> In k (map fst d).
Proof.
  unfold dict_keys; rewrite !in_map_iff.
  split; intros (kv & Hk & Hin); exists kv; split; auto;
    apply dict_items_In; exact Hin.
Qed.

Lemma dict_values_In {K V} `{HashOrder K} (d : dict K V) v :
  In v (dict_values d) <-> In v (map snd d).
Proof.
  unfold dict_values; rewrite !in_map_iff.
  split; intros (kv & Hk & Hin); exists kv; split; auto;
    apply dict_items_In; exact Hin.
Qed.

Lemma dict_items_NoDup {K V} `{HashOrder K} (d : dict K V) :
  NoDup (map fst d) -> NoDup (map fst (dict_items d)).
Proof.
  intros Hnd. eapply Permutation_NoDup; [|exact Hnd].
  apply Permutation_map, Permutation_sym, hash_order_perm.
Qed.

Lemma dict_get_items {K V} `{EqKey K} `{HashOrder K} (d : dict K V) k :
  NoDup (map fst d) -> dict_get k (dict_items d) = dict_get k d.
Proof.
  intros Hnd. destruct (dict_get k d) as [v|] eqn:E.
  - apply In_dict_get; [apply dict_items_NoDup, Hnd|].
    apply dict_items_In, dict_get_In, E.
  - apply dict_get_None_notin. apply (proj1 (dict_get_None_notin _ _)) in E.
    intros Hin. apply E. apply in_map_iff in Hin as (kv & Hk & Hin).
    apply in_map_iff. exists kv. split; [exact Hk|].
    apply (proj1 (dict_items_In _ _)), Hin.
Qed.

Lemma dict_items_length {K V} `{HashOrder K} (d : dict K V) :
  List.length (dict_items d) = List.length d.
Proof. apply Permutation_length, hash_order_perm. Qed.

Lemma dict_of_list_In {K V} `{EqKey K} (l : list (K * V)) k v :
  dict_get k (dict_of_list l) = Some v -> In (k, v) l.
Proof.
  unfold dict_of_list.
  assert (Hg : forall d0 : dict K V,
    dict_get k (fold_left (fun d kv => dict_set (fst kv) (snd kv) d) l d0) = Some v ->
    In (k, v) l \/ dict_get k d0 = Some v).
  { induction l as [|[k1 v1] l IH]; intros d0; simpl; [auto|].
    intros Hg. apply IH in Hg as [Hin|Hg]; [auto|].
    rewrite dict_get_set in Hg.
    destruct (key_eqb_spec k k1) as [->|Hn]; [|auto].
    injection Hg as ->; auto. }
  intros Hg0. apply Hg in Hg0 as [Hin|Hg0]; [exact Hin|discriminate].
Qed.

Lemma dict_of_list_covers {K V} `{EqKey K} (l : list (K * V)) k :
  In k (map fst l) -> exists v, dict_get k (dict_of_list l) = Some v.
Proof.
  unfold dict_of_list.
  assert (Hg : forall d0 : dict K V,
    In k (map fst l) \/ (exists v, dict_get k d0 = Some v) ->
    exists v, dict_get k
      (fold_left (fun d kv => dict_set (fst kv) (snd kv) d) l d0) = Some v).
  { induction l as [|[k1 v1] l IH]; intros d0; simpl.
    - intros [[]|Hv]; exact Hv.
    - intros [[Heq|Hin]|[v Hv]]; apply IH; auto; right;
        rewrite dict_get_set.
      + subst k1. rewrite key_eqb_refl; eauto.
      + destruct (key_eqb k k1); eauto. }
  intros Hin; apply Hg; auto.
Qed.

(** max(l) is an element of l and bounds it. *)
Lemma fold_max_spec l : forall x,
  (x <= fold_left Z.max l x) /\
  (forall y, In y l -> y <= fold_left Z.max l x) /\
  (fold_left Z.max l x = x \/ In (fold_left Z.max l x) l).
Proof.
  induction l as [|a l IH]; intros x; simpl.
  - repeat split; [lia|tauto|auto].
  - destruct (IH (Z.max x a)) as (H1 & H2 & H3).
    repeat split.
    + lia.
    + intros y [<-|Hy]; [lia|auto].
    + destruct H3 as [H3|H3]; [|auto].
      rewrite H3. destruct (Z.max_spec x a) as [[_ ->]|[_ ->]]; auto.
Qed.

Lemma py_max_spec l M :
  py_max l = Ok M -> In M l /\ forall y, In y l -> y <= M.
Proof.
  destruct l as [|x l]; simpl; [discriminate|].
  intros Heq; injection Heq as <-.
  destruct (fold_max_spec l x) as (H1 & H2 & H3).
  split.
  - destruct H3 as [->|H3]; auto.
  - intros y [<-|Hy]; auto.
Qed.

Lemma py_max_nonempty l : l <> [] -> exists M, py_max l = Ok M.
Proof. destruct l; [congruence|simpl; eauto]. Qed.

(* ------------------------------------------------------------------ *)
(** ** The registry as __init__ leaves it *)

Lemma baseline_ids_sound m i :
  dict_get m baseline_ids = Some i ->
  dict_get i (dict_of_list DefaultMessages) = Some m.
Proof.
  intros Hg. apply dict_of_list_In in Hg.
  apply in_map_iff in Hg as ([i' m'] & Heq & Hin). injection Heq as -> ->.
  apply (proj1 (dict_items_In _ _)) in Hin.
  apply In_dict_get; [apply dict_of_list_NoDup|exact Hin].
Qed.

Lemma baseline_ids_inv : ids_inv baseline_ids.
Proof.
  split; [apply dict_of_list_NoDup|].
  intros m1 m2 i H1 H2. apply baseline_ids_sound in H1, H2. congruence.
Qed.

(** The format of every baseline message is a key of the baseline mapping,
    under an identifier that the baseline gives to it. *)
Lemma baseline_ids_complete i m :
  dict_get i (dict_of_list DefaultMessages) = Some m ->
  exists j, dict_get m baseline_ids = Some j /\
            dict_get j (dict_of_list DefaultMessages) = Some m.
Proof.
  intros Hg.
  destruct (dict_of_list_covers
              (map (fun '(i, m) => (m, i))
                   (dict_items (dict_of_list DefaultMessages))) m) as [j Hj].
  { apply in_map_iff. exists (m, i); split; [reflexivity|].
    apply in_map_iff. exists (i, m); split; [reflexivity|].
    apply dict_items_In, dict_get_In, Hg. }
  exists j; split; [exact Hj|]. apply baseline_ids_sound; exact Hj.
Qed.

Lemma dict_get_app {K V} `{EqKey K} (d1 d2 : dict K V) k :
  dict_get k (d1 ++ d2)%list =
  match dict_get k d1 with
  | Some v => Some v
  | None => dict_get k d2
  end.
Proof.
  induction d1 as [|[k' v'] d1 IH]; simpl; [reflexivity|].
  destruct (key_eqb k k'); [reflexivity|exact IH].
Qed.

Lemma init_names_fold (L : list string) : forall l d d',
  foldM (fun d m => n <- list_getitem (split m) 0 ;; Ok (dict_set n m d)) l d
    = Ok d' ->
  (forall m, In m l -> In m L) ->
  NoDup (map fst d) ->
  (forall n m, dict_get n d = Some m -> first_token m = Some n /\ In m L) ->
  NoDup (map fst d') /\
  (forall n m, dict_get n d' = Some m -> first_token m = Some n /\ In m L).
Proof.
  induction l as [|m0 l IH]; intros d d' Hf HL Hnd Hd; simpl in Hf.
  - injection Hf as <-; auto.
  - apply bind_Ok in Hf as (d1 & H1 & Hf).
    apply bind_Ok in H1 as (n0 & Hn0 & H1). injection H1 as <-.
    apply list_getitem_Ok in Hn0.
    apply (IH _ _ Hf).
    + intros m Hm; apply HL; right; exact Hm.
    + apply dict_set_NoDup, Hnd.
    + intros n m. rewrite dict_get_set.
      destruct (key_eqb_spec n n0) as [->|Hn]; [|apply Hd].
      intros Heq; injection Heq as <-. split; [exact Hn0|].
      apply HL; left; reflexivity.
Qed.

Lemma init_spec h0 :
  HandleCommandGeneration_init = Ok h0 ->
  registry_inv h0 /\ msg_to_id h0 = baseline_ids /\
  commands h0 = [] /\ encoders h0 = [] /\ all_param_types h0 = [].
Proof.
  unfold HandleCommandGeneration_init. fold baseline_ids.
  intros Hb. apply bind_Ok in Hb as (mbn & Hm & Hb). injection Hb as <-.
  apply (init_names_fold (dict_keys baseline_ids)) in Hm as [Hnd Hn];
    [|auto|constructor|simpl; discriminate].
  split; [|repeat split; reflexivity].
  constructor; simpl.
  - constructor.
  - exact Hnd.
  - intros n m Hg; apply Hn, Hg.
  - discriminate.
  - intros n m Hg. left. apply Hn in Hg as [_ Hin].
    apply (proj1 (dict_keys_In _ _)) in Hin. apply dict_in_true.
    destruct (dict_get m baseline_ids) as [i|] eqn:E; [eauto|].
    apply (proj1 (dict_get_None_notin _ _)) in E; tauto.
  - tauto.
Qed.

Lemma foldM_steps reqs : forall H H',
  foldM handle_request reqs H = Ok H' ->
  clos_refl_trans_1n _ registry_step (cmdgen H) (cmdgen H').
Proof.
  induction reqs as [|r reqs IH]; intros H H' Hf; simpl in Hf.
  - injection Hf as <-; constructor.
  - apply bind_Ok in Hf as (H1 & Hr & Hf).
    econstructor; [eapply handle_request_step; exact Hr|apply IH, Hf].
Qed.

Lemma steps_inv h h' :
  clos_refl_trans_1n _ registry_step h h' ->
  registry_inv h -> registry_inv h' /\ msg_to_id h' = msg_to_id h /\
                    all_param_types h' = all_param_types h.
Proof.
  induction 1 as [|h h1 h2 Hs _ IH]; [auto|].
  intros Hi. destruct (IH (registry_step_inv _ _ Hs Hi)) as (H1 & H2 & H3).
  rewrite H2, H3, (registry_step_msg_to_id _ _ Hs),
    (registry_step_all_param_types _ _ Hs). auto.
Qed.

Lemma replayed_inv reqs H :
  replayed reqs H ->
  registry_inv (cmdgen H) /\ msg_to_id (cmdgen H) = baseline_ids /\
  all_param_types (cmdgen H) = [].
Proof.
  intros (H0 & Hi & Hf). unfold Handlers in Hi.
  apply bind_Ok in Hi as (h0 & Hh0 & Hi). injection Hi as <-.
  apply init_spec in Hh0 as (I & Hm & _ & _ & Ha).
  apply foldM_steps in Hf. simpl in Hf.
  destruct (steps_inv _ _ Hf I) as (H1 & H2 & H3).
  rewrite H2, H3. auto.
Qed.

(* ================================================================== *)
(** * Identifier assignment *)
(* ================================================================== *)

Lemma ids_from_S c n : ids_from c (S n) = (c + 1) :: ids_from (c + 1) n.
Proof.
  unfold ids_from. cbn [seq map]. f_equal; [lia|].
  rewrite <- seq_shift, map_map. apply map_ext. intros j; lia.
Qed.

Lemma assign_id_eq mbn c d n :
  assign_id mbn (c, d) n =
  if dict_in (resolve mbn n) d then (c, d)
  else (c + 1, dict_set (resolve mbn n) (c + 1) d).
Proof.
  unfold assign_id, resolve.
  destruct (dict_in _ d); reflexivity.
Qed.

Lemma assign_fold mbn names : forall c d c' d',
  fold_left (assign_id mbn) names (c, d) = (c', d') ->
  exists news,
    d' = (d ++ news)%list /\
    c' = c + Z.of_nat (List.length news) /\
    map snd news = ids_from c (List.length news) /\
    NoDup (map fst news) /\
    (forall k, In k (map fst news) ->
       dict_get k d = None /\ exists n, In n names /\ resolve mbn n = k) /\
    (forall n, In n names -> dict_in (resolve mbn n) d' = true) /\
    (forall k, dict_in k d = true -> dict_in k d' = true).
Proof.
  induction names as [|n names IH]; intros c d c' d' Hf; cbn [fold_left] in Hf.
  - injection Hf as <- <-. exists []. rewrite app_nil_r. simpl.
    split; [reflexivity|]. split; [lia|]. split; [reflexivity|].
    split; [constructor|]. split; [tauto|]. split; [tauto|auto].
  - rewrite assign_id_eq in Hf.
    destruct (dict_in (resolve mbn n) d) eqn:Ein.
    + destruct (IH _ _ _ _ Hf) as (news & -> & -> & Hs & Hnd & Hk & Hn & Hm).
      exists news.
      split; [reflexivity|]. split; [reflexivity|]. split; [exact Hs|].
      split; [exact Hnd|]. split; [|split; [|exact Hm]].
      * intros k Hin. destruct (Hk _ Hin) as [Hg (n' & Hn' & Hr)].
        split; [exact Hg|]. exists n'; split; [right; exact Hn'|exact Hr].
      * intros n' [<-|Hin]; [apply Hm, Ein|apply Hn, Hin].
    + apply dict_in_false in Ein.
      rewrite (dict_set_new _ _ (c + 1) Ein) in Hf.
      destruct (IH _ _ _ _ Hf) as (news & -> & -> & Hs & Hnd & Hk & Hn & Hm).
      assert (Hin0 : dict_in (resolve mbn n) (d ++ [(resolve mbn n, c + 1)])%list
                     = true).
      { apply dict_in_true. exists (c + 1). rewrite dict_get_app, Ein.
        simpl. rewrite String.eqb_refl. reflexivity. }
      exists ((resolve mbn n, c + 1) :: news).
      rewrite <- app_assoc. cbn [app List.length map fst snd].
      split; [reflexivity|]. split; [rewrite Nat2Z.inj_succ; lia|].
      split; [rewrite ids_from_S, Hs; reflexivity|].
      split; [|split; [|split]].
      * constructor; [|exact Hnd].
        intros Hin. apply Hk in Hin as [Hg _].
        apply dict_in_true in Hin0 as [v Hv]. congruence.
      * intros k [<-|Hin].
        -- split; [exact Ein|]. exists n; split; [left|]; reflexivity.
        -- apply Hk in Hin as [Hg (n' & Hn' & Hr)]. split.
           ++ rewrite dict_get_app in Hg.
              destruct (dict_get k d); [discriminate|reflexivity].
           ++ exists n'; split; [right; exact Hn'|exact Hr].
      * intros n' [<-|Hin].
        -- change (d ++ (resolve mbn n, c + 1) :: news)%list
             with (d ++ [(resolve mbn n, c + 1)] ++ news)%list.
           rewrite app_assoc. apply Hm, Hin0.
        -- change (d ++ (resolve mbn n, c + 1) :: news)%list
             with (d ++ [(resolve mbn n, c + 1)] ++ news)%list.
           rewrite app_assoc. apply Hn, Hin.
      * intros k Hk0.
        change (d ++ (resolve mbn n, c + 1) :: news)%list
          with (d ++ [(resolve mbn n, c + 1)] ++ news)%list.
        rewrite app_assoc. apply Hm.
        apply dict_in_true in Hk0 as [v Hv]. apply dict_in_true; exists v.
        rewrite dict_get_app, Hv; reflexivity.
Qed.

Lemma create_message_ids_spec h M :
  py_max (dict_values (msg_to_id h)) = Ok M ->
  exists news,
    create_message_ids h = Ok (with_msg_to_id h (msg_to_id h ++ news)%list) /\
    map snd news = ids_from M (List.length news) /\
    NoDup (map fst news) /\
    (forall k, In k (map fst news) ->
       dict_get k (msg_to_id h) = None /\
       exists n, In n (referenced h) /\ resolve (messages_by_name h) n = k) /\
    (forall n, In n (referenced h) ->
       dict_in (resolve (messages_by_name h) n) (msg_to_id h ++ news)%list = true).
Proof.
  intros HM. unfold create_message_ids. rewrite HM. cbn [bind].
  fold (referenced h).
  destruct (fold_left (assign_id (messages_by_name h)) (referenced h)
                      (M, msg_to_id h)) as [c' d'] eqn:Ef.
  destruct (assign_fold _ _ _ _ _ _ Ef) as (news & -> & _ & Hs & Hnd & Hk & Hn & _).
  exists news. repeat split; auto; apply Hk; assumption.
Qed.

Lemma nth_error_ids_from c n j :
  (j < n)%nat -> nth_error (ids_from c n) j = Some (c + 1 + Z.of_nat j).
Proof.
  intros Hj. unfold ids_from.
  rewrite nth_error_map, nth_error_seq.
  destruct (Nat.ltb_spec j n); [reflexivity|lia].
Qed.

Lemma length_ids_from c n : List.length (ids_from c n) = n.
Proof. unfold ids_from. rewrite length_map, length_seq. reflexivity. Qed.

Lemma In_ids_from c n i : In i (ids_from c n) -> c < i.
Proof.
  unfold ids_from. intros Hin. apply in_map_iff in Hin as (j & <- & _). lia.
Qed.

Lemma NoDup_ids_from c n : NoDup (ids_from c n).
Proof.
  unfold ids_from. apply Finite.Injective_map_NoDup; [|apply seq_NoDup].
  intros a b; lia.
Qed.

Lemma In_snd_NoDup_inj {A B} (l : list (A * B)) a1 a2 b :
  NoDup (map snd l) -> In (a1, b) l -> In (a2, b) l -> a1 = a2.
Proof.
  induction l as [|[a b'] l IH]; simpl; [tauto|].
  intros Hnd. inversion Hnd as [|? ? Hni Hnd']; subst.
  intros [H1|H1] [H2|H2].
  - congruence.
  - injection H1 as -> ->. exfalso; apply Hni.
    apply in_map_iff; exists (a2, b); auto.
  - injection H2 as -> ->. exfalso; apply Hni.
    apply in_map_iff; exists (a1, b); auto.
  - auto.
Qed.

(** Appending fresh formats under fresh, larger identifiers keeps formats
    and identifiers in one-to-one correspondence. *)
Lemma ids_inv_extend d news M :
  ids_inv d ->
  (forall k v, dict_get k d = Some v -> v <= M) ->
  map snd news = ids_from M (List.length news) ->
  NoDup (map fst news) ->
  (forall k, In k (map fst news) -> dict_get k d = None) ->
  ids_inv (d ++ news)%list.
Proof.
  intros [Hnd Hinj] Hle Hs Hndn Hnew. split.
  - rewrite map_app. apply NoDup_app; auto.
    intros k Hk Hk'. apply Hnew in Hk'.
    apply (proj1 (dict_get_None_notin _ _)) in Hk'. tauto.
  - assert (Hnews : forall k v, dict_get k news = Some v -> M < v).
    { intros k v Hg. apply dict_get_In in Hg.
      apply (In_ids_from M (List.length news)). rewrite <- Hs.
      apply in_map_iff; exists (k, v); auto. }
    intros m1 m2 i. rewrite !dict_get_app.
    destruct (dict_get m1 d) as [v1|] eqn:E1;
      destruct (dict_get m2 d) as [v2|] eqn:E2; intros H1 H2.
    + injection H1 as ->; injection H2 as ->. eapply Hinj; eauto.
    + injection H1 as ->. apply Hle in E1. apply Hnews in H2. lia.
    + injection H2 as ->. apply Hle in E2. apply Hnews in H1. lia.
    + apply dict_get_In in H1, H2.
      eapply In_snd_NoDup_inj; eauto. rewrite Hs. apply NoDup_ids_from.
Qed.

Lemma py_max_bounds (d : dict string Z) M :
  py_max (dict_values d) = Ok M ->
  forall k v, dict_get k d = Some v -> v <= M.
Proof.
  intros HM k v Hg. apply py_max_spec in HM as [_ Hle]. apply Hle.
  apply dict_values_In, in_map_iff. exists (k, v); split; [reflexivity|].
  apply dict_get_In, Hg.
Qed.

(** ** C5 *)

(** C5. create_message_ids, run on the registry that a replay of requests
    leaves, with M the largest identifier present: it returns; the mapping
    it leaves is the old one followed by the new entries [news]; the formats
    of [news] are exactly the formats of the referenced messages that had no
    identifier; their identifiers are M+1, M+2, ... in the order of
    allocation, so each is larger than every identifier present before and
    they increase strictly; and in the resulting mapping no identifier
    belongs to two formats. *)
Theorem create_message_ids_allocates_fresh_increasing :
  forall reqs H M,
    replayed reqs H ->
    py_max (dict_values (msg_to_id (cmdgen H))) = Ok M ->
    exists h' news,
      create_message_ids (cmdgen H) = Ok h' /\
      msg_to_id h' = (msg_to_id (cmdgen H) ++ news)%list /\
      (forall msg, In msg (map fst news) <->
         dict_get msg (msg_to_id (cmdgen H)) = None /\
         exists n, In n (referenced (cmdgen H)) /\
                   resolve (messages_by_name (cmdgen H)) n = msg) /\
      map snd news = ids_from M (List.length news) /\
      (forall msg i, In (msg, i) news ->
         forall msg0 i0, dict_get msg0 (msg_to_id (cmdgen H)) = Some i0 -> i0 < i) /\
      (forall j k x y, nth_error (map snd news) j = Some x ->
         nth_error (map snd news) k = Some y -> (j < k)%nat -> x < y) /\
      (forall m1 m2 i, dict_get m1 (msg_to_id h') = Some i ->
         dict_get m2 (msg_to_id h') = Some i -> m1 = m2).
Proof.
  intros reqs H M Hr HM.
  destruct (replayed_inv _ _ Hr) as (Hinv & Hb & _).
  destruct (create_message_ids_spec _ _ HM) as (news & Hc & Hs & Hnd & Hk & Hn).
  exists (with_msg_to_id (cmdgen H) (msg_to_id (cmdgen H) ++ news)%list), news.
  cbn [msg_to_id with_msg_to_id].
  split; [exact Hc|]. split; [reflexivity|].
  split; [|split; [exact Hs|split; [|split]]].
  - intros msg; split; [apply Hk|].
    intros [Hg (n & Hin & Hres)]. apply Hn in Hin. rewrite Hres in Hin.
    apply dict_in_true in Hin as [v Hv]. rewrite dict_get_app, Hg in Hv.
    apply dict_get_In in Hv. apply in_map_iff; exists (msg, v); auto.
  - intros msg i Hin msg0 i0 Hg0.
    apply (py_max_bounds _ _ HM) in Hg0.
    assert (M < i); [|lia].
    apply (In_ids_from M (List.length news)). rewrite <- Hs.
    apply in_map_iff; exists (msg, i); auto.
  - intros j k x y Hj Hk' Hlt. rewrite Hs in Hj, Hk'.
    assert (Hkn : (k < List.length news)%nat).
    { assert (Hne : nth_error (ids_from M (List.length news)) k <> None)
        by congruence.
      apply nth_error_Some in Hne. rewrite length_ids_from in Hne. exact Hne. }
    rewrite nth_error_ids_from in Hj, Hk' by lia.
    injection Hj as <-; injection Hk' as <-. lia.
  - apply ids_inv_extend with (M := M); auto.
    + rewrite Hb; apply baseline_ids_inv.
    + apply py_max_bounds, HM.
    + intros k Hin; apply Hk, Hin.
Qed.

(* ================================================================== *)
(** * The data dictionary *)
(* ================================================================== *)

Lemma mapM_total {A B} (f : A -> result B) (l : list A) :
  (forall a, In a l -> exists b, f a = Ok b) ->
  exists bs, mapM f l = Ok bs /\
             forall b, In b bs <-> exists a, In a l /\ f a = Ok b.
Proof.
  induction l as [|a l IH]; intros Hall; simpl.
  - exists []; split; [reflexivity|]. simpl. split; [tauto|].
    intros (a & [] & _).
  - destruct (Hall a (or_introl eq_refl)) as [b Hb].
    destruct IH as (bs & Hbs & Hin); [intros; apply Hall; right; assumption|].
    rewrite Hb, Hbs; simpl. exists (b :: bs); split; [reflexivity|].
    intros b'; simpl; rewrite Hin. split.
    + intros [<-|(a' & Ha' & Hf)]; [exists a; auto|exists a'; auto].
    + intros (a' & [<-|Ha'] & Hf); [left; congruence|right; exists a'; auto].
Qed.

Lemma insert_sorted_In {A} (leb : A -> A -> bool) x l y :
  In y (insert_sorted leb x l) <-> y = x \/ In y l.
Proof.
  induction l as [|z l IH]; simpl; [intuition congruence|].
  destruct (leb x z); simpl; [intuition congruence|].
  rewrite IH; intuition congruence.
Qed.

Lemma sorted_In {A} (leb : A -> A -> bool) l y :
  In y (sorted leb l) <-> In y l.
Proof.
  induction l as [|x l IH]; simpl; [tauto|].
  rewrite insert_sorted_In, IH; intuition congruence.
Qed.

(** An encoder's format is not the name of some other message. *)
Lemma resolve_format h n m :
  registry_inv h ->
  dict_get n (messages_by_name h) = Some m ->
  resolve (messages_by_name h) m = m.
Proof.
  intros Hi Hg. unfold resolve.
  destruct (dict_get m (messages_by_name h)) as [m'|] eqn:E; [|reflexivity].
  pose proof (inv_names _ Hi _ _ E) as Hm'.
  pose proof (inv_names _ Hi _ _ Hg) as Hm.
  apply first_token_is_token, is_token_first_token in Hm'.
  congruence.
Qed.

(** After assignment every registered format has an identifier. *)
Lemma assigned_covers h h' :
  registry_inv h -> create_message_ids h = Ok h' ->
  forall n m, dict_get n (messages_by_name h) = Some m ->
              dict_in m (msg_to_id h') = true.
Proof.
  intros Hi Hc n m Hg.
  unfold create_message_ids in Hc.
  apply bind_Ok in Hc as (M & HM & Hc).
  destruct (create_message_ids_spec _ _ HM) as (news & Hc' & _ & _ & _ & Hn).
  unfold create_message_ids in Hc'. rewrite HM in Hc'. cbn [bind] in Hc'.
  rewrite Hc' in Hc. injection Hc as <-. cbn [msg_to_id with_msg_to_id].
  destruct (inv_covered _ Hi _ _ Hg) as [Hb|[Hcmd|Henc]].
  - apply dict_in_true in Hb as [v Hv]. apply dict_in_true; exists v.
    rewrite dict_get_app, Hv; reflexivity.
  - assert (Hin : In n (referenced h)).
    { apply in_or_app; left. apply dict_keys_In.
      apply dict_in_true in Hcmd as [c Hcg]. apply dict_get_In in Hcg.
      apply in_map_iff; exists (n, c); auto. }
    apply Hn in Hin. unfold resolve in Hin. rewrite Hg in Hin. exact Hin.
  - assert (Hin : In m (referenced h)).
    { apply in_or_app; right. apply in_map_iff; exists (Some n, m); auto. }
    apply Hn in Hin. rewrite (resolve_format _ _ _ Hi Hg) in Hin. exact Hin.
Qed.

Lemma create_message_ids_frame h h' :
  create_message_ids h = Ok h' ->
  commands h' = commands h /\ encoders h' = encoders h /\
  messages_by_name h' = messages_by_name h /\
  all_param_types h' = all_param_types h.
Proof.
  unfold create_message_ids. intros Hc.
  apply bind_Ok in Hc as (M & _ & Hc).
  destruct (fold_left _ _ _) as [c d]. injection Hc as <-. auto.
Qed.

Lemma ids_where_spec cond h :
  (forall n m, dict_get n (messages_by_name h) = Some m ->
               dict_in m (msg_to_id h) = true) ->
  NoDup (map fst (messages_by_name h)) ->
  exists l, ids_where cond h = Ok l /\
    forall i, In i l <->
      exists n m, dict_get n (messages_by_name h) = Some m /\
                  cond (dict_in n (commands h)) = true /\
                  dict_get m (msg_to_id h) = Some i.
Proof.
  intros Hcov Hnd. unfold ids_where.
  match goal with |- context [mapM ?f ?l] =>
    destruct (mapM_total f l) as (bs & Hbs & Hin) end.
  - intros [n m] Hin. apply filter_In in Hin as [Hin _].
    apply (proj1 (dict_items_In _ _)) in Hin.
    apply (In_dict_get _ _ _ Hnd), Hcov, dict_in_true in Hin as [v Hv].
    exists v. unfold dict_getitem; rewrite Hv; reflexivity.
  - exists bs; split; [exact Hbs|]. intros i. rewrite Hin. split.
    + intros ([n m] & Hf & Hg). apply filter_In in Hf as [Hi Hc].
      apply (proj1 (dict_items_In _ _)) in Hi.
      exists n, m. repeat split; auto.
      * apply In_dict_get; assumption.
      * apply dict_getitem_Ok, Hg.
    + intros (n & m & Hg & Hc & Hi). exists (n, m). split.
      * apply filter_In; split; [|exact Hc].
        apply dict_items_In, dict_get_In, Hg.
      * apply dict_getitem_Ok, Hi.
Qed.

(** Turning the mapping round: messages[i] is the format with identifier i. *)
Lemma messages_dict_spec h i m :
  ids_inv (msg_to_id h) ->
  (dict_get i (messages_dict h) = Some m <-> dict_get m (msg_to_id h) = Some i).
Proof.
  intros [Hnd Hinj]. unfold messages_dict.
  assert (Hfwd : forall i m,
    dict_get i (dict_of_list (map (fun '(msg, i) => (i, msg))
                                  (dict_items (msg_to_id h)))) = Some m ->
    dict_get m (msg_to_id h) = Some i).
  { intros i0 m0 Hg. apply dict_of_list_In in Hg.
    apply in_map_iff in Hg as ([m' i'] & Heq & Hin). injection Heq as -> ->.
    apply (proj1 (dict_items_In _ _)) in Hin. apply In_dict_get; assumption. }
  split; [apply Hfwd|].
  intros Hg.
  destruct (dict_of_list_covers
              (map (fun '(msg, i) => (i, msg)) (dict_items (msg_to_id h))) i)
    as [m' Hm'].
  { apply in_map_iff. exists (i, m); split; [reflexivity|].
    apply in_map_iff. exists (m, i); split; [reflexivity|].
    apply dict_items_In, dict_get_In, Hg. }
  rewrite Hm'. f_equal. apply Hfwd in Hm'. eapply Hinj; eauto.
Qed.

Lemma dict_get_map_values {K V W} `{EqKey K} (f : V -> W) (d : dict K V) k :
  dict_get k (map (fun '(k, v) => (k, f v)) d) = option_map f (dict_get k d).
Proof.
  induction d as [|[k' v'] d IH]; simpl; [reflexivity|].
  destruct (key_eqb k k'); [reflexivity|exact IH].
Qed.

(** What update_data_dictionary of the command handler returns. *)
Lemma cmdgen_update_spec h data M :
  registry_inv h -> ids_inv (msg_to_id h) ->
  py_max (dict_values (msg_to_id h)) = Ok M ->
  exists news cmds resps,
    let h' := with_msg_to_id h (msg_to_id h ++ news)%list in
    create_message_ids h = Ok h' /\
    (forall k, In k (map fst news) ->
       dict_get k (msg_to_id h) = None /\
       exists n, In n (referenced h) /\ resolve (messages_by_name h) n = k) /\
    ids_inv (msg_to_id h') /\
    cmdgen_update_data_dictionary h data =
      Ok (h', dict_set "responses" (PList (map PInt (sorted Z.leb resps)))
              (dict_set "commands" (PList (map PInt (sorted Z.leb cmds)))
              (dict_set "messages"
                 (PDictI (map (fun '(i, m) => (i, PStr m))
                              (dict_items (messages_dict h'))))
                 data))) /\
    (forall i, In i cmds <->
       exists n m, dict_get n (messages_by_name h) = Some m /\
                   dict_in n (commands h) = true /\
                   dict_get m (msg_to_id h') = Some i) /\
    (forall i, In i resps <->
       exists n m, dict_get n (messages_by_name h) = Some m /\
                   dict_in n (commands h) = false /\
                   dict_get m (msg_to_id h') = Some i).
Proof.
  intros Hi Hids HM.
  destruct (create_message_ids_spec _ _ HM) as (news & Hc & Hs & Hnd & Hk & Hn).
  exists news.
  set (h' := with_msg_to_id h (msg_to_id h ++ news)%list) in *.
  assert (Hcov : forall n m, dict_get n (messages_by_name h') = Some m ->
                             dict_in m (msg_to_id h') = true).
  { apply (assigned_covers _ _ Hi Hc). }
  assert (Hnd' : NoDup (map fst (messages_by_name h'))).
  { apply (inv_mbn_nodup _ Hi). }
  destruct (ids_where_spec (fun b => b) h' Hcov Hnd') as (cmds & Hcm & Hcin).
  destruct (ids_where_spec negb h' Hcov Hnd') as (resps & Hrs & Hrin).
  exists cmds, resps. cbv zeta.
  split; [exact Hc|]. split; [exact Hk|]. split.
  { apply ids_inv_extend with (M := M); auto.
    - apply py_max_bounds, HM.
    - intros k Hin; apply Hk, Hin. }
  split.
  { unfold cmdgen_update_data_dictionary. rewrite Hc. cbn [bind].
    rewrite Hcm. cbn [bind]. rewrite Hrs. reflexivity. }
  split.
  - exact Hcin.
  - intros i. rewrite Hrin. cbn [messages_by_name commands with_msg_to_id h'].
    split; intros (n & m & H1 & H2 & H3); exists n, m; repeat split; auto.
    + apply negb_true_iff, H2.
    + apply negb_true_iff, H2.
Qed.

Lemma update_all_eq H data :
  update_all H data =
  ('(h, data') <- cmdgen_update_data_dictionary (cmdgen H)
     (constants_update_data_dictionary (consts H)
       (staticstr_update_data_dictionary (staticstr H)
         (calllist_update_data_dictionary (calllist H) data))) ;;
   Ok (with_cmdgen H h, data')).
Proof. reflexivity. Qed.

Lemma dict_values_nonempty (d : dict string Z) k v :
  dict_get k d = Some v -> exists M, py_max (dict_values d) = Ok M.
Proof.
  intros Hg. apply py_max_nonempty. intros He.
  assert (Hin : In v (dict_values d)).
  { apply dict_values_In, in_map_iff. exists (k, v); split; [reflexivity|].
    apply dict_get_In, Hg. }
  rewrite He in Hin; exact Hin.
Qed.

(** ** C1 *)

(** C1. Whatever requests are replayed, in whatever order and however many
    new messages they declare: for a message that the baseline set holds
    under identifier i (and under no other identifier), identifier
    assignment and the construction of the data dictionary go through, the
    format of the message is mapped to i afterwards, and the entry i of
    'messages' in the data dictionary is that format, so no newly allocated
    identifier has taken the place of a baseline one. *)
Theorem baseline_identifiers_are_kept :
  forall reqs H i m,
    replayed reqs H ->
    dict_get i (dict_of_list DefaultMessages) = Some m ->
    (forall k, dict_get k (dict_of_list DefaultMessages) = Some m -> k = i) ->
    exists H' doc msgs,
      update_all H [] = Ok (H', doc) /\
      dict_get m (msg_to_id (cmdgen H')) = Some i /\
      dict_get "messages" doc = Some (PDictI msgs) /\
      dict_get i msgs = Some (PStr m).
Proof.
  intros reqs H i m Hr Hd Huniq.
  destruct (replayed_inv _ _ Hr) as (Hinv & Hb & _).
  destruct (baseline_ids_complete _ _ Hd) as (j & Hj & Hdj).
  apply Huniq in Hdj; subst j. rewrite <- Hb in Hj.
  destruct (dict_values_nonempty _ _ _ Hj) as [M HM].
  assert (Hids : ids_inv (msg_to_id (cmdgen H)))
    by (rewrite Hb; apply baseline_ids_inv).
  destruct (cmdgen_update_spec _
              (constants_update_data_dictionary (consts H)
                 (staticstr_update_data_dictionary (staticstr H)
                    (calllist_update_data_dictionary (calllist H) [])))
              _ Hinv Hids HM)
    as (news & cmds & resps & Hc & _ & Hids' & Hu & _ & _).
  rewrite update_all_eq, Hu. cbn [bind].
  assert (Hkeep : dict_get m (msg_to_id (cmdgen H) ++ news)%list = Some i)
    by (rewrite dict_get_app, Hj; reflexivity).
  eexists _, _, _. split; [reflexivity|].
  cbn [cmdgen with_cmdgen msg_to_id with_msg_to_id]. split; [exact Hkeep|].
  split.
  - rewrite !dict_get_set_neq by discriminate. apply dict_get_set_eq.
  - rewrite dict_get_map_values, dict_get_items
      by (unfold messages_dict; apply dict_of_list_NoDup).
    rewrite (proj2 (messages_dict_spec _ i m Hids') Hkeep).
    reflexivity.
Qed.

Lemma baseline_nonempty_max :
  DefaultMessages <> [] -> exists M, py_max (dict_values baseline_ids) = Ok M.
Proof.
  destruct DefaultMessages as [|[i m] l] eqn:E; [congruence|]. intros _.
  destruct (dict_of_list_covers DefaultMessages i) as [m' Hm'].
  { rewrite E; left; reflexivity. }
  destruct (baseline_ids_complete _ _ Hm') as (j & Hj & _).
  eapply dict_values_nonempty; exact Hj.
Qed.

(** ** C4 *)

(** C4, as the code has it.  After a replay of requests, with a baseline
    that is not empty, the data dictionary is built; its 'commands' and
    'responses' lists have no identifier in common; every identifier in
    either list is a key of 'messages'; the identifier of a format in
    'messages' is in 'commands' exactly when the format is registered under
    a message name that is a command, and in 'responses' exactly when it is
    registered under a name that is not; an identifier in neither list
    belongs to a format declared by decl_output, or to a baseline format. *)
Theorem commands_responses_partition_named_messages :
  forall reqs H,
    replayed reqs H ->
    DefaultMessages <> [] ->
    exists H' doc msgs cmds resps,
      update_all H [] = Ok (H', doc) /\
      dict_get "messages" doc
        = Some (PDictI (map (fun '(i, m) => (i, PStr m)) msgs)) /\
      dict_get "commands" doc = Some (PList (map PInt cmds)) /\
      dict_get "responses" doc = Some (PList (map PInt resps)) /\
      (forall i, ~ (In i cmds /\ In i resps)) /\
      (forall i, In i cmds \/ In i resps -> dict_in i msgs = true) /\
      (forall i m, dict_get i msgs = Some m ->
         (In i cmds <->
            exists n, dict_get n (messages_by_name (cmdgen H)) = Some m /\
                      dict_in n (commands (cmdgen H)) = true) /\
         (In i resps <->
            exists n, dict_get n (messages_by_name (cmdgen H)) = Some m /\
                      dict_in n (commands (cmdgen H)) = false) /\
         (~ In i cmds -> ~ In i resps ->
            In (None, m) (encoders (cmdgen H)) \/
            dict_in m baseline_ids = true)).
Proof.
  intros reqs H Hr Hne.
  destruct (replayed_inv _ _ Hr) as (Hinv & Hb & _).
  destruct (baseline_nonempty_max Hne) as [M HM]. rewrite <- Hb in HM.
  assert (Hids : ids_inv (msg_to_id (cmdgen H)))
    by (rewrite Hb; apply baseline_ids_inv).
  destruct (cmdgen_update_spec _
              (constants_update_data_dictionary (consts H)
                 (staticstr_update_data_dictionary (staticstr H)
                    (calllist_update_data_dictionary (calllist H) [])))
              _ Hinv Hids HM)
    as (news & cmds & resps & Hc & Hnews & Hids' & Hu & Hcin & Hrin).
  cbv zeta in *.
  set (h' := with_msg_to_id (cmdgen H) (msg_to_id (cmdgen H) ++ news)%list) in *.
  rewrite update_all_eq, Hu. cbn [bind].
  exists (with_cmdgen H h'). eexists. 
  exists (dict_items (messages_dict h')), (sorted Z.leb cmds),
    (sorted Z.leb resps).
  assert (Hmsgs : forall i,
            dict_get i (dict_items (messages_dict h'))
            = dict_get i (messages_dict h')).
  { intros i. apply dict_get_items. unfold messages_dict.
    apply dict_of_list_NoDup. }
  split; [reflexivity|].
  split; [rewrite !dict_get_set_neq by discriminate; apply dict_get_set_eq|].
  split; [rewrite dict_get_set_neq by discriminate; apply dict_get_set_eq|].
  split; [apply dict_get_set_eq|].
  assert (Hname : forall n1 n2 m, 
            dict_get n1 (messages_by_name (cmdgen H)) = Some m ->
            dict_get n2 (messages_by_name (cmdgen H)) = Some m -> n1 = n2).
  { intros n1 n2 m H1 H2. apply (inv_names _ Hinv) in H1, H2. congruence. }
  split; [|split].
  - intros i [Hi1 Hi2]. apply sorted_In in Hi1, Hi2.
    apply Hcin in Hi1 as (n1 & m1 & G1 & C1 & I1).
    apply Hrin in Hi2 as (n2 & m2 & G2 & C2 & I2).
    assert (m1 = m2) by (eapply (ids_inj _ Hids'); eauto). subst m2.
    assert (n1 = n2) by (eapply Hname; eauto). congruence.
  - intros i Hi. apply dict_in_true.
    assert (Hex : exists m, dict_get m (msg_to_id h') = Some i).
    { destruct Hi as [Hi|Hi]; apply sorted_In in Hi;
        [apply Hcin in Hi|apply Hrin in Hi];
        destruct Hi as (n & m & _ & _ & Hg); eauto. }
    destruct Hex as [m Hm]. exists m. rewrite Hmsgs.
    apply messages_dict_spec; assumption.
  - intros i m Hg. rewrite Hmsgs in Hg.
    apply (messages_dict_spec h' i m Hids') in Hg.
    assert (Hc_iff : In i (sorted Z.leb cmds) <->
      exists n, dict_get n (messages_by_name (cmdgen H)) = Some m /\
                dict_in n (commands (cmdgen H)) = true).
    { rewrite sorted_In, Hcin. split.
      - intros (n & m' & G & C & I).
        assert (m' = m) by (eapply (ids_inj _ Hids'); eauto). subst m'. eauto.
      - intros (n & G & C). exists n, m; auto. }
    assert (Hr_iff : In i (sorted Z.leb resps) <->
      exists n, dict_get n (messages_by_name (cmdgen H)) = Some m /\
                dict_in n (commands (cmdgen H)) = false).
    { rewrite sorted_In, Hrin. split.
      - intros (n & m' & G & C & I).
        assert (m' = m) by (eapply (ids_inj _ Hids'); eauto). subst m'. eauto.
      - intros (n & G & C). exists n, m; auto. }
    split; [exact Hc_iff|]. split; [exact Hr_iff|].
    intros Hnc Hnr.
    assert (Hnoname : forall n, dict_get n (messages_by_name (cmdgen H)) <> Some m).
    { intros n G. destruct (dict_in n (commands (cmdgen H))) eqn:C.
      - apply Hnc, Hc_iff; eauto.
      - apply Hnr, Hr_iff; eauto. }
    subst h'. cbn [msg_to_id with_msg_to_id] in Hg.
    rewrite dict_get_app in Hg.
    destruct (dict_get m (msg_to_id (cmdgen H))) as [v|] eqn:Eb.
    { right. rewrite <- Hb. apply dict_in_true; eauto. }
    left. apply dict_get_In in Hg.
    assert (Hk : In m (map fst news)) by (apply in_map_iff; exists (m, i); auto).
    apply Hnews in Hk as [_ (n & Hin & Hres)].
    apply in_app_or in Hin as [Hin|Hin].
    + exfalso. apply (proj1 (dict_keys_In _ _)) in Hin.
      destruct (dict_get n (commands (cmdgen H))) as [c|] eqn:Ec.
      * destruct (inv_cmd_named _ Hinv _ _ Ec) as [_ [m' Hm']].
        unfold resolve in Hres. rewrite Hm' in Hres. subst m'.
        exact (Hnoname _ Hm').
      * apply (proj1 (dict_get_None_notin _ _)) in Ec. tauto.
    + apply in_map_iff in Hin as ([o n'] & Heq & Hin). simpl in Heq. subst n'.
      destruct o as [n0|].
      * exfalso. apply (inv_enc _ Hinv) in Hin.
        rewrite (resolve_format _ _ _ Hinv Hin) in Hres. subst n.
        exact (Hnoname _ Hin).
      * unfold resolve in Hres.
        destruct (dict_get n (messages_by_name (cmdgen H))) as [m'|] eqn:En.
        -- subst m'. exfalso. exact (Hnoname _ En).
        -- subst n. exact Hin.
Qed.

(* ================================================================== *)
(** * Conflicting and repeated declarations *)
(* ================================================================== *)

Lemma split_max_lstrip n s : split_max n (lstrip s) = split_max n s.
Proof. destruct n; simpl; rewrite lstrip_idem; reflexivity. Qed.

Lemma split_max_enough n : forall m s,
  (String.length (lstrip s) <= n)%nat -> (String.length (lstrip s) <= m)%nat ->
  split_max n s = split_max m s.
Proof.
  induction n as [|n IH]; intros m s Hn Hm.
  - destruct (lstrip s) as [|c s1] eqn:E; [|simpl in Hn; lia].
    rewrite !(split_max_nil _ _ E); reflexivity.
  - destruct (lstrip s) as [|c s1] eqn:E.
    + rewrite !(split_max_nil _ _ E); reflexivity.
    + destruct m as [|m]; [simpl in Hm; lia|].
      rewrite !(split_max_S _ _ _ _ E). f_equal.
      pose proof (after_token_shorter c s1 (lstrip_head _ _ _ E)) as Hlt.
      pose proof (lstrip_length (after_token (String c s1))) as Hle.
      apply IH; lia.
Qed.

Lemma split_lstrip s : split (lstrip s) = split s.
Proof.
  unfold split. rewrite split_max_lstrip.
  pose proof (lstrip_length s).
  apply split_max_enough; lia.
Qed.

Lemma split_nonempty_lstrip s t l : split s = t :: l -> lstrip s <> "".
Proof.
  intros Hs He. unfold split in Hs.
  rewrite (split_max_nil _ _ He) in Hs. discriminate.
Qed.

Lemma handle_command_request H req f fl n msg :
  command_of req = Some (f, fl, n, msg) ->
  handle_request H req = on_cmdgen decl_command (lstrip req) H /\
  slice 1 4 (split (lstrip req)) = [f; fl; n] /\
  nth_error (split_max 3 (lstrip req)) 3 = Some msg.
Proof.
  unfold command_of.
  destruct (split req) as [|cmd [|f' [|fl' [|n' l]]]] eqn:Es; try discriminate.
  destruct (String.eqb_spec cmd "_DECL_COMMAND") as [->|]; [|discriminate].
  destruct (nth_error (split_max 3 req) 3) as [msg'|] eqn:En; [|discriminate].
  cbn [option_map]. intros Heq; injection Heq as -> -> -> ->.
  rewrite split_lstrip, split_max_lstrip, Es. repeat split; auto.
  unfold handle_request.
  destruct (String.eqb_spec (lstrip req) "") as [He|_].
  { exfalso. exact (split_nonempty_lstrip _ _ _ Es He). }
  rewrite split_lstrip, Es. reflexivity.
Qed.

Lemma handle_encoder_request H req n msg :
  encoder_of req = Some (n, msg) ->
  handle_request H req = on_cmdgen decl_encoder (lstrip req) H /\
  nth_error (split_max 1 (lstrip req)) 1 = Some msg /\
  first_token msg = Some n.
Proof.
  unfold encoder_of.
  destruct (split req) as [|cmd l] eqn:Es; try discriminate.
  destruct (String.eqb_spec cmd "_DECL_ENCODER") as [->|]; [|discriminate].
  destruct (nth_error (split_max 1 req) 1) as [msg'|] eqn:En; [|discriminate].
  destruct (first_token msg') as [n'|] eqn:Ef; [|discriminate].
  cbn [option_map]. intros Heq; injection Heq as -> ->.
  rewrite split_max_lstrip. repeat split; auto.
  unfold handle_request.
  destruct (String.eqb_spec (lstrip req) "") as [He|_].
  { exfalso. exact (split_nonempty_lstrip _ _ _ Es He). }
  rewrite split_lstrip, Es. reflexivity.
Qed.

Lemma decl_command_again req h f fl n :
  slice 1 4 (split req) = [f; fl; n] ->
  dict_in n (commands h) = true ->
  decl_command req h = Raise (multiple_definitions n).
Proof.
  intros Hs Hin. unfold decl_command. rewrite Hs, Hin. reflexivity.
Qed.

Lemma decl_encoder_conflict req h n msg a :
  nth_error (split_max 1 req) 1 = Some msg ->
  first_token msg = Some n ->
  dict_get n (messages_by_name h) = Some a -> a <> msg ->
  decl_encoder req h = Raise (conflicting_message n).
Proof.
  intros Hm Hn Hg Hne. unfold decl_encoder, list_getitem. rewrite Hm. cbn [bind].
  unfold first_token in Hn. rewrite Hn. cbn [bind]. rewrite Hg.
  destruct (String.eqb_spec a msg) as [|_]; [contradiction|reflexivity].
Qed.

(** Once a command is declared, its name stays a command and stays bound
    to the same format. *)
Lemma registry_step_keeps h h' n a :
  registry_step h h' ->
  dict_in n (commands h) = true ->
  dict_get n (messages_by_name h) = Some a ->
  dict_in n (commands h') = true /\
  dict_get n (messages_by_name h') = Some a.
Proof.
  intros [|req h1 Hd|req h1 Hd|req h1 Hd] Hc Hm; [auto| | |].
  - apply decl_command_Ok in Hd as (f & fl & n' & msg & _ & _ & _ & Hc' & Hm' & ->).
    cbn [commands messages_by_name declared_command].
    unfold dict_in. rewrite !dict_get_set.
    destruct (key_eqb_spec n n') as [->|Hn]; [|auto].
    apply dict_in_true in Hc as [c Hc]. congruence.
  - apply decl_encoder_Ok in Hd as (n' & msg & _ & _ & Hm' & ->).
    cbn [commands messages_by_name declared_encoder].
    split; [exact Hc|]. rewrite dict_get_set.
    destruct (key_eqb_spec n n') as [->|Hn]; [|auto].
    destruct Hm' as [Hm'|Hm']; congruence.
  - apply decl_output_Ok in Hd as (msg & _ & ->). auto.
Qed.

Lemma steps_keep h h' n a :
  clos_refl_trans_1n _ registry_step h h' ->
  dict_in n (commands h) = true ->
  dict_get n (messages_by_name h) = Some a ->
  dict_in n (commands h') = true /\
  dict_get n (messages_by_name h') = Some a.
Proof.
  induction 1 as [|h h1 h2 Hs _ IH]; [auto|].
  intros Hc Hm. destruct (registry_step_keeps _ _ _ _ Hs Hc Hm). auto.
Qed.

Lemma on_cmdgen_Ok f req H H' :
  on_cmdgen f req H = Ok H' -> f req (cmdgen H) = Ok (cmdgen H').
Proof.
  unfold on_cmdgen. intros Hb. apply bind_Ok in Hb as (h & Hh & Hb).
  injection Hb as <-. exact Hh.
Qed.

(** The registry right after the replay has gone through a command
    declaration, and after more requests. *)
Lemma replay_through_command pre r mid H0 H f fl n a :
  foldM handle_request (pre ++ r :: mid)%list H0 = Ok H ->
  command_of r = Some (f, fl, n, a) ->
  dict_in n (commands (cmdgen H)) = true /\
  dict_get n (messages_by_name (cmdgen H)) = Some a.
Proof.
  intros Hf Hr. rewrite foldM_app in Hf.
  apply bind_Ok in Hf as (H1 & _ & Hf). cbn [foldM] in Hf.
  apply bind_Ok in Hf as (H2 & Hr2 & Hf).
  destruct (handle_command_request H1 _ _ _ _ _ Hr) as (Hh & Hs & Hm).
  rewrite Hh in Hr2. apply on_cmdgen_Ok in Hr2.
  apply decl_command_Ok in Hr2
    as (f' & fl' & n' & msg & Hs' & Hm' & _ & _ & _ & Hd).
  rewrite Hs in Hs'. injection Hs' as <- <- <-.
  rewrite Hm in Hm'. injection Hm' as <-.
  apply foldM_steps in Hf. rewrite Hd in Hf.
  apply (steps_keep _ _ n a Hf); cbn [commands messages_by_name declared_command].
  - apply dict_in_true. rewrite dict_get_set_eq. eauto.
  - apply dict_get_set_eq.
Qed.

Lemma foldM_fails {A S} (f : S -> A -> result S) pre r post s s1 e :
  foldM f pre s = Ok s1 -> f s1 r = Raise e ->
  foldM f (pre ++ r :: post)%list s = Raise e.
Proof.
  intros Hp Hr. rewrite foldM_app, Hp. cbn [bind foldM]. rewrite Hr. reflexivity.
Qed.

Lemma main_parse_error env data e H0 :
  Handlers = Ok H0 -> parse_request_file data H0 = Raise e ->
  main env data = stop [] e.
Proof. intros Hh Hp. unfold main. rewrite Hh, Hp. reflexivity. Qed.

Lemma exit_status_stop evs e : exit_status (stop evs e) <> 0.
Proof. destruct e; unfold exit_status; simpl; discriminate. Qed.

Lemma foldM_prefix_fails {A S} (f : S -> A -> result S) l1 l2 s e :
  foldM f l1 s = Raise e -> foldM f (l1 ++ l2)%list s = Raise e.
Proof. intros Hf. rewrite foldM_app, Hf. reflexivity. Qed.

(** A request that redeclares, with another format, the name of a command
    declared earlier is refused by its handler. *)
Lemma redeclaration_refused H r' n a b :
  dict_in n (commands (cmdgen H)) = true ->
  dict_get n (messages_by_name (cmdgen H)) = Some a ->
  a <> b ->
  (exists f' fl', command_of r' = Some (f', fl', n, b)) \/
  encoder_of r' = Some (n, b) ->
  handle_request H r' =
  Raise (match command_of r' with
         | Some _ => multiple_definitions n
         | None => conflicting_message n
         end).
Proof.
  intros Hc Hm Hab [(f' & fl' & Hr')|Hr'].
  - rewrite Hr'.
    destruct (handle_command_request H _ _ _ _ _ Hr') as (Hh & Hs & _).
    rewrite Hh. unfold on_cmdgen.
    rewrite (decl_command_again _ _ _ _ _ Hs Hc). reflexivity.
  - assert (Hnc : command_of r' = None).
    { unfold command_of, encoder_of in *.
      destruct (split r') as [|cmd l]; [reflexivity|].
      destruct (String.eqb_spec cmd "_DECL_ENCODER") as [->|]; [|discriminate].
      destruct l as [|? [|? [|? ?]]]; reflexivity. }
    rewrite Hnc.
    destruct (handle_encoder_request H _ _ _ Hr') as (Hh & Hmsg & Hn).
    rewrite Hh. unfold on_cmdgen.
    rewrite (decl_encoder_conflict _ _ _ _ _ Hmsg Hn Hm Hab). reflexivity.
Qed.

(** ** C3 *)

(** C3. When the request file declares a command, with message name n and
    format a, and a later request declares n again, as a command or as an
    encoder, with a format b other than a, the run ends with a status other
    than 0 and has opened and written no file (nothing at all has happened
    outside); and when the requests before the second declaration have gone
    through, the run ends in error(): "Multiple definitions for command" for
    a command, "Conflicting definition for message" for an encoder. *)
Theorem conflicting_redeclaration_fails_without_output :
  forall env data pre r mid r' post f fl n a b,
    split_on NUL data = (pre ++ r :: mid ++ r' :: post)%list ->
    command_of r = Some (f, fl, n, a) ->
    (exists f' fl', command_of r' = Some (f', fl', n, b)) \/
    encoder_of r' = Some (n, b) ->
    a <> b ->
    exit_status (main env data) <> 0 /\
    events (main env data) = [] /\
    files_touched (main env data) = [] /\
    forall H, replayed (pre ++ r :: mid) H ->
      finish (main env data) =
      Raise (match command_of r' with
             | Some _ => multiple_definitions n
             | None => conflicting_message n
             end).
Proof.
  intros env data pre r mid r' post f fl n a b Hdata Hr Hr' Hab.
  assert (Hfail : forall H0 H, Handlers = Ok H0 ->
            foldM handle_request (pre ++ r :: mid)%list H0 = Ok H ->
            main env data =
            stop [] (match command_of r' with
                     | Some _ => multiple_definitions n
                     | None => conflicting_message n
                     end)).
  { intros H0 H Hh Hf. apply (main_parse_error _ _ _ _ Hh).
    unfold parse_request_file. rewrite Hdata.
    change (pre ++ r :: mid ++ r' :: post)%list
      with (pre ++ (r :: mid) ++ r' :: post)%list.
    rewrite app_assoc. apply (foldM_fails _ _ _ _ _ _ _ Hf).
    destruct (replay_through_command _ _ _ _ _ _ _ _ _ Hf Hr) as [Hc Hm].
    apply (redeclaration_refused _ _ _ _ _ Hc Hm Hab Hr'). }
  assert (Hstop : exists e, main env data = stop [] e).
  { destruct Handlers as [H0|e] eqn:Hh.
    - destruct (foldM handle_request (pre ++ r :: mid)%list H0) as [H|e] eqn:Hf.
      + eexists; apply (Hfail _ _ eq_refl Hf).
      + exists e. apply (main_parse_error _ _ _ _ Hh).
        unfold parse_request_file. rewrite Hdata.
        change (pre ++ r :: mid ++ r' :: post)%list
          with (pre ++ (r :: mid) ++ r' :: post)%list.
        rewrite app_assoc. apply foldM_prefix_fails, Hf.
    - exists e. unfold main. rewrite Hh. reflexivity. }
  destruct Hstop as [e He].
  split; [rewrite He; apply exit_status_stop|].
  split; [rewrite He; reflexivity|].
  split; [rewrite He; reflexivity|].
  intros H (H0 & Hh & Hf). rewrite (Hfail _ _ Hh Hf). reflexivity.
Qed.

(** ** C10 *)

(** C10. When a command with message name n has been declared and a later
    request declares a command with the same message name, whatever its
    handler, flags and format, the same ones included, then, the requests
    before it having gone through, decl_command ends in
    error("Multiple definitions for command 'n'"): the run exits with
    status -1 and nothing is written. *)
Theorem second_command_declaration_is_fatal :
  forall env data pre r mid r' post f fl n a f' fl' a' H,
    split_on NUL data = (pre ++ r :: mid ++ r' :: post)%list ->
    command_of r = Some (f, fl, n, a) ->
    command_of r' = Some (f', fl', n, a') ->
    replayed (pre ++ r :: mid) H ->
    handle_request H r' = Raise (multiple_definitions n) /\
    finish (main env data) = Raise (multiple_definitions n) /\
    exit_status (main env data) = -1 /\
    events (main env data) = [].
Proof.
  intros env data pre r mid r' post f fl n a f' fl' a' H Hdata Hr Hr'
         (H0 & Hh & Hf).
  destruct (replay_through_command _ _ _ _ _ _ _ _ _ Hf Hr) as [Hc _].
  destruct (handle_command_request H _ _ _ _ _ Hr') as (Hq & Hs & _).
  assert (Hreq : handle_request H r' = Raise (multiple_definitions n)).
  { rewrite Hq. unfold on_cmdgen.
    rewrite (decl_command_again _ _ _ _ _ Hs Hc). reflexivity. }
  split; [exact Hreq|].
  assert (Hm : main env data = stop [] (multiple_definitions n)).
  { apply (main_parse_error _ _ _ _ Hh).
    unfold parse_request_file. rewrite Hdata.
    change (pre ++ r :: mid ++ r' :: post)%list
      with (pre ++ (r :: mid) ++ r' :: post)%list.
    rewrite app_assoc. apply (foldM_fails _ _ _ _ _ _ _ Hf Hreq). }
  rewrite Hm. repeat split; reflexivity.
Qed.

(* ================================================================== *)
(** * Interning of parameter-type signatures *)
(* ================================================================== *)

Lemma build_parser_table p iscmd apt :
  snd (build_parser p iscmd apt) = snd (intern_types (signature p) apt).
Proof.
  unfold build_parser. fold (signature p).
  destruct (intern_types (signature p) apt) as [i apt1].
  destruct iscmd; reflexivity.
Qed.

Lemma table_ok_empty : table_ok [].
Proof. split; simpl; [constructor|reflexivity|tauto]. Qed.

Lemma intern_types_cases t apt :
  (t = [] /\ intern_types t apt = (None, apt)) \/
  (t <> [] /\ exists i, dict_get t apt = Some i /\
                        intern_types t apt = (Some i, apt)) \/
  (t <> [] /\ dict_get t apt = None /\
   intern_types t apt
   = (Some (List.length apt), (apt ++ [(t, List.length apt)])%list)).
Proof.
  destruct t as [|x t]; [left; auto|right].
  unfold intern_types.
  destruct (dict_get (x :: t) apt) as [i|] eqn:E.
  - left. split; [discriminate|]. exists i; auto.
  - right. split; [discriminate|]. split; [reflexivity|].
    rewrite (dict_set_new _ _ _ E). reflexivity.
Qed.

Lemma table_ok_step t apt :
  table_ok apt -> table_ok (snd (intern_types t apt)).
Proof.
  intros [H1 H2 H3].
  destruct (intern_types_cases t apt)
    as [[_ ->]|[(_ & i & _ & ->)|(Hne & Hg & ->)]]; simpl;
    try (split; assumption).
  split.
  - rewrite map_app. apply NoDup_app; [exact H1|repeat constructor; simpl; tauto|].
    intros k Hk [<-|[]]. apply (proj1 (dict_get_None_notin _ _)) in Hg. tauto.
  - rewrite map_app, length_app, H2. simpl. rewrite seq_app. reflexivity.
  - rewrite map_app, in_app_iff. simpl. intros [H|[H|[]]]; [tauto|congruence].
Qed.

Lemma table_get_bound apt t i :
  table_ok apt -> dict_get t apt = Some i -> (i < List.length apt)%nat.
Proof.
  intros [_ H2 _] Hg. apply dict_get_In in Hg.
  assert (Hin : In i (map snd apt)) by (apply in_map_iff; exists (t, i); auto).
  rewrite H2 in Hin. apply in_seq in Hin. lia.
Qed.

Lemma table_inj apt t1 t2 i :
  table_ok apt -> dict_get t1 apt = Some i -> dict_get t2 apt = Some i -> t1 = t2.
Proof.
  intros [_ H2 _] G1 G2. apply dict_get_In in G1, G2.
  eapply In_snd_NoDup_inj; eauto. rewrite H2. apply seq_NoDup.
Qed.

Lemma intern_types_result t apt :
  table_ok apt ->
  fst (intern_types t apt) = dict_get t (snd (intern_types t apt)) /\
  forall k v, dict_get k apt = Some v ->
              dict_get k (snd (intern_types t apt)) = Some v.
Proof.
  intros Hok.
  destruct (intern_types_cases t apt)
    as [[-> ->]|[(_ & i & Hg & ->)|(Hne & Hg & ->)]]; simpl.
  - split; [|auto].
    destruct (dict_get [] apt) as [i|] eqn:E; [|reflexivity].
    exfalso. apply (tbl_nonempty _ Hok). apply dict_get_In in E.
    apply in_map_iff; exists ([], i); auto.
  - split; [congruence|auto].
  - split.
    + rewrite dict_get_app, Hg. simpl.
      destruct (list_eqb_spec t t); [reflexivity|congruence].
    + intros k v Hk. rewrite dict_get_app, Hk. reflexivity.
Qed.

Lemma intern_seq_spec sigs : forall apt,
  table_ok apt ->
  table_ok (snd (intern_seq sigs apt)) /\
  (forall k v, dict_get k apt = Some v ->
               dict_get k (snd (intern_seq sigs apt)) = Some v) /\
  (forall j s, nth_error sigs j = Some s ->
     nth_error (fst (intern_seq sigs apt)) j
     = Some (dict_get s (snd (intern_seq sigs apt)))).
Proof.
  induction sigs as [|t rest IH]; intros apt Hok; cbn [intern_seq].
  - simpl. split; [exact Hok|]. split; [auto|intros [|j] s; discriminate].
  - pose proof (table_ok_step t _ Hok) as Hok1.
    destruct (intern_types_result t _ Hok) as [Hi Hkeep].
    destruct (intern_types t apt) as [i apt1] eqn:Ei. cbn [fst snd] in *.
    destruct (IH _ Hok1) as (H1 & H2 & H3).
    destruct (intern_seq rest apt1) as [rs apt2]. cbn [fst snd] in *.
    split; [exact H1|]. split; [auto|].
    intros [|j] s; cbn [nth_error]; [|apply H3].
    intros Heq; injection Heq as <-. f_equal.
    rewrite Hi. destruct (dict_get t apt1) as [v|] eqn:E.
    + symmetry; apply H2, E.
    + destruct (dict_get t apt2) as [v|] eqn:E2; [|reflexivity].
      exfalso.
      destruct (intern_types_cases t apt)
        as [[-> _]|[(_ & i' & _ & Hq)|(_ & _ & Hq)]].
      * apply (tbl_nonempty _ H1). apply dict_get_In in E2.
        apply in_map_iff; exists ([], v); auto.
      * rewrite Hq in Ei. congruence.
      * rewrite Hq in Ei. congruence.
Qed.

Lemma intern_seq_app l1 l2 apt :
  intern_seq (l1 ++ l2)%list apt =
  (fst (intern_seq l1 apt) ++ fst (intern_seq l2 (snd (intern_seq l1 apt))),
   snd (intern_seq l2 (snd (intern_seq l1 apt))))%list.
Proof.
  revert apt; induction l1 as [|t l1 IH]; intros apt; cbn [app intern_seq].
  - simpl. destruct (intern_seq l2 apt); reflexivity.
  - destruct (intern_types t apt) as [i apt1]. rewrite IH.
    destruct (intern_seq l1 apt1) as [rs a1]. cbn [fst snd].
    destruct (intern_seq l2 a1); reflexivity.
Qed.

(** The keys of the table are the non-empty signatures seen so far. *)
Lemma intern_seq_keys sigs : forall (apt : dict (list string) nat) seen,
  (forall k, In k (map fst apt) <-> In k seen /\ k <> []) ->
  forall k, In k (map fst (snd (intern_seq sigs apt)))
            <-> In k (seen ++ sigs)%list /\ k <> [].
Proof.
  induction sigs as [|t rest IH]; intros apt seen Hk k; cbn [intern_seq].
  - simpl. rewrite app_nil_r. apply Hk.
  - destruct (intern_types t apt) as [i apt1] eqn:Ei.
    specialize (IH apt1 (seen ++ [t])%list).
    destruct (intern_seq rest apt1) as [rs apt2]. cbn [snd] in *.
    rewrite <- app_assoc in IH. apply IH. clear IH k. intros k.
    rewrite in_app_iff. simpl.
    destruct (intern_types_cases t apt)
      as [[-> Hq]|[(Hne & i' & Hg & Hq)|(Hne & Hg & Hq)]];
      rewrite Hq in Ei; injection Ei as <- <-.
    + rewrite Hk. intuition congruence.
    + rewrite Hk. split; [tauto|].
      intros [[H|[<-|[]]] Hn]; [tauto|].
      apply Hk. apply dict_get_In in Hg.
      apply in_map_iff; exists (t, i'); auto.
    + rewrite map_app, in_app_iff, Hk. simpl. intuition congruence.
Qed.

Lemma distinct_count_keys (apt : dict (list string) nat) seen :
  NoDup (map fst apt) ->
  (forall k, In k (map fst apt) <-> In k seen /\ k <> []) ->
  List.length apt = distinct_count seen.
Proof.
  intros Hnd Hk. unfold distinct_count.
  rewrite <- (length_map fst apt). apply Permutation_length.
  apply NoDup_Permutation; [exact Hnd|apply NoDup_nodup|].
  intros k. rewrite Hk, nodup_In, filter_In.
  destruct k; simpl; intuition congruence.
Qed.

(** Over any run of lookups that starts with the empty table: two lookups
    get the same table index exactly when their signatures are the same
    lists (the empty signature gets no index); and a signature that was
    not seen before gets the number of distinct non-empty signatures seen
    before it. *)
Lemma intern_seq_first_seen :
  forall sigs : list (list string),
    let ids := fst (intern_seq sigs []) in
    (forall j k s1 s2 r1 r2,
        nth_error sigs j = Some s1 -> nth_error sigs k = Some s2 ->
        nth_error ids j = Some r1 -> nth_error ids k = Some r2 ->
        (s1 = s2 <-> r1 = r2)) /\
    (forall j s,
        nth_error sigs j = Some s -> s <> [] -> ~ In s (firstn j sigs) ->
        nth_error ids j = Some (Some (distinct_count (firstn j sigs)))) /\
    (forall j, nth_error sigs j = Some [] -> nth_error ids j = Some None).
Proof.
  intros sigs ids. subst ids.
  destruct (intern_seq_spec sigs [] table_ok_empty) as (Hok & _ & Hids).
  split; [|split].
  - intros j k s1 s2 r1 r2 H1 H2 R1 R2.
    rewrite (Hids _ _ H1) in R1. rewrite (Hids _ _ H2) in R2.
    injection R1 as <-; injection R2 as <-.
    split; [congruence|].
    intros Heq.
    destruct (dict_get s1 (snd (intern_seq sigs []))) as [i|] eqn:E1.
    + symmetry in Heq. eapply table_inj; eauto.
    + symmetry in Heq.
      assert (Hnone : forall s, nth_error sigs j = Some s \/ nth_error sigs k = Some s ->
                dict_get s (snd (intern_seq sigs [])) = None -> s = []).
      { intros s Hs Hg. destruct s as [|x s]; [reflexivity|exfalso].
        apply (proj1 (dict_get_None_notin _ _)) in Hg. apply Hg.
        apply (intern_seq_keys sigs [] []); [simpl; tauto|].
        split; [|discriminate]. simpl.
        destruct Hs as [Hs|Hs]; eapply nth_error_In; exact Hs. }
      rewrite (Hnone s1), (Hnone s2); auto.
  - intros j s Hj Hne Hnew.
    pose proof (nth_error_split sigs j Hj) as (l1 & l2 & Hsplit & Hlen).
    assert (Hf : firstn j sigs = l1).
    { rewrite Hsplit, <- Hlen, firstn_app, Nat.sub_diag, firstn_all. simpl.
      apply app_nil_r. }
    rewrite Hf in *. rewrite Hsplit, intern_seq_app. cbn [fst].
    destruct (intern_seq_spec l1 [] table_ok_empty) as (Hok1 & _ & _).
    assert (Hkeys : forall k, In k (map fst (snd (intern_seq l1 [])))
                              <-> In k l1 /\ k <> []).
    { intros k. apply (intern_seq_keys l1 [] []). simpl; tauto. }
    assert (Hl : List.length (fst (intern_seq l1 [])) = j).
    { rewrite <- Hlen. clear. generalize (@nil (list string * nat)).
      induction l1 as [|t l1 IH]; intros apt; cbn [intern_seq]; [reflexivity|].
      destruct (intern_types t apt) as [i a1]. specialize (IH a1).
      destruct (intern_seq l1 a1). simpl in *. congruence. }
    rewrite nth_error_app2, Hl, Nat.sub_diag by lia.
    cbn [intern_seq].
    destruct (intern_types_cases s (snd (intern_seq l1 [])))
      as [[-> _]|[(_ & i & Hg & _)|(_ & Hg & Hq)]].
    + congruence.
    + exfalso. apply Hnew. apply Hkeys. apply dict_get_In in Hg.
      apply in_map_iff; exists (s, i); auto.
    + rewrite Hq. destruct (intern_seq l2 _). cbn [fst nth_error].
      rewrite (distinct_count_keys _ l1 (tbl_nodup _ Hok1) Hkeys). reflexivity.
  - intros j Hj. rewrite (Hids _ _ Hj). f_equal.
    destruct (dict_get [] (snd (intern_seq sigs []))) as [i|] eqn:E; [|reflexivity].
    exfalso. apply (tbl_nonempty _ Hok). apply dict_get_In in E.
    apply in_map_iff; exists ([], i); auto.
Qed.

(* ================================================================== *)
(** * The registry once identifiers are assigned *)
(* ================================================================== *)

Lemma create_message_ids_assigned h h' :
  registry_inv h -> ids_inv (msg_to_id h) ->
  create_message_ids h = Ok h' -> assigned h'.
Proof.
  intros Hi Hids Hc.
  pose proof Hc as Hc0. unfold create_message_ids in Hc0.
  apply bind_Ok in Hc0 as (M & HM & _).
  destruct (create_message_ids_spec _ _ HM) as (news & Hc' & Hs & Hnd & Hk & Hn).
  rewrite Hc' in Hc. injection Hc as <-.
  split.
  - destruct Hi as [I1 I2 I3 I4 I5 I6]. constructor; auto.
    cbn [messages_by_name commands encoders msg_to_id with_msg_to_id].
    intros n m Hg. destruct (I5 _ _ Hg) as [Hb|[Hb|Hb]]; auto.
    left. apply dict_in_true in Hb as [v Hv]. apply dict_in_true; exists v.
    rewrite dict_get_app, Hv; reflexivity.
  - apply ids_inv_extend with (M := M); auto.
    + apply py_max_bounds, HM.
    + intros k Hin; apply Hk, Hin.
  - exact Hn.
Qed.

Lemma update_all_Ok H data H' doc :
  update_all H data = Ok (H', doc) ->
  create_message_ids (cmdgen H) = Ok (cmdgen H') /\
  calllist H' = calllist H /\ staticstr H' = staticstr H /\ consts H' = consts H.
Proof.
  rewrite update_all_eq. intros Hb.
  apply bind_Ok in Hb as ([h d] & Hu & Hb). injection Hb as <- <-.
  unfold cmdgen_update_data_dictionary in Hu.
  apply bind_Ok in Hu as (h1 & Hc & Hu).
  apply bind_Ok in Hu as (cmds & _ & Hu).
  apply bind_Ok in Hu as (resps & _ & Hu).
  injection Hu as <- _. auto.
Qed.

Lemma replayed_assigned reqs H H' doc :
  replayed reqs H -> update_all H [] = Ok (H', doc) ->
  assigned (cmdgen H') /\
  commands (cmdgen H') = commands (cmdgen H) /\
  encoders (cmdgen H') = encoders (cmdgen H) /\
  messages_by_name (cmdgen H') = messages_by_name (cmdgen H) /\
  all_param_types (cmdgen H') = [].
Proof.
  intros Hr Hu. destruct (replayed_inv _ _ Hr) as (Hinv & Hb & Ha).
  apply update_all_Ok in Hu as (Hc & _).
  pose proof (create_message_ids_frame _ _ Hc) as (F1 & F2 & F3 & F4).
  split; [|rewrite F4; auto].
  apply (create_message_ids_assigned _ _ Hinv); [|exact Hc].
  rewrite Hb; apply baseline_ids_inv.
Qed.

Lemma assigned_with_all_param_types h apt :
  assigned h -> assigned (with_all_param_types h apt).
Proof.
  intros [[I1 I2 I3 I4 I5 I6] Hids Href].
  split; [constructor|exact Hids|exact Href]; assumption.
Qed.

Lemma command_id_inj h n1 n2 c1 c2 i :
  assigned h ->
  dict_get n1 (commands h) = Some c1 -> dict_get n2 (commands h) = Some c2 ->
  command_id h n1 = Some i -> command_id h n2 = Some i -> n1 = n2.
Proof.
  intros [Hi Hids _] G1 G2. unfold command_id, resolve.
  destruct (inv_cmd_named _ Hi _ _ G1) as [_ [m1 M1]].
  destruct (inv_cmd_named _ Hi _ _ G2) as [_ [m2 M2]].
  rewrite M1, M2. intros I1 I2.
  assert (m1 = m2) by (eapply (ids_inj _ Hids); eauto). subst m2.
  apply (inv_names _ Hi) in M1, M2. congruence.
Qed.

Lemma cmd_by_id_fold h (l : list (string * (string * string * string))) :
  forall d : dict Z (string * string * string),
  (forall n c, In (n, c) l -> exists i, command_id h n = Some i) ->
  exists d',
    foldM (fun d '(msgname, cmd) =>
             let msg := match dict_get msgname (messages_by_name h) with
                        | Some m => m
                        | None => msgname
                        end in
             i <- dict_getitem msg (msg_to_id h) ;;
             Ok (dict_set i cmd d)) l d = Ok d' /\
    (forall i c, dict_get i d' = Some c ->
       dict_get i d = Some c \/
       exists n, In (n, c) l /\ command_id h n = Some i) /\
    (forall i, (exists c, dict_get i d = Some c) \/
               (exists n c, In (n, c) l /\ command_id h n = Some i) ->
               exists c, dict_get i d' = Some c).
Proof.
  induction l as [|[n c] l IH]; intros d Hall; cbn [foldM].
  - exists d. split; [reflexivity|]. split; [auto|].
    intros i [Hc|(n & c & [] & _)]; exact Hc.
  - destruct (Hall n c (or_introl eq_refl)) as [i Hi].
    unfold command_id, resolve in Hi.
    unfold dict_getitem at 1. rewrite Hi. cbn [bind].
    destruct (IH (dict_set i c d)) as (d' & Hf & H1 & H2).
    { intros n' c' Hin. apply (Hall n' c'). right; exact Hin. }
    exists d'. split; [exact Hf|]. split.
    + intros i' c' Hg. apply H1 in Hg as [Hg|(n' & Hin & Hid)].
      * rewrite dict_get_set in Hg.
        destruct (key_eqb_spec i' i) as [->|Hn]; [|auto].
        injection Hg as <-. right. exists n. split; [left; reflexivity|exact Hi].
      * right. exists n'. split; [right; exact Hin|exact Hid].
    + intros i' Hex. apply H2.
      destruct Hex as [[c' Hc']|(n' & c' & [Heq|Hin] & Hid)].
      * left. rewrite dict_get_set. destruct (key_eqb i' i); eauto.
      * injection Heq as <- <-. left.
        unfold command_id, resolve in Hid. rewrite Hi in Hid. injection Hid as <-.
        rewrite dict_get_set_eq. eauto.
      * right. eauto.
Qed.

Lemma cmd_by_id_spec h :
  assigned h ->
  exists by_id,
    cmd_by_id h = Ok by_id /\
    forall i c, dict_get i by_id = Some c <->
                exists n, dict_get n (commands h) = Some c /\
                          command_id h n = Some i.
Proof.
  intros Ha. pose proof Ha as [Hi Hids Href].
  assert (Hall : forall n c, In (n, c) (dict_items (commands h)) ->
                             exists i, command_id h n = Some i).
  { intros n c Hin. apply dict_in_true, Href. apply in_or_app; left.
    apply in_map_iff; exists (n, c); auto. }
  destruct (cmd_by_id_fold h _ [] Hall) as (by_id & Hf & H1 & H2).
  exists by_id. split; [exact Hf|].
  assert (Hitems : forall n c, In (n, c) (dict_items (commands h)) <->
                               dict_get n (commands h) = Some c).
  { intros n c. rewrite dict_items_In. split; [|apply dict_get_In].
    apply In_dict_get, (inv_cmd_nodup _ Hi). }
  intros i c. split.
  - intros Hg. apply H1 in Hg as [Hg|(n & Hin & Hid)]; [discriminate|].
    exists n; split; [apply Hitems, Hin|exact Hid].
  - intros (n & Hg & Hid).
    destruct (H2 i) as [c' Hc'].
    { right. exists n, c. split; [apply Hitems, Hg|exact Hid]. }
    rewrite Hc'. f_equal.
    apply H1 in Hc' as [Hc'|(n' & Hin & Hid')]; [discriminate|].
    apply Hitems in Hin.
    assert (n' = n) by (eapply command_id_inj; eauto). subst n'. congruence.
Qed.

(* ================================================================== *)
(** * The command dispatch table *)
(* ================================================================== *)

Lemma commands_loop_fold h by_id l : forall st,
  (forall i f fl n, In i l -> dict_get i by_id = Some (f, fl, n) ->
     exists msg p, dict_get n (messages_by_name h) = Some msg /\
                   MessageFormat i msg = Ok p) ->
  exists st' ents,
    foldM (commands_step h by_id) l st = Ok st' /\
    index st' = (index st ++ ents)%list /\
    Forall2 (entry_for by_id) l ents.
Proof.
  induction l as [|i l IH]; intros st Hall; cbn [foldM].
  - exists st, []. rewrite app_nil_r. repeat split; constructor.
  - unfold commands_step at 1.
    destruct (dict_get i by_id) as [[[f fl] n]|] eqn:E.
    + destruct (Hall i f fl n (or_introl eq_refl) E) as (msg & p & Hm & Hp).
      unfold dict_getitem. rewrite Hm. cbn [bind]. rewrite Hp. cbn [bind].
      destruct (build_parser p true (cmd_param_types st)) as [pc apt].
      cbn [bind].
      match goal with |- context [foldM _ l ?s] =>
        destruct (IH s) as (st' & ents & Hf & Hi & He) end.
      { intros i' f' fl' n' Hin. apply Hall; right; exact Hin. }
      exists st', (command_entry pc fl f :: ents).
      split; [exact Hf|]. split.
      * rewrite Hi. cbn [index]. rewrite <- app_assoc. reflexivity.
      * constructor; [|exact He]. unfold entry_for. rewrite E. eauto.
    + cbn [bind].
      match goal with |- context [foldM _ l ?s] =>
        destruct (IH s) as (st' & ents & Hf & Hi & He) end.
      { intros i' f' fl' n' Hin. apply Hall; right; exact Hin. }
      exists st', (placeholder_entry :: ents).
      split; [exact Hf|]. split.
      * rewrite Hi. cbn [index]. rewrite <- app_assoc. reflexivity.
      * constructor; [|exact He]. unfold entry_for. rewrite E. reflexivity.
Qed.

Lemma Forall2_nth_error {A B} (R : A -> B -> Prop) l1 l2 j a :
  Forall2 R l1 l2 -> nth_error l1 j = Some a ->
  exists b, nth_error l2 j = Some b /\ R a b.
Proof.
  intros HF; revert j; induction HF as [|x y l1 l2 Hxy _ IH]; intros [|j];
    cbn [nth_error]; try discriminate.
  - intros Heq; injection Heq as <-. eauto.
  - apply IH.
Qed.

Lemma nth_error_range n i :
  0 <= i < n -> nth_error (range n) (Z.to_nat i) = Some i.
Proof.
  intros Hi. unfold range. rewrite nth_error_map, nth_error_seq.
  destruct (Nat.ltb_spec (Z.to_nat i) (Z.to_nat n)); [|lia].
  simpl. f_equal. lia.
Qed.

Lemma length_range n : List.length (range n) = Z.to_nat n.
Proof. unfold range. rewrite length_map, length_seq. reflexivity. Qed.

Lemma In_range n i : In i (range n) -> 0 <= i < n.
Proof.
  unfold range. intros Hin. apply in_map_iff in Hin as (j & <- & Hj).
  apply in_seq in Hj. lia.
Qed.

(** With a baseline of identifiers that are not negative, no identifier is
    negative. *)
Lemma assigned_ids_nonneg h h' :
  (forall i m, In (i, m) DefaultMessages -> 0 <= i) ->
  msg_to_id h = baseline_ids -> create_message_ids h = Ok h' ->
  forall m i, dict_get m (msg_to_id h') = Some i -> 0 <= i.
Proof.
  intros Hnn Hb Hc m i Hg.
  assert (Hbase : forall m i, dict_get m (msg_to_id h) = Some i -> 0 <= i).
  { intros m0 i0 G. rewrite Hb in G. apply baseline_ids_sound in G.
    apply dict_of_list_In in G. eapply Hnn; exact G. }
  pose proof Hc as Hc0. unfold create_message_ids in Hc0.
  apply bind_Ok in Hc0 as (M & HM & _).
  destruct (create_message_ids_spec _ _ HM) as (news & Hc' & Hs & _).
  rewrite Hc' in Hc. injection Hc as <-.
  cbn [msg_to_id with_msg_to_id] in Hg. rewrite dict_get_app in Hg.
  destruct (dict_get m (msg_to_id h)) as [v|] eqn:E.
  - injection Hg as <-. eapply Hbase; exact E.
  - assert (HM0 : 0 <= M).
    { apply py_max_spec in HM as [HinM _].
      apply (proj1 (dict_values_In _ _)) in HinM.
      apply in_map_iff in HinM as ([m0 i0] & Heq & Hin0). simpl in Heq; subst i0.
      apply (Hbase m0). apply In_dict_get; [|exact Hin0].
      rewrite Hb. apply dict_of_list_NoDup. }
    apply dict_get_In in Hg.
    assert (M < i); [|lia].
    apply (In_ids_from M (List.length news)). rewrite <- Hs.
    apply in_map_iff; exists (m, i); auto.
Qed.

(** ** C6 *)

(** C6. After a replay of requests and identifier assignment, with at least
    one command declared and msgproto accepting the format of every
    command: generate_commands_code returns, and the text it returns is
    the array command_index made of the entries below, in their order,
    after the extern declarations of the handler functions; with maxid the
    largest identifier of a command, command_index has Z.to_nat (maxid + 1)
    entries (maxid + 1 when no baseline identifier is negative), entry i
    for every i from 0 to maxid; the entry of an identifier that no
    command has is the empty placeholder " {\n},", without handler or
    parameters; the entry of the identifier of a command names the flags
    and the handler function of that command. *)
Theorem command_index_is_dense :
  forall reqs H H' doc apt,
    replayed reqs H ->
    update_all H [] = Ok (H', doc) ->
    let h := with_all_param_types (cmdgen H') apt in
    commands h <> [] ->
    (forall n c m i,
        dict_get n (commands h) = Some c ->
        dict_get n (messages_by_name h) = Some m ->
        dict_get m (msg_to_id h) = Some i ->
        exists p, MessageFormat i m = Ok p) ->
    exists maxid st text h2,
      commands_loop_run h = Ok st /\
      generate_commands_code h = Ok (text, h2) /\
      text = command_index_text (sorted str_leb (dict_keys (externs st)))
                                (index st) /\
      (exists n c, dict_get n (commands h) = Some c /\
                   command_id h n = Some maxid) /\
      (forall n c i, dict_get n (commands h) = Some c ->
                     command_id h n = Some i -> i <= maxid) /\
      List.length (index st) = Z.to_nat (maxid + 1) /\
      ((forall i m, In (i, m) DefaultMessages -> 0 <= i) ->
       Z.of_nat (List.length (index st)) = maxid + 1) /\
      forall i, 0 <= i <= maxid ->
        ((forall n c, dict_get n (commands h) = Some c ->
                      command_id h n <> Some i) ->
         nth_error (index st) (Z.to_nat i) = Some placeholder_entry) /\
        (forall n f fl,
            dict_get n (commands h) = Some (f, fl, n) ->
            command_id h n = Some i ->
            exists parsercode,
              nth_error (index st) (Z.to_nat i)
              = Some (command_entry parsercode fl f)).
Proof.
  intros reqs H H' doc apt Hr Hu h Hne Hparse.
  destruct (replayed_assigned _ _ _ _ Hr Hu) as (Ha0 & _).
  assert (Ha : assigned h) by (apply assigned_with_all_param_types, Ha0).
  destruct (cmd_by_id_spec h Ha) as (by_id & Hby & Hspec).
  (* the largest identifier *)
  assert (Hkeys : dict_keys by_id <> []).
  { assert (Hex : exists n c, dict_get n (commands h) = Some c).
    { destruct (commands h) as [|[n c] l]; [congruence|].
      exists n, c. simpl. rewrite String.eqb_refl. reflexivity. }
    destruct Hex as (n & c & Hg).
    assert (Hin : In n (referenced h)).
    { apply in_or_app; left. apply dict_keys_In.
      apply dict_get_In in Hg. apply in_map_iff; exists (n, c); auto. }
    apply (as_ref _ Ha), dict_in_true in Hin as [i Hi].
    assert (Hbi : dict_get i by_id = Some c).
    { apply Hspec. exists n. split; [exact Hg|exact Hi]. }
    intros He. apply dict_get_In in Hbi.
    assert (Hik : In i (dict_keys by_id)).
    { apply dict_keys_In, in_map_iff. exists (i, c); auto. }
    rewrite He in Hik; exact Hik. }
  destruct (py_max_nonempty _ Hkeys) as [maxid Hmax].
  pose proof (py_max_spec _ _ Hmax) as [Hmaxin Hmaxle].
  assert (Hkey_iff : forall i, In i (dict_keys by_id) <->
                               exists c, dict_get i by_id = Some c).
  { intros i. rewrite dict_keys_In. split.
    - intros Hin. destruct (dict_get i by_id) as [c|] eqn:E; [eauto|].
      apply (proj1 (dict_get_None_notin _ _)) in E. tauto.
    - intros [c Hc]. apply dict_get_In in Hc.
      apply in_map_iff; exists (i, c); auto. }
  (* the loop *)
  destruct (commands_loop_fold h by_id (range (maxid + 1))
              {| index := []; externs := [];
                 cmd_param_types := all_param_types h |})
    as (st & ents & Hf & Hidx & Hents).
  { intros i f fl n _ Hg. apply Hspec in Hg as (n' & Hc & Hid).
    destruct (inv_cmd_named _ (as_inv _ Ha) _ _ Hc) as [(f' & fl' & Heq) [m Hm]].
    injection Heq as <- <- <-.
    unfold command_id, resolve in Hid. rewrite Hm in Hid.
    destruct (Hparse _ _ _ _ Hc Hm Hid) as [p Hp]. eauto. }
  cbn [index app] in Hidx.
  assert (Hrun : commands_loop_run h = Ok st).
  { unfold commands_loop_run. rewrite Hby. cbn [bind]. rewrite Hmax. exact Hf. }
  exists maxid, st. eexists _, _.
  split; [exact Hrun|].
  split; [unfold generate_commands_code; rewrite Hrun; reflexivity|].
  split; [reflexivity|].
  assert (Hlen : List.length (index st) = Z.to_nat (maxid + 1)).
  { rewrite Hidx, <- (Forall2_length Hents). apply length_range. }
  split; [|split; [|split; [exact Hlen|split]]].
  - apply Hkey_iff in Hmaxin as [c Hc]. apply Hspec in Hc as (n & Hc & Hid).
    eauto.
  - intros n c i Hc Hid. apply Hmaxle, Hkey_iff. exists c. apply Hspec; eauto.
  - intros Hnn. rewrite Hlen.
    assert (0 <= maxid); [|lia].
    apply Hkey_iff in Hmaxin as [c Hc]. apply Hspec in Hc as (n & Hc & Hid).
    unfold command_id in Hid.
    destruct (replayed_inv _ _ Hr) as (_ & Hb & _).
    apply update_all_Ok in Hu as (Hcm & _).
    eapply (assigned_ids_nonneg _ _ Hnn Hb Hcm). exact Hid.
  - intros i Hi.
    destruct (Forall2_nth_error _ _ _ (Z.to_nat i) i Hents)
      as (e & He & Hent); [apply nth_error_range; lia|].
    rewrite Hidx. split.
    + intros Hnone. rewrite He. f_equal. unfold entry_for in Hent.
      destruct (dict_get i by_id) as [[[f fl] n]|] eqn:E; [|exact Hent].
      exfalso. apply Hspec in E as (n' & Hc & Hid). exact (Hnone _ _ Hc Hid).
    + intros n f fl Hc Hid. unfold entry_for in Hent.
      assert (Hbi : dict_get i by_id = Some (f, fl, n)) by (apply Hspec; eauto).
      rewrite Hbi in Hent. destruct Hent as [pc ->]. exists pc. exact He.
Qed.

Lemma dict_items_nil {K V} `{HashOrder K} : dict_items (@nil (K * V)) = [].
Proof. unfold dict_items. apply Permutation_nil, Permutation_sym, hash_order_perm. Qed.

(** Without a command there is no largest command identifier:
    max(cmd_by_id.keys()) raises. *)
Lemma generate_commands_code_no_command h :
  commands h = [] -> generate_commands_code h = Raise ValueError.
Proof.
  intros Hc. unfold generate_commands_code, commands_loop_run, cmd_by_id.
  rewrite Hc, dict_items_nil. cbn [foldM bind].
  unfold dict_keys. rewrite dict_items_nil. reflexivity.
Qed.

(* ================================================================== *)
(** * What build_identify returns *)
(* ================================================================== *)

Lemma build_identify_Ok H version tools H' doc icode :
  build_identify H version tools = Ok (H', doc, icode) ->
  exists data, update_all H [] = Ok (H', data) /\
    json_dumps (PDictS (dict_items
      (dict_set "build_versions" (PStr tools)
         (dict_set "version" (PStr version) data)))) = Ok doc.
Proof.
  unfold build_identify. intros Hb.
  apply bind_Ok in Hb as ([H1 data] & Hu & Hb).
  apply bind_Ok in Hb as (doc' & Hj & Hb).
  injection Hb as <- <- _. exists data. auto.
Qed.

(* ================================================================== *)
(** * Repeated output declarations *)
(* ================================================================== *)



Lemma dup_at_length {A} k (x : A) l :
  List.length (dup_at k x l) = S (List.length l).
Proof.
  unfold dup_at. rewrite length_app. cbn [List.length].
  rewrite Nat.add_succ_r. f_equal.
  rewrite <- length_app, firstn_skipn. reflexivity.
Qed.





















Lemma responses_step_entries m2i st E o m :
  renders st E ->
  (exists i p, dict_get m m2i = Some i /\ parser_for o i m = Ok p) ->
  exists st' E',
    responses_step m2i st (o, m) = Ok st' /\
    renders st' (E ++ E')%list /\
    (forall e, In e E' ->
       e_name e = o /\ e_msg e = m /\ dict_get m m2i = Some (e_id e)).
Proof.
  intros (Hd & Ho & He & Hk & Hnd) (i & p & Hi & Hp).
  unfold responses_step, dict_getitem. rewrite Hi. cbn [bind].
  destruct (dict_in i (did_output st)) eqn:Ed.
  - exists st, []. rewrite app_nil_r. split; [reflexivity|].
    split; [repeat split; auto; apply Hk|intros e []].
  - fold (parser_for o i m). rewrite Hp. cbn [bind].
    destruct (build_parser p false (loop_param_types st)) as [pc apt].
    eexists.
    exists [{| e_name := o; e_msg := m; e_id := i; e_code := pc |}].
    split; [reflexivity|]. split.
    + unfold renders, defs_of, output_lines_of, encoder_lines_of.
      cbn [encoder_defs output_code encoder_code did_output].
      rewrite !filter_app, !map_app. cbn [filter map is_named e_name e_msg e_id e_code].
      split; [rewrite Hd; reflexivity|].
      split; [destruct o; cbn [negb map]; rewrite Ho;
              [rewrite app_nil_r|]; reflexivity|].
      split; [destruct o; cbn [map]; rewrite He;
              [|rewrite app_nil_r]; reflexivity|].
      split.
      * intros j. rewrite in_app_iff. cbn [In]. unfold dict_in.
        rewrite dict_get_set. destruct (key_eqb_spec j i) as [->|Hn].
        -- split; [auto|reflexivity].
        -- rewrite <- Hk. unfold dict_in. split; [auto|].
           intros [H|[H|[]]]; [exact H|congruence].
      * apply NoDup_app; [exact Hnd|repeat constructor; simpl; tauto|].
        intros j Hj [<-|[]]. apply Hk in Hj. congruence.
    + intros e [<-|[]]. auto.
Qed.

Lemma responses_fold_entries m2i P : forall st E,
  renders st E ->
  (forall o m, In (o, m) P ->
     exists i p, dict_get m m2i = Some i /\ parser_for o i m = Ok p) ->
  exists st' E',
    foldM (responses_step m2i) P st = Ok st' /\
    renders st' (E ++ E')%list /\
    (forall e, In e E' ->
       In (e_name e, e_msg e) P /\ dict_get (e_msg e) m2i = Some (e_id e)).
Proof.
  induction P as [|[o m] P IH]; intros st E Hr Hall; cbn [foldM].
  - exists st, []. rewrite app_nil_r. split; [reflexivity|].
    split; [exact Hr|intros e []].
  - destruct (responses_step_entries m2i st E o m Hr)
      as (st1 & E1 & Hs & Hr1 & He1); [apply Hall; left; reflexivity|].
    rewrite Hs. cbn [bind].
    destruct (IH st1 (E ++ E1)%list Hr1) as (st' & E2 & Hf & Hr2 & He2).
    { intros o' m' Hin. apply Hall; right; exact Hin. }
    exists st', (E1 ++ E2)%list. split; [exact Hf|].
    split; [rewrite app_assoc; exact Hr2|].
    intros e Hin. apply in_app_or in Hin as [Hin|Hin].
    + destruct (He1 _ Hin) as (-> & -> & Hg). split; [left; reflexivity|exact Hg].
    + destruct (He2 _ Hin) as [Hin' Hg]. split; [right; exact Hin'|exact Hg].
Qed.





(** ** C8 *)



(* ================================================================== *)
(** * The request file and the main loop *)
(* ================================================================== *)

Lemma split_on_nonempty c s : split_on c s <> [].
Proof.
  destruct s as [|a s]; cbn [split_on]; [discriminate|].
  destruct (Ascii.eqb a c); [discriminate|].
  destruct (split_on c s); discriminate.
Qed.

Lemma split_on_app c s t :
  split_on c (s ++ String c t) = (split_on c s ++ split_on c t)%list.
Proof.
  induction s as [|a s IH]; cbn [append split_on app].
  - rewrite Ascii.eqb_refl. reflexivity.
  - rewrite IH. destruct (Ascii.eqb a c); [reflexivity|].
    destruct (split_on c s) as [|u us] eqn:E; [|reflexivity].
    exfalso. exact (split_on_nonempty _ _ E).
Qed.

Lemma split_on_absent c s : contains_char c s = false -> split_on c s = [s].
Proof.
  induction s as [|a s IH]; cbn [contains_char split_on]; [reflexivity|].
  destruct (Ascii.eqb a c); [discriminate|]. cbn [orb].
  intros Hs. rewrite (IH Hs). reflexivity.
Qed.

(** X1. A file made of records that hold no NUL byte, joined by NUL
    bytes, is cut by data.split('\0') into exactly those records. *)
Theorem split_on_join_records :
  forall reqs : list string,
    reqs <> [] ->
    (forall r, In r reqs -> contains_char NUL r = false) ->
    split_on NUL (join (String NUL "") reqs) = reqs.
Proof.
  induction reqs as [|r reqs IH]; [congruence|]. intros _ Hall.
  destruct reqs as [|r2 reqs].
  - cbn [join String.concat]. apply split_on_absent, Hall. left; reflexivity.
  - change (join (String NUL "") (r :: r2 :: reqs))
      with (r ++ String NUL (join (String NUL "") (r2 :: reqs))).
    rewrite split_on_app, split_on_absent by (apply Hall; left; reflexivity).
    cbn [app]. f_equal. apply IH; [discriminate|].
    intros r' Hin. apply Hall. right; exact Hin.
Qed.

Lemma handle_request_blank H r : lstrip r = "" -> handle_request H r = Ok H.
Proof. intros Hr. unfold handle_request. rewrite Hr. reflexivity. Qed.

Lemma main_same_parse env data data' :
  (forall H, parse_request_file data' H = parse_request_file data H) ->
  main env data' = main env data.
Proof.
  intros Hp. unfold main. destruct Handlers as [H0|e]; [|reflexivity].
  rewrite Hp. reflexivity.
Qed.

(** X2. A last record that is empty or made of white space only, as the
    one after the NUL byte that ends the file, is skipped: the run ends
    as the run on the file without it. *)
Theorem trailing_blank_record_is_skipped :
  forall env data ws,
    lstrip ws = "" ->
    contains_char NUL ws = false ->
    main env (data ++ String NUL ws) = main env data.
Proof.
  intros env data ws Hws Hnul. apply main_same_parse. intros H.
  unfold parse_request_file.
  rewrite split_on_app, (split_on_absent _ _ Hnul), foldM_app.
  destruct (foldM handle_request (split_on NUL data) H) as [H1|e];
    [|reflexivity].
  cbn [bind foldM]. rewrite (handle_request_blank _ _ Hws). reflexivity.
Qed.

Lemma ctr_dispatch_unknown cmd :
  ~ In cmd directives -> ctr_dispatch cmd = None.
Proof.
  intros Hn. unfold ctr_dispatch.
  repeat match goal with
         | |- context [String.eqb cmd ?d] =>
             destruct (String.eqb_spec cmd d) as [->|_];
             [exfalso; apply Hn; cbn; tauto|]
         end.
  reflexivity.
Qed.

(** X3. A record whose first word is none of the six directives stops
    the run, once the records before it have gone through, with
    error("Unknown build time command '...'"): status -1 and nothing
    opened or written. *)
Theorem unknown_directive_is_fatal :
  forall env data pre r post cmd H,
    split_on NUL data = (pre ++ r :: post)%list ->
    replayed pre H ->
    first_token r = Some cmd ->
    ~ In cmd directives ->
    handle_request H r = Raise (unknown_command cmd) /\
    main env data = stop [] (unknown_command cmd) /\
    exit_status (main env data) = -1.
Proof.
  intros env data pre r post cmd H Hdata (H0 & Hh & Hf) Hcmd Hn.
  assert (Hr : handle_request H r = Raise (unknown_command cmd)).
  { unfold handle_request. unfold first_token in Hcmd.
    destruct (String.eqb_spec (lstrip r) "") as [He|_].
    { unfold split in Hcmd. rewrite (split_max_nil _ _ He) in Hcmd.
      discriminate. }
    rewrite split_lstrip. unfold list_getitem. rewrite Hcmd. cbn [bind].
    rewrite (ctr_dispatch_unknown _ Hn). reflexivity. }
  split; [exact Hr|].
  assert (Hm : main env data = stop [] (unknown_command cmd)).
  { apply (main_parse_error _ _ _ _ Hh). unfold parse_request_file.
    rewrite Hdata. apply (foldM_fails _ _ _ _ _ _ _ Hf Hr). }
  split; [exact Hm|]. rewrite Hm. reflexivity.
Qed.


(* ================================================================== *)
(** * Call lists, static strings and constants *)
(* ================================================================== *)

Lemma split_blank r : lstrip r = "" -> split r = [].
Proof. intros Hr. unfold split. apply split_max_nil, Hr. Qed.

(** Which handler a request goes to. *)
Lemma handle_request_cases H r H' :
  handle_request H r = Ok H' ->
  (split r = [] /\ H' = H) \/
  exists cmd rest, split r = cmd :: rest /\
    ((cmd = "_DECL_CALLLIST" /\
      exists h, decl_calllist (lstrip r) (calllist H) = Ok h /\
                H' = {| calllist := h; staticstr := staticstr H;
                        consts := consts H; cmdgen := cmdgen H |}) \/
     (cmd = "_DECL_STATIC_STR" /\
      exists h, decl_static_str (lstrip r) (staticstr H) = Ok h /\
                H' = {| calllist := calllist H; staticstr := h;
                        consts := consts H; cmdgen := cmdgen H |}) \/
     (cmd = "_DECL_CONSTANT" /\
      exists h, decl_constant (lstrip r) (consts H) = Ok h /\
                H' = {| calllist := calllist H; staticstr := staticstr H;
                        consts := h; cmdgen := cmdgen H |}) \/
     (cmd <> "_DECL_CALLLIST" /\ cmd <> "_DECL_STATIC_STR" /\
      cmd <> "_DECL_CONSTANT" /\
      calllist H' = calllist H /\ staticstr H' = staticstr H /\
      consts H' = consts H)).
Proof.
  unfold handle_request.
  destruct (String.eqb_spec (lstrip r) "") as [He|Hne].
  { intros Heq; injection Heq as <-. left. split; [apply split_blank, He|auto]. }
  rewrite split_lstrip. intros Hb. apply bind_Ok in Hb as (cmd & Hc & Hk).
  apply list_getitem_Ok in Hc.
  destruct (split r) as [|cmd' rest] eqn:Es; [discriminate|].
  cbn [nth_error] in Hc. injection Hc as ->.
  right. exists cmd, rest. split; [reflexivity|].
  unfold ctr_dispatch in Hk.
  destruct (String.eqb_spec cmd "_DECL_CALLLIST") as [->|N1].
  { left. split; [reflexivity|].
    apply bind_Ok in Hk as (h & Hh & Hk). injection Hk as <-. eauto. }
  destruct (String.eqb_spec cmd "_DECL_STATIC_STR") as [->|N2].
  { right; left. split; [reflexivity|].
    apply bind_Ok in Hk as (h & Hh & Hk). injection Hk as <-. eauto. }
  destruct (String.eqb_spec cmd "_DECL_CONSTANT") as [->|N3].
  { right; right; left. split; [reflexivity|].
    apply bind_Ok in Hk as (h & Hh & Hk). injection Hk as <-. eauto. }
  right; right; right.
  repeat match type of Hk with
         | context [if ?b then _ else _] => destruct b
         end; try discriminate;
    apply bind_Ok in Hk as (h & _ & Hk); injection Hk as <-;
    repeat split; auto.
Qed.

Lemma decl_calllist_Ok req h h' :
  decl_calllist req h = Ok h' ->
  exists cmd f c,
    split req = [cmd; f; c] /\
    call_lists h' =
    dict_set f (match dict_get f (call_lists h) with
                | Some l => l
                | None => []
                end ++ [c])%list (call_lists h).
Proof.
  unfold decl_calllist.
  destruct (split req) as [|cmd [|f [|c [|? ?]]]]; cbn [skipn];
    try discriminate.
  intros Heq; injection Heq as <-. exists cmd, f, c. split; reflexivity.
Qed.

Lemma calls_for_app f l1 l2 :
  calls_for f (l1 ++ l2) = (calls_for f l1 ++ calls_for f l2)%list.
Proof. unfold calls_for. apply flat_map_app. Qed.

Lemma calllist_step H r H' done f :
  handle_request H r = Ok H' ->
  dict_get f (call_lists (calllist H)) = calls_expected f done ->
  dict_get f (call_lists (calllist H')) = calls_expected f (done ++ [r]).
Proof.
  intros Hr Hinv. unfold calls_expected in *.
  rewrite calls_for_app. unfold calls_for at 2. cbn [flat_map].
  rewrite app_nil_r.
  apply handle_request_cases in Hr
    as [[Hs ->]|(cmd & rest & Hs & [(-> & h & Hd & ->)|Hr])].
  - unfold calllist_of. rewrite Hs, app_nil_r. exact Hinv.
  - cbn [calllist].
    apply decl_calllist_Ok in Hd as (cmd' & f0 & c & Hs' & ->).
    rewrite split_lstrip, Hs in Hs'. injection Hs' as <- ->.
    unfold calllist_of. rewrite Hs. cbn [String.eqb Ascii.eqb Bool.eqb].
    rewrite dict_get_set.
    destruct (String.eqb_spec f0 f) as [->|Hn].
    + rewrite key_eqb_refl, Hinv.
      destruct (calls_for f done) as [|x l] eqn:Ec.
      * destruct (String.eqb f "ctr_run_initfuncs"); reflexivity.
      * reflexivity.
    + rewrite key_eqb_neq by congruence. rewrite app_nil_r. exact Hinv.
  - assert (Hsame : call_lists (calllist H') = call_lists (calllist H) /\
                    calllist_of r = None).
    { unfold calllist_of. rewrite Hs.
      destruct Hr as [(-> & h & _ & ->)|[(-> & h & _ & ->)|(N1 & _ & _ & -> & _)]].
      - split; [reflexivity|]. destruct rest as [|? [|? [|? ?]]]; reflexivity.
      - split; [reflexivity|]. destruct rest as [|? [|? [|? ?]]]; reflexivity.
      - split; [reflexivity|].
        destruct (String.eqb_spec cmd "_DECL_CALLLIST"); [contradiction|].
        destruct rest as [|? [|? [|? ?]]]; reflexivity. }
    destruct Hsame as [-> ->]. rewrite app_nil_r. exact Hinv.
Qed.

Lemma foldM_invariant_snoc {A S} (f : S -> A -> result S)
      (P : S -> list A -> Prop) :
  (forall s a s' done, f s a = Ok s' -> P s done -> P s' (done ++ [a])%list) ->
  forall l s s' done,
    foldM f l s = Ok s' -> P s done -> P s' (done ++ l)%list.
Proof.
  intros Hstep. induction l as [|a l IH]; intros s s' done Hf HP;
    cbn [foldM] in Hf.
  - injection Hf as <-. rewrite app_nil_r. exact HP.
  - apply bind_Ok in Hf as (s1 & Ha & Hf).
    change (done ++ a :: l)%list with (done ++ [a] ++ l)%list.
    rewrite app_assoc. apply (IH _ _ _ Hf). eapply Hstep; eauto.
Qed.

Lemma Handlers_Ok H0 :
  Handlers = Ok H0 ->
  calllist H0 = HandleCallList_init /\
  staticstr H0 = HandleStaticStrings_init /\
  consts H0 = HandleConstants_init.
Proof.
  unfold Handlers. intros Hb. apply bind_Ok in Hb as (h & _ & Hb).
  injection Hb as <-. auto.
Qed.

(** X5. After a replay of requests, call_lists holds under every function
    name the call names that the _DECL_CALLLIST requests gave for it, in
    the order of the requests; 'ctr_run_initfuncs' is a key even with no
    request for it, and a name with no request is no key. *)
Theorem call_lists_keep_declaration_order :
  forall reqs H,
    replayed reqs H ->
    forall f,
      dict_get f (call_lists (calllist H)) =
      match calls_for f reqs with
      | [] => if String.eqb f "ctr_run_initfuncs" then Some [] else None
      | l => Some l
      end.
Proof.
  intros reqs H (H0 & Hh & Hf) f.
  apply Handlers_Ok in Hh as (Hc & _).
  change (dict_get f (call_lists (calllist H)) = calls_expected f ([] ++ reqs)).
  apply (foldM_invariant_snoc handle_request
           (fun H done => dict_get f (call_lists (calllist H))
                          = calls_expected f done)
           (fun s a s' done => calllist_step s a s' done f) _ _ _ _ Hf).
  rewrite Hc. unfold calls_expected. cbn.
  destruct (String.eqb_spec f "ctr_run_initfuncs") as [->|Hn].
  - reflexivity.
  - destruct (String.eqb_spec f "ctr_run_initfuncs"); [contradiction|].
    destruct (String.eqb_spec "ctr_run_initfuncs" f); [congruence|reflexivity].
Qed.

(** What the first three handlers put into the data dictionary stays
    there. *)
Lemma cmdgen_update_frame h data h' doc k :
  cmdgen_update_data_dictionary h data = Ok (h', doc) ->
  k <> "messages" -> k <> "commands" -> k <> "responses" ->
  dict_get k doc = dict_get k data.
Proof.
  unfold cmdgen_update_data_dictionary. intros Hb N1 N2 N3.
  apply bind_Ok in Hb as (h1 & _ & Hb). cbv zeta in Hb.
  apply bind_Ok in Hb as (cmds & _ & Hb).
  apply bind_Ok in Hb as (resps & _ & Hb).
  injection Hb as _ <-.
  rewrite !dict_get_set_neq by congruence. reflexivity.
Qed.

Lemma update_all_static_strings H H' doc :
  update_all H [] = Ok (H', doc) ->
  dict_get "static_strings" doc =
  Some (PDictI (map (fun '(i, s) => (i, PStr s))
                    (dict_items (dict_of_list
                                   (numbered_from 0 (static_strings (staticstr H))))))).
Proof.
  rewrite update_all_eq. intros Hb.
  apply bind_Ok in Hb as ([h doc'] & Hu & Hb). injection Hb as _ <-.
  rewrite (cmdgen_update_frame _ _ _ _ "static_strings" Hu)
    by discriminate.
  unfold constants_update_data_dictionary.
  rewrite dict_get_set_neq by discriminate.
  unfold staticstr_update_data_dictionary. apply dict_get_set_eq.
Qed.

Lemma update_all_config H H' doc :
  update_all H [] = Ok (H', doc) ->
  dict_get "config" doc =
  Some (PDictS (map (fun '(k, v) => (k, PStr v))
                    (dict_items (constants (consts H))))).
Proof.
  rewrite update_all_eq. intros Hb.
  apply bind_Ok in Hb as ([h doc'] & Hu & Hb). injection Hb as _ <-.
  rewrite (cmdgen_update_frame _ _ _ _ "config" Hu) by discriminate.
  unfold constants_update_data_dictionary. apply dict_get_set_eq.
Qed.

Lemma dict_of_list_get {K V} `{EqKey K} (l : list (K * V)) k :
  NoDup (map fst l) -> dict_get k (dict_of_list l) = dict_get k l.
Proof.
  intros Hnd. destruct (dict_get k (dict_of_list l)) as [v|] eqn:E.
  - apply dict_of_list_In in E. symmetry. apply In_dict_get; assumption.
  - symmetry. apply dict_get_None_notin. intros Hin.
    destruct (dict_of_list_covers l k Hin) as (v & Hv). congruence.
Qed.

Lemma numbered_from_keys a l :
  map fst (numbered_from a l)
  = map (fun j => Z.of_nat j + STATIC_STRING_MIN) (seq a (List.length l)).
Proof.
  unfold numbered_from. revert a.
  induction l as [|x l IH]; intros a; cbn; [reflexivity|].
  f_equal. apply IH.
Qed.

Lemma numbered_from_NoDup a l : NoDup (map fst (numbered_from a l)).
Proof.
  rewrite numbered_from_keys.
  apply Finite.Injective_map_NoDup; [|apply seq_NoDup].
  intros i j Hij. lia.
Qed.

Lemma numbered_from_get a l k :
  dict_get k (numbered_from a l) =
  if Z.leb (Z.of_nat a + STATIC_STRING_MIN) k
  then nth_error l (Z.to_nat (k - (Z.of_nat a + STATIC_STRING_MIN)))
  else None.
Proof.
  revert a. induction l as [|x l IH]; intros a.
  - cbn. destruct (Z.leb _ k); [|reflexivity].
    destruct (Z.to_nat _); reflexivity.
  - change (numbered_from a (x :: l))
      with ((Z.of_nat a + STATIC_STRING_MIN, x) :: numbered_from (S a) l).
    cbn [dict_get]. rewrite IH.
    destruct (key_eqb_spec k (Z.of_nat a + STATIC_STRING_MIN)) as [->|Hn].
    + rewrite Z.leb_refl, Z.sub_diag. reflexivity.
    + destruct (Z.leb_spec (Z.of_nat (S a) + STATIC_STRING_MIN) k) as [Hle|Hlt].
      * destruct (Z.leb_spec (Z.of_nat a + STATIC_STRING_MIN) k); [|lia].
        replace (Z.to_nat (k - (Z.of_nat a + STATIC_STRING_MIN)))
          with (S (Z.to_nat (k - (Z.of_nat (S a) + STATIC_STRING_MIN))))
          by lia.
        reflexivity.
      * destruct (Z.leb_spec (Z.of_nat a + STATIC_STRING_MIN) k); [lia|].
        reflexivity.
Qed.

Lemma decl_static_str_Ok req h h' :
  decl_static_str req h = Ok h' ->
  exists msg, nth_error (split_max 1 req) 1 = Some msg /\
              static_strings h' = (static_strings h ++ [msg])%list.
Proof.
  unfold decl_static_str. intros Hb.
  apply bind_Ok in Hb as (msg & Hm & Hb). apply list_getitem_Ok in Hm.
  injection Hb as <-. eauto.
Qed.

Lemma static_strs_app l1 l2 :
  static_strs (l1 ++ l2) = (static_strs l1 ++ static_strs l2)%list.
Proof. unfold static_strs. apply flat_map_app. Qed.

Lemma static_str_step H r H' done :
  handle_request H r = Ok H' ->
  static_strings (staticstr H) = static_strs done ->
  static_strings (staticstr H') = static_strs (done ++ [r]).
Proof.
  intros Hr Hinv. rewrite static_strs_app.
  unfold static_strs at 2. cbn [flat_map]. rewrite app_nil_r.
  unfold static_str_of.
  apply handle_request_cases in Hr
    as [[Hs ->]|(cmd & rest & Hs & Hr)]; rewrite Hs.
  - rewrite app_nil_r. exact Hinv.
  - destruct Hr as [(-> & h & _ & ->)|[(-> & h & Hd & ->)
                   |[(-> & h & _ & ->)|(_ & N2 & _ & _ & -> & _)]]].
    + cbn. rewrite app_nil_r. exact Hinv.
    + cbn [staticstr String.eqb Ascii.eqb Bool.eqb].
      apply decl_static_str_Ok in Hd as (msg & Hm & ->).
      rewrite split_max_lstrip in Hm. rewrite Hm, Hinv. reflexivity.
    + cbn. rewrite app_nil_r. exact Hinv.
    + destruct (String.eqb_spec cmd "_DECL_STATIC_STR"); [contradiction|].
      rewrite app_nil_r. exact Hinv.
Qed.

Lemma replayed_static_strings reqs H :
  replayed reqs H -> static_strings (staticstr H) = static_strs reqs.
Proof.
  intros (H0 & Hh & Hf). apply Handlers_Ok in Hh as (_ & Hs & _).
  change reqs with ([] ++ reqs)%list.
  apply (foldM_invariant_snoc handle_request
           (fun H done => static_strings (staticstr H) = static_strs done)
           static_str_step _ _ _ _ Hf).
  rewrite Hs. reflexivity.
Qed.

(** X6. In the data dictionary, 'static_strings' maps STATIC_STRING_MIN + i
    to the string of the i-th _DECL_STATIC_STR request, in the order of the
    requests and with repetitions kept; it holds no other key. *)
Theorem static_strings_numbered_in_request_order :
  forall reqs H H' doc,
    replayed reqs H ->
    update_all H [] = Ok (H', doc) ->
    exists d,
      dict_get "static_strings" doc = Some (PDictI d) /\
      forall k,
        dict_get k d =
        if Z.leb STATIC_STRING_MIN k
        then option_map PStr
               (nth_error (static_strs reqs) (Z.to_nat (k - STATIC_STRING_MIN)))
        else None.
Proof.
  intros reqs H H' doc Hrep Hu.
  eexists. split; [apply (update_all_static_strings _ _ _ Hu)|].
  intros k. rewrite (dict_get_map_values PStr).
  rewrite dict_get_items by apply dict_of_list_NoDup.
  rewrite dict_of_list_get by apply numbered_from_NoDup.
  rewrite numbered_from_get, (replayed_static_strings _ _ Hrep).
  change (Z.of_nat 0 + STATIC_STRING_MIN) with STATIC_STRING_MIN.
  destruct (Z.leb STATIC_STRING_MIN k); reflexivity.
Qed.

(* ------------------------------------------------------------------ *)
(** ** Constants *)

Lemma decl_constant_Ok req h h' :
  decl_constant req h = Ok h' ->
  exists cmd cname value,
    split req = [cmd; cname; value] /\
    (dict_get cname (constants h) = None \/
     dict_get cname (constants h) = Some (unquote value)) /\
    constants h' = dict_set cname (unquote value) (constants h).
Proof.
  unfold decl_constant.
  destruct (split req) as [|cmd [|cname [|value [|? ?]]]]; cbn [skipn];
    try discriminate.
  cbv zeta. fold (unquote value).
  destruct (dict_get cname (constants h)) as [old|] eqn:Eo.
  - destruct (String.eqb_spec old (unquote value)) as [->|Hn];
      cbn [negb]; [|discriminate].
    intros Heq; injection Heq as <-. exists cmd, cname, value. auto.
  - intros Heq; injection Heq as <-. exists cmd, cname, value. auto.
Qed.

Lemma decl_constant_conflict req h cmd cname value old :
  split req = [cmd; cname; value] ->
  dict_get cname (constants h) = Some old ->
  old <> unquote value ->
  decl_constant req h = Raise (conflicting_constant cname).
Proof.
  intros Hs Ho Hn. unfold decl_constant. rewrite Hs. cbn [skipn].
  cbv zeta. fold (unquote value). rewrite Ho.
  destruct (String.eqb_spec old (unquote value)); [contradiction|].
  reflexivity.
Qed.

Lemma constant_of_Some r n v :
  constant_of r = Some (n, v) ->
  exists value, split r = ["_DECL_CONSTANT"; n; value] /\ v = unquote value.
Proof.
  unfold constant_of.
  destruct (split r) as [|cmd [|cname [|value [|? ?]]]]; try discriminate.
  destruct (String.eqb_spec cmd "_DECL_CONSTANT") as [->|]; [|discriminate].
  intros Heq; injection Heq as <- <-. eauto.
Qed.

Lemma constants_step H r H' done :
  handle_request H r = Ok H' ->
  constants_recorded H done -> constants_recorded H' (done ++ [r]).
Proof.
  intros Hr [Hnd Hinv].
  assert (Hother : constants (consts H') = constants (consts H) ->
                   constant_of r = None ->
                   constants_recorded H' (done ++ [r])).
  { intros Hc Hn. split; rewrite Hc; [exact Hnd|].
    intros n v. rewrite Hinv. split.
    - intros (r' & Hin & Hr'). exists r'. split; [|exact Hr'].
      apply in_or_app; left; exact Hin.
    - intros (r' & Hin & Hr'). apply in_app_or in Hin as [Hin|[<-|[]]].
      + eauto.
      + congruence. }
  apply handle_request_cases in Hr
    as [[Hs ->]|(cmd & rest & Hs & Hr)].
  { apply Hother; [reflexivity|]. unfold constant_of. rewrite Hs. reflexivity. }
  destruct Hr as [(-> & h & _ & ->)|[(-> & h & _ & ->)
                 |[(-> & h & Hd & ->)|(_ & _ & N3 & _ & _ & Hc)]]].
  - apply Hother; [reflexivity|]. unfold constant_of. rewrite Hs.
    destruct rest as [|? [|? [|? ?]]]; reflexivity.
  - apply Hother; [reflexivity|]. unfold constant_of. rewrite Hs.
    destruct rest as [|? [|? [|? ?]]]; reflexivity.
  - apply decl_constant_Ok in Hd as (cmd' & cname & value & Hs' & Hold & Hc).
    rewrite split_lstrip, Hs in Hs'. injection Hs' as <- ->.
    assert (Hcr : constant_of r = Some (cname, unquote value)).
    { unfold constant_of. rewrite Hs. reflexivity. }
    split; cbn [consts]; rewrite Hc; [apply dict_set_NoDup, Hnd|].
    intros n v. rewrite dict_get_set.
    destruct (String.eqb_spec cname n) as [->|Hne].
    + rewrite key_eqb_refl. split.
      * intros Heq; injection Heq as <-. exists r. split; [|exact Hcr].
        apply in_or_app; right; left; reflexivity.
      * intros (r' & Hin & Hr'). apply in_app_or in Hin as [Hin|[<-|[]]].
        -- assert (Hg : dict_get n (constants (consts H)) = Some v)
             by (apply Hinv; eauto).
           destruct Hold as [Hold|Hold]; congruence.
        -- congruence.
    + rewrite key_eqb_neq by congruence. rewrite Hinv. split.
      * intros (r' & Hin & Hr'). exists r'. split; [|exact Hr'].
        apply in_or_app; left; exact Hin.
      * intros (r' & Hin & Hr'). apply in_app_or in Hin as [Hin|[<-|[]]].
        -- eauto.
        -- congruence.
  - apply Hother; [rewrite Hc; reflexivity|]. unfold constant_of. rewrite Hs.
    destruct (String.eqb_spec cmd "_DECL_CONSTANT"); [contradiction|].
    destruct rest as [|? [|? [|? ?]]]; reflexivity.
Qed.

Lemma replayed_constants reqs H :
  replayed reqs H -> constants_recorded H reqs.
Proof.
  intros (H0 & Hh & Hf). apply Handlers_Ok in Hh as (_ & _ & Hc).
  change reqs with ([] ++ reqs)%list.
  apply (foldM_invariant_snoc handle_request constants_recorded
           constants_step _ _ _ _ Hf).
  split; rewrite Hc; cbn; [constructor|].
  intros n v. split; [discriminate|intros (r & [] & _)].
Qed.

(** X7. In the data dictionary, 'config' holds exactly the constants that
    the _DECL_CONSTANT requests declared: a name is a key when a request
    declares it, and its value is the declared one without its quotes;
    so all the requests for one name that went through declared one
    value. *)
Theorem config_holds_the_declared_constants :
  forall reqs H H' doc,
    replayed reqs H ->
    update_all H [] = Ok (H', doc) ->
    exists cfg,
      dict_get "config" doc = Some (PDictS cfg) /\
      forall n x,
        dict_get n cfg = Some x <->
        exists r v, In r reqs /\ constant_of r = Some (n, v) /\ x = PStr v.
Proof.
  intros reqs H H' doc Hrep Hu.
  destruct (replayed_constants _ _ Hrep) as [Hnd Hinv].
  eexists. split; [apply (update_all_config _ _ _ Hu)|].
  intros n x. rewrite (dict_get_map_values PStr).
  rewrite dict_get_items by exact Hnd. split.
  - destruct (dict_get n (constants (consts H))) as [v|] eqn:E;
      [|discriminate].
    cbn. intros Heq; injection Heq as <-.
    apply Hinv in E as (r & Hin & Hr). eauto.
  - intros (r & v & Hin & Hr & ->).
    rewrite (proj2 (Hinv n v)) by eauto. reflexivity.
Qed.

(** X8. A _DECL_CONSTANT request that gives a name another value than an
    earlier request did stops the run, once the requests before it have
    gone through, with error("Conflicting definition for constant
    '...'"): status -1 and nothing opened or written. *)
Theorem conflicting_constant_is_fatal :
  forall env data pre r0 r post H n v0 v,
    split_on NUL data = (pre ++ r :: post)%list ->
    replayed pre H ->
    In r0 pre ->
    constant_of r0 = Some (n, v0) ->
    constant_of r = Some (n, v) ->
    v0 <> v ->
    handle_request H r = Raise (conflicting_constant n) /\
    main env data = stop [] (conflicting_constant n) /\
    exit_status (main env data) = -1.
Proof.
  intros env data pre r0 r post H n v0 v Hdata Hrep Hin Hr0 Hr Hne.
  destruct (replayed_constants _ _ Hrep) as [_ Hinv].
  assert (Hold : dict_get n (constants (consts H)) = Some v0)
    by (apply Hinv; eauto).
  apply constant_of_Some in Hr as (value & Hs & ->).
  assert (Hreq : handle_request H r = Raise (conflicting_constant n)).
  { unfold handle_request.
    destruct (String.eqb_spec (lstrip r) "") as [He|_].
    { rewrite (split_blank _ He) in Hs. discriminate. }
    rewrite split_lstrip, Hs. cbn [list_getitem nth_error bind].
    cbn [ctr_dispatch String.eqb Ascii.eqb Bool.eqb].
    rewrite (decl_constant_conflict (lstrip r) (consts H)
               "_DECL_CONSTANT" n value v0);
      [reflexivity|rewrite split_lstrip; exact Hs|exact Hold|exact Hne]. }
  split; [exact Hreq|].
  destruct Hrep as (H0 & Hh & Hf).
  assert (Hm : main env data = stop [] (conflicting_constant n)).
  { apply (main_parse_error _ _ _ _ Hh). unfold parse_request_file.
    rewrite Hdata. apply (foldM_fails _ _ _ _ _ _ _ Hf Hreq). }
  split; [exact Hm|]. rewrite Hm. reflexivity.
Qed.

(* ================================================================== *)
(** * The words of a request *)
(* ================================================================== *)

Lemma append_nil_r s : s ++ "" = s.
Proof. induction s as [|c s IH]; cbn; [reflexivity|]. rewrite IH. reflexivity. Qed.

Lemma length_append s t :
  String.length (s ++ t) = (String.length s + String.length t)%nat.
Proof. induction s as [|c s IH]; cbn; [reflexivity|]. rewrite IH. reflexivity. Qed.

Lemma token_app t r :
  no_space t = true -> blank_head r = true -> token (t ++ r) = t.
Proof.
  intros Ht Hr. induction t as [|a t IH]; cbn [append].
  - destruct r as [|c r]; cbn in *; [reflexivity|]. rewrite Hr. reflexivity.
  - cbn [no_space] in Ht. apply andb_prop in Ht as [Ha Ht].
    cbn [token]. destruct (isspace a); [discriminate|].
    rewrite (IH Ht). reflexivity.
Qed.

Lemma after_token_app t r :
  no_space t = true -> blank_head r = true -> after_token (t ++ r) = r.
Proof.
  intros Ht Hr. induction t as [|a t IH]; cbn [append].
  - destruct r as [|c r]; cbn in *; [reflexivity|]. rewrite Hr. reflexivity.
  - cbn [no_space] in Ht. apply andb_prop in Ht as [Ha Ht].
    cbn [after_token]. destruct (isspace a); [discriminate|].
    apply (IH Ht).
Qed.

Lemma lstrip_token_app t r : is_token t -> lstrip (t ++ r) = t ++ r.
Proof.
  intros [Hne Ht]. destruct t as [|a t]; [congruence|].
  cbn [no_space] in Ht. apply andb_prop in Ht as [Ha _].
  cbn [append lstrip]. destruct (isspace a); [discriminate|reflexivity].
Qed.

Lemma split_max_token_app n t r :
  is_token t -> blank_head r = true ->
  split_max (S n) (t ++ r) = t :: split_max n r.
Proof.
  intros Ht Hr. pose proof (lstrip_token_app t r Ht) as Hl.
  destruct Ht as [Hne Ht]. destruct t as [|a t]; [congruence|].
  cbn [append] in Hl. rewrite (split_max_S _ _ _ _ Hl).
  change (String a (t ++ r)) with (String a t ++ r).
  rewrite (token_app _ _ Ht Hr), (after_token_app _ _ Ht Hr). reflexivity.
Qed.

Lemma split_token_app t r :
  is_token t -> blank_head r = true -> split (t ++ r) = t :: split r.
Proof.
  intros Ht Hr. unfold split. rewrite length_append.
  destruct (String.length t) as [|k] eqn:Ek.
  { destruct Ht as [Hne _]. destruct t; [congruence|discriminate]. }
  cbn [Nat.add]. rewrite (split_max_token_app _ _ _ Ht Hr). f_equal.
  pose proof (lstrip_length r). apply split_max_enough; lia.
Qed.

Lemma split_max_0 r :
  split_max 0 r = match lstrip r with EmptyString => [] | s1 => [s1] end.
Proof. reflexivity. Qed.

Lemma split_over_blank c r : isspace c = true -> split (String c r) = split r.
Proof.
  intros Hc. rewrite <- (split_lstrip (String c r)). cbn [lstrip].
  rewrite Hc. apply split_lstrip.
Qed.

Lemma split_token t : is_token t -> split t = [t].
Proof.
  intros Ht. rewrite <- (append_nil_r t) at 1.
  rewrite (split_token_app t "" Ht eq_refl). reflexivity.
Qed.

(** Three words with one blank between them. *)
Lemma split_three a b c :
  is_token a -> is_token b -> is_token c ->
  split (a ++ " " ++ b ++ " " ++ c) = [a; b; c].
Proof.
  intros Ha Hb Hc.
  rewrite (split_token_app a (" " ++ b ++ " " ++ c) Ha eq_refl).
  change (" " ++ b ++ " " ++ c) with (String " " (b ++ " " ++ c)).
  rewrite (split_over_blank " " (b ++ " " ++ c) eq_refl).
  rewrite (split_token_app b (" " ++ c) Hb eq_refl).
  change (" " ++ c) with (String " " c).
  rewrite (split_over_blank " " c eq_refl), (split_token _ Hc). reflexivity.
Qed.

Lemma is_token_literal t : t <> "" -> no_space t = true -> is_token t.
Proof. intros; split; assumption. Qed.

(** The request of a directive goes to its handler as it is. *)
Lemma handle_request_directive H cmd rest :
  is_token cmd -> blank_head rest = true ->
  handle_request H (cmd ++ rest) =
  match ctr_dispatch cmd with
  | None => error ("Unknown build time command '" ++ cmd ++ "'")
  | Some handler => handler (cmd ++ rest) H
  end.
Proof.
  intros Hc Hr. unfold handle_request. rewrite (lstrip_token_app _ _ Hc).
  destruct (String.eqb_spec (cmd ++ rest) "") as [He|_].
  { destruct Hc as [Hne _]. destruct cmd; [congruence|discriminate]. }
  rewrite (split_token_app _ _ Hc Hr). reflexivity.
Qed.

(* ------------------------------------------------------------------ *)
(** ** Quoted constants *)

Lemma no_space_rstrip s : no_space s = true -> rstrip s = s.
Proof.
  induction s as [|c s IH]; cbn [no_space rstrip]; [reflexivity|].
  intros Hs. apply andb_prop in Hs as [Hc Hs]. rewrite (IH Hs).
  destruct s; [|reflexivity].
  destruct (isspace c); [discriminate|reflexivity].
Qed.

Lemma no_space_strip s : no_space s = true -> strip s = s.
Proof.
  intros Hs. unfold strip. rewrite (no_space_lstrip _ Hs).
  apply no_space_rstrip, Hs.
Qed.

Lemma no_space_app s t :
  no_space s = true -> no_space t = true -> no_space (s ++ t) = true.
Proof.
  intros Hs Ht. induction s as [|c s IH]; cbn [append no_space] in *;
    [exact Ht|].
  apply andb_prop in Hs as [Hc Hs]. rewrite Hc, (IH Hs). reflexivity.
Qed.

Lemma ends_with_dq_app s : ends_with_dq (s ++ DQ) = true.
Proof.
  induction s as [|c s IH]; [reflexivity|].
  cbn [append]. cbn [ends_with_dq].
  destruct (s ++ DQ) eqn:E; [|exact IH].
  destruct s; discriminate.
Qed.

Lemma drop_last_app s c : drop_last (s ++ String c "") = s.
Proof.
  induction s as [|a s IH]; [reflexivity|].
  destruct s as [|b s]; [reflexivity|].
  change (drop_last (String a (String b s) ++ String c ""))
    with (String a (drop_last (String b s ++ String c ""))).
  rewrite IH. reflexivity.
Qed.

Lemma unquote_quoted v : no_space v = true -> unquote (DQ ++ v ++ DQ) = v.
Proof.
  intros Hv. unfold unquote.
  rewrite no_space_strip
    by (apply (no_space_app DQ); [reflexivity|apply no_space_app; [exact Hv|reflexivity]]).
  change (DQ ++ v ++ DQ) with (String (ascii_of_nat 34) (v ++ DQ)).
  cbn [starts_with_dq]. rewrite Ascii.eqb_refl. cbn [andb].
  change (String (ascii_of_nat 34) (v ++ DQ)) with (DQ ++ (v ++ DQ)).
  rewrite <- (append_nil_r (DQ ++ v ++ DQ)) at 1.
  assert (He : ends_with_dq (DQ ++ v ++ DQ) = true).
  { change (DQ ++ v ++ DQ) with ((String (ascii_of_nat 34) v) ++ DQ).
    apply ends_with_dq_app. }
  rewrite append_nil_r, He.
  cbn [append slice_1_m1 DQ]. apply drop_last_app.
Qed.

Lemma unquote_plain v :
  no_space v = true -> starts_with_dq v = false -> unquote v = v.
Proof.
  intros Hv Hq. unfold unquote. rewrite (no_space_strip _ Hv), Hq.
  reflexivity.
Qed.

Lemma decl_constant_split req h cmd cname value :
  split req = [cmd; cname; value] ->
  decl_constant req h =
  match dict_get cname (constants h) with
  | Some old =>
      if negb (String.eqb old (unquote value))
      then Raise (conflicting_constant cname)
      else Ok {| constants := dict_set cname (unquote value) (constants h) |}
  | None => Ok {| constants := dict_set cname (unquote value) (constants h) |}
  end.
Proof. intros Hs. unfold decl_constant. rewrite Hs. reflexivity. Qed.

(** X9. A constant's value between double quotes is taken without them:
    the request with the quoted value does to the handlers what the
    request with the bare value does (the same table, or the same
    error). The bare value must not start with a quote itself: only one
    pair is taken off. *)
Theorem quoted_constant_is_the_bare_one :
  forall H n v,
    is_token n -> is_token v -> starts_with_dq v = false ->
    handle_request H ("_DECL_CONSTANT " ++ n ++ " " ++ DQ ++ v ++ DQ)
    = handle_request H ("_DECL_CONSTANT " ++ n ++ " " ++ v).
Proof.
  intros H n v Hn Hv Hq.
  assert (Hc : is_token "_DECL_CONSTANT") by (split; [discriminate|reflexivity]).
  assert (Hqv : is_token (DQ ++ v ++ DQ)).
  { split; [discriminate|].
    apply (no_space_app DQ); [reflexivity|].
    apply no_space_app; [apply Hv|reflexivity]. }
  change ("_DECL_CONSTANT " ++ n ++ " " ++ DQ ++ v ++ DQ)
    with ("_DECL_CONSTANT" ++ " " ++ n ++ " " ++ (DQ ++ v ++ DQ)).
  change ("_DECL_CONSTANT " ++ n ++ " " ++ v)
    with ("_DECL_CONSTANT" ++ " " ++ n ++ " " ++ v).
  rewrite (handle_request_directive H "_DECL_CONSTANT"
             (" " ++ n ++ " " ++ (DQ ++ v ++ DQ)) Hc eq_refl).
  rewrite (handle_request_directive H "_DECL_CONSTANT"
             (" " ++ n ++ " " ++ v) Hc eq_refl).
  cbn [ctr_dispatch String.eqb Ascii.eqb Bool.eqb].
  rewrite (decl_constant_split _ _ _ _ _ (split_three _ _ _ Hc Hn Hqv)).
  rewrite (decl_constant_split _ _ _ _ _ (split_three _ _ _ Hc Hn Hv)).
  rewrite (unquote_quoted _ (proj2 Hv)), (unquote_plain _ (proj2 Hv) Hq).
  reflexivity.
Qed.

(* ------------------------------------------------------------------ *)
(** ** Requests with the wrong number of words *)

Lemma split_max_1_short r cmd :
  split r = [cmd] -> nth_error (split_max 1 r) 1 = None.
Proof.
  intros Hs. destruct (nth_error (split_max 1 r) 1) as [rest|] eqn:E;
    [|reflexivity].
  destruct (split_max_first_token _ _ _ E) as (t & Ht & _).
  rewrite Hs in Ht. discriminate.
Qed.

Lemma handle_request_split H r cmd args :
  split r = cmd :: args ->
  handle_request H r =
  match ctr_dispatch cmd with
  | None => error ("Unknown build time command '" ++ cmd ++ "'")
  | Some handler => handler (lstrip r) H
  end.
Proof.
  intros Hs. unfold handle_request.
  destruct (String.eqb_spec (lstrip r) "") as [He|_].
  { rewrite (split_blank _ He) in Hs. discriminate. }
  rewrite split_lstrip, Hs. reflexivity.
Qed.

Lemma wrong_arity_raises H r e :
  wrong_arity r = Some e -> handle_request H r = Raise e.
Proof.
  unfold wrong_arity. destruct (split r) as [|cmd args] eqn:Hs; [discriminate|].
  rewrite (handle_request_split _ _ _ _ Hs). unfold ctr_dispatch.
  destruct (String.eqb_spec cmd "_DECL_CALLLIST") as [->|N1].
  { cbn [orb]. destruct (Nat.eqb_spec (List.length args) 2) as [|Hl];
      [discriminate|].
    intros Heq; injection Heq as <-.
    unfold decl_calllist. rewrite split_lstrip, Hs. cbn [skipn].
    destruct args as [|? [|? [|? ?]]]; try reflexivity.
    exfalso; apply Hl; reflexivity. }
  destruct (String.eqb_spec cmd "_DECL_STATIC_STR") as [->|N2].
  { cbn. destruct args; [|discriminate].
    intros Heq; injection Heq as <-.
    unfold decl_static_str, list_getitem.
    rewrite split_max_lstrip, (split_max_1_short _ _ Hs). reflexivity. }
  destruct (String.eqb_spec cmd "_DECL_CONSTANT") as [->|N3].
  { cbn [orb]. destruct (Nat.eqb_spec (List.length args) 2) as [|Hl];
      [discriminate|].
    intros Heq; injection Heq as <-.
    unfold decl_constant. rewrite split_lstrip, Hs. cbn [skipn].
    destruct args as [|? [|? [|? ?]]]; try reflexivity.
    exfalso; apply Hl; reflexivity. }
  cbn [orb].
  destruct (String.eqb_spec cmd "_DECL_COMMAND") as [->|N4].
  { destruct (Nat.ltb_spec (List.length args) 3) as [Hl|]; [|discriminate].
    intros Heq; injection Heq as <-.
    unfold on_cmdgen, decl_command. rewrite split_lstrip, Hs.
    destruct args as [|? [|? [|? ?]]]; try reflexivity.
    cbn in Hl; lia. }
  destruct (String.eqb_spec cmd "_DECL_ENCODER") as [->|N5].
  { cbn. destruct args; [|discriminate].
    intros Heq; injection Heq as <-.
    unfold on_cmdgen, decl_encoder, list_getitem.
    rewrite split_max_lstrip, (split_max_1_short _ _ Hs). reflexivity. }
  destruct (String.eqb_spec cmd "_DECL_OUTPUT") as [->|N6]; [|discriminate].
  cbn. destruct args; [|discriminate].
  intros Heq; injection Heq as <-.
  unfold on_cmdgen, decl_output, list_getitem.
  rewrite split_max_lstrip, (split_max_1_short _ _ Hs). reflexivity.
Qed.

Lemma wrong_arity_cases r e :
  wrong_arity r = Some e -> e = ValueError \/ e = IndexError.
Proof.
  unfold wrong_arity. destruct (split r) as [|cmd args]; [discriminate|].
  repeat match goal with
         | |- context [if ?b then _ else _] => destruct b
         end; try discriminate;
    intros Heq; injection Heq as <-; auto.
Qed.

(** X10. A request with the wrong number of words for its directive
    (_DECL_CALLLIST and _DECL_CONSTANT take two words after the directive,
    _DECL_COMMAND at least three, the others at least one) is no error()
    of the script: once the requests before it have gone through, the run
    ends in an uncaught ValueError or IndexError, with status 1 and nothing
    opened or written. *)
Theorem wrong_word_count_is_uncaught :
  forall env data pre r post H e,
    split_on NUL data = (pre ++ r :: post)%list ->
    replayed pre H ->
    wrong_arity r = Some e ->
    (e = ValueError \/ e = IndexError) /\
    handle_request H r = Raise e /\
    main env data = stop [] e /\
    exit_status (main env data) = 1.
Proof.
  intros env data pre r post H e Hdata (H0 & Hh & Hf) Hw.
  pose proof (wrong_arity_cases _ _ Hw) as He.
  pose proof (wrong_arity_raises H _ _ Hw) as Hr.
  split; [exact He|]. split; [exact Hr|].
  assert (Hm : main env data = stop [] e).
  { apply (main_parse_error _ _ _ _ Hh). unfold parse_request_file.
    rewrite Hdata. apply (foldM_fails _ _ _ _ _ _ _ Hf Hr). }
  split; [exact Hm|]. rewrite Hm.
  destruct He as [-> | ->]; reflexivity.
Qed.

(* ------------------------------------------------------------------ *)
(** ** A command for a name that has another format *)

Lemma decl_command_conflict req h f fl n msg old :
  slice 1 4 (split req) = [f; fl; n] ->
  nth_error (split_max 3 req) 3 = Some msg ->
  dict_in n (commands h) = false ->
  dict_get n (messages_by_name h) = Some old -> old <> msg ->
  decl_command req h = Raise (conflicting_command n).
Proof.
  intros Hs Hm Hc Ho Hne. unfold decl_command. rewrite Hs, Hc.
  unfold list_getitem. rewrite Hm. cbn [bind]. rewrite Ho.
  destruct (String.eqb_spec old msg); [contradiction|]. reflexivity.
Qed.

(** X11. A _DECL_COMMAND request for a message name that is no command
    yet but has a format already, from an encoder or from the baseline,
    other than the one of the request, stops the run, once the requests
    before it have gone through, with error("Conflicting definition for
    command '...'"): status -1 and nothing opened or written. *)
Theorem command_against_known_format_is_fatal :
  forall env data pre r post H f fl n msg old,
    split_on NUL data = (pre ++ r :: post)%list ->
    replayed pre H ->
    command_of r = Some (f, fl, n, msg) ->
    dict_in n (commands (cmdgen H)) = false ->
    dict_get n (messages_by_name (cmdgen H)) = Some old ->
    old <> msg ->
    handle_request H r = Raise (conflicting_command n) /\
    main env data = stop [] (conflicting_command n) /\
    exit_status (main env data) = -1.
Proof.
  intros env data pre r post H f fl n msg old Hdata (H0 & Hh & Hf)
         Hr Hc Ho Hne.
  destruct (handle_command_request H _ _ _ _ _ Hr) as (Hreq & Hs & Hm).
  assert (Hfail : handle_request H r = Raise (conflicting_command n)).
  { rewrite Hreq. unfold on_cmdgen.
    rewrite (decl_command_conflict _ _ _ _ _ _ _ Hs Hm Hc Ho Hne).
    reflexivity. }
  split; [exact Hfail|].
  assert (Hmain : main env data = stop [] (conflicting_command n)).
  { apply (main_parse_error _ _ _ _ Hh). unfold parse_request_file.
    rewrite Hdata. apply (foldM_fails _ _ _ _ _ _ _ Hf Hfail). }
  split; [exact Hmain|]. rewrite Hmain. reflexivity.
Qed.

(* ------------------------------------------------------------------ *)
(** ** The text of a declaration *)

Lemma split_max_1_directive cmd rest :
  is_token cmd -> blank_head rest = true ->
  nth_error (split_max 1 (cmd ++ rest)) 1 =
  match lstrip rest with EmptyString => None | s1 => Some s1 end.
Proof.
  intros Hc Hr. rewrite (split_max_token_app _ _ _ Hc Hr), split_max_0.
  destruct (lstrip rest); reflexivity.
Qed.

(** X12. The text of a static string, of an output and of an encoder is
    what follows the directive and the white space after it, byte for
    byte: blanks inside it and white space at its end are kept. *)
Theorem declared_text_is_kept_verbatim :
  forall H rest,
    blank_head rest = true -> lstrip rest <> "" ->
    handle_request H ("_DECL_STATIC_STR" ++ rest)
    = Ok (with_static_str H (lstrip rest)) /\
    handle_request H ("_DECL_OUTPUT" ++ rest)
    = Ok (with_cmdgen H (declared_encoder (cmdgen H) None (lstrip rest))) /\
    (dict_get (token (lstrip rest)) (messages_by_name (cmdgen H)) = None ->
     handle_request H ("_DECL_ENCODER" ++ rest)
     = Ok (with_cmdgen H (declared_encoder (cmdgen H)
                            (Some (token (lstrip rest))) (lstrip rest)))).
Proof.
  intros H rest Hr Hne.
  assert (Hmsg : forall cmd, is_token cmd ->
            nth_error (split_max 1 (cmd ++ rest)) 1 = Some (lstrip rest)).
  { intros cmd Hc. rewrite (split_max_1_directive _ _ Hc Hr).
    destruct (lstrip rest); [congruence|reflexivity]. }
  split; [|split].
  - assert (Hc : is_token "_DECL_STATIC_STR") by (split; [discriminate|reflexivity]).
    rewrite (handle_request_directive _ _ _ Hc Hr).
    cbn [ctr_dispatch String.eqb Ascii.eqb Bool.eqb].
    unfold decl_static_str, list_getitem. rewrite (Hmsg _ Hc). reflexivity.
  - assert (Hc : is_token "_DECL_OUTPUT") by (split; [discriminate|reflexivity]).
    rewrite (handle_request_directive _ _ _ Hc Hr).
    cbn [ctr_dispatch String.eqb Ascii.eqb Bool.eqb].
    unfold on_cmdgen, decl_output, list_getitem. rewrite (Hmsg _ Hc).
    reflexivity.
  - intros Hnew.
    assert (Hc : is_token "_DECL_ENCODER") by (split; [discriminate|reflexivity]).
    rewrite (handle_request_directive _ _ _ Hc Hr).
    cbn [ctr_dispatch String.eqb Ascii.eqb Bool.eqb].
    unfold on_cmdgen, decl_encoder, list_getitem. rewrite (Hmsg _ Hc).
    cbn [bind].
    assert (Hft : nth_error (split (lstrip rest)) 0 = Some (token (lstrip rest))).
    { pose proof (first_token_spec (lstrip rest)) as Hf.
      unfold first_token in Hf. rewrite Hf, lstrip_idem.
      destruct (lstrip rest); [congruence|reflexivity]. }
    rewrite Hft. cbn [bind]. rewrite Hnew. reflexivity.
Qed.

(* ================================================================== *)
(** * An output with the name of a message *)
(* ================================================================== *)

Lemma foldM_member_fails {A S} (f : S -> A -> result S) x l :
  (forall s, exists e, f s x = Raise e) ->
  In x l -> forall s, exists e, foldM f l s = Raise e.
Proof.
  intros Hx. induction l as [|a l IH]; intros Hin s; [destruct Hin|].
  cbn [foldM]. destruct (f s a) as [s1|e] eqn:Ea; cbn [bind].
  - destruct Hin as [->|Hin]; [|apply (IH Hin)].
    destruct (Hx s) as (e & He). congruence.
  - eauto.
Qed.

Lemma responses_step_no_id m2i st o msg :
  dict_get msg m2i = None ->
  responses_step m2i st (o, msg) = Raise KeyError.
Proof.
  intros Hn. unfold responses_step, dict_getitem. rewrite Hn. reflexivity.
Qed.

Lemma generate_all_no_id H n :
  In (None, n) (encoders (cmdgen H)) ->
  dict_get n (msg_to_id (cmdgen H)) = None ->
  exists e, generate_all H = Raise e.
Proof.
  intros Hin Hn.
  destruct (foldM_member_fails (responses_step (msg_to_id (cmdgen H)))
              (None, n) (encoders (cmdgen H))
              (fun st => ex_intro _ KeyError
                           (responses_step_no_id _ st None n Hn))
              Hin
              {| encoder_defs := []; output_code := []; encoder_code := [];
                 did_output := [];
                 loop_param_types := all_param_types (cmdgen H) |})
    as (e & He).
  exists e. unfold generate_all, cmdgen_generate_code,
    generate_responses_code, responses_loop_run.
  rewrite He. reflexivity.
Qed.

Lemma unnamed_format_gets_no_id h h' n m :
  registry_inv h ->
  create_message_ids h = Ok h' ->
  dict_get n (messages_by_name h) = Some m -> m <> n ->
  dict_in n (msg_to_id h) = false ->
  dict_get n (msg_to_id h') = None.
Proof.
  intros Hinv Hc Hm Hne Hid.
  assert (HM : exists M, py_max (dict_values (msg_to_id h)) = Ok M).
  { unfold create_message_ids in Hc.
    apply bind_Ok in Hc as (M & HM & _). eauto. }
  destruct HM as (M & HM).
  destruct (create_message_ids_spec h M HM) as (news & Hc' & _ & _ & Hk & _).
  rewrite Hc' in Hc. injection Hc as <-. cbn [with_msg_to_id msg_to_id].
  rewrite dict_get_app. apply dict_in_false in Hid. rewrite Hid.
  apply dict_get_None_notin. intros Hin.
  destruct (Hk n Hin) as (_ & x & _ & Hx).
  unfold resolve in Hx.
  destruct (dict_get x (messages_by_name h)) as [m'|] eqn:Ex.
  - subst m'. pose proof (inv_names _ Hinv _ _ Ex) as Hft.
    pose proof (inv_names _ Hinv _ _ Hm) as Hfm.
    apply first_token_is_token in Hfm.
    rewrite (is_token_first_token _ Hfm) in Hft. injection Hft as <-.
    congruence.
  - subst x. congruence.
Qed.

(** X13. An output whose text is the name of a message that has a format
    of its own (so another text than its name) gets no identifier:
    create_message_ids looks the text up in messages_by_name and finds
    the format of the message. The generation then fails at the line
    self.msg_to_id[msg] of generate_responses_code, and the run does not
    end well. *)
Theorem output_with_the_name_of_a_message_gets_no_identifier :
  forall env data H n m,
    replayed (split_on NUL data) H ->
    In (None, n) (encoders (cmdgen H)) ->
    dict_get n (messages_by_name (cmdgen H)) = Some m ->
    m <> n ->
    dict_in n (msg_to_id (cmdgen H)) = false ->
    (forall H' doc,
       update_all H [] = Ok (H', doc) ->
       dict_get n (msg_to_id (cmdgen H')) = None /\
       responses_step (msg_to_id (cmdgen H'))
         {| encoder_defs := []; output_code := []; encoder_code := [];
            did_output := []; loop_param_types := [] |} (None, n)
       = Raise KeyError /\
       exists e, generate_all H' = Raise e) /\
    exists e, finish (main env data) = Raise e.
Proof.
  intros env data H n m Hrep Hin Hm Hne Hid.
  destruct (replayed_inv _ _ Hrep) as (Hinv & _ & _).
  assert (Hgen : forall H' doc,
             update_all H [] = Ok (H', doc) ->
             dict_get n (msg_to_id (cmdgen H')) = None /\
             exists e, generate_all H' = Raise e).
  { intros H' doc Hu.
    destruct (update_all_Ok _ _ _ _ Hu) as (Hc & _).
    pose proof (unnamed_format_gets_no_id _ _ _ _ Hinv Hc Hm Hne Hid) as Hno.
    split; [exact Hno|].
    apply (generate_all_no_id H' n); [|exact Hno].
    destruct (create_message_ids_frame _ _ Hc) as (_ & He & _).
    rewrite He. exact Hin. }
  split.
  - intros H' doc Hu. destruct (Hgen _ _ Hu) as (Hno & He).
    split; [exact Hno|]. split; [|exact He].
    apply responses_step_no_id, Hno.
  - destruct Hrep as (H0 & Hh & Hf). unfold main. rewrite Hh.
    unfold parse_request_file. rewrite Hf.
    destruct (build_identify H (build_version env) (toolstr env))
      as [[[H1 doc] icode]|e] eqn:Eb; [|exists e; reflexivity].
    destruct (build_identify_Ok _ _ _ _ _ _ Eb) as (data' & Hu & _).
    destruct (Hgen _ _ Hu) as (_ & e & He). rewrite He.
    exists e. reflexivity.
Qed.

(* ================================================================== *)
(** * The parameter arrays *)
(* ================================================================== *)

Lemma insert_sorted_perm {A} (leb : A -> A -> bool) x l :
  Permutation (insert_sorted leb x l) (x :: l).
Proof.
  induction l as [|y l IH]; cbn [insert_sorted]; [apply Permutation_refl|].
  destruct (leb x y); [apply Permutation_refl|].
  apply perm_trans with (y :: x :: l); [|apply perm_swap].
  apply perm_skip, IH.
Qed.

Lemma sorted_perm {A} (leb : A -> A -> bool) l :
  Permutation (sorted leb l) l.
Proof.
  induction l as [|x l IH]; cbn [sorted fold_right]; [apply Permutation_refl|].
  apply perm_trans with (x :: sorted leb l);
    [apply insert_sorted_perm|apply perm_skip, IH].
Qed.

Lemma param_leb_keys a b :
  fst a <> fst b -> param_leb a b = Nat.ltb (fst a) (fst b).
Proof.
  intros Hne. unfold param_leb.
  destruct (Nat.eqb_spec (fst a) (fst b)); [contradiction|].
  cbn [andb]. apply orb_false_r.
Qed.

Lemma insert_by_paramid x s :
  StronglySorted by_paramid s ->
  ~ In (fst x) (map fst s) ->
  StronglySorted by_paramid (insert_sorted param_leb x s).
Proof.
  induction s as [|y s IH]; intros Hs Hx; cbn [insert_sorted].
  - constructor; constructor.
  - apply StronglySorted_inv in Hs as [Hs Hy].
    cbn [map In] in Hx.
    rewrite param_leb_keys by (intros Heq; apply Hx; left; congruence).
    destruct (Nat.ltb_spec (fst x) (fst y)) as [Hlt|Hge].
    + constructor; [constructor; assumption|].
      constructor; [exact Hlt|].
      eapply Forall_impl; [|exact Hy].
      intros z Hz. unfold by_paramid in *. lia.
    + constructor; [apply IH; [exact Hs|tauto]|].
      apply Forall_forall. intros z Hz.
      apply insert_sorted_In in Hz as [->|Hz].
      * unfold by_paramid.
        assert (fst y <> fst x) by tauto. lia.
      * rewrite Forall_forall in Hy. apply Hy, Hz.
Qed.

Lemma sorted_by_paramid l :
  NoDup (map fst l) -> StronglySorted by_paramid (sorted param_leb l).
Proof.
  induction l as [|x l IH]; intros Hnd; cbn [sorted fold_right];
    [constructor|].
  cbn [map] in Hnd. apply NoDup_cons_iff in Hnd as [Hx Hnd].
  apply insert_by_paramid; [apply IH, Hnd|].
  intros Hin. apply Hx.
  apply (Permutation_in _ (Permutation_map fst (sorted_perm param_leb l))).
  exact Hin.
Qed.

Lemma by_paramid_unique s : forall t,
  StronglySorted by_paramid s -> StronglySorted by_paramid t ->
  Permutation s t -> s = t.
Proof.
  induction s as [|a s IH]; intros t Hs Ht Hp.
  - apply Permutation_nil in Hp. congruence.
  - destruct t as [|b t];
      [apply Permutation_sym, Permutation_nil in Hp; discriminate|].
    apply StronglySorted_inv in Hs as [Hs Ha].
    apply StronglySorted_inv in Ht as [Ht Hb].
    rewrite Forall_forall in Ha, Hb.
    assert (Hab : a = b).
    { assert (Hia : In a (b :: t))
        by (apply (Permutation_in _ Hp); left; reflexivity).
      assert (Hib : In b (a :: s))
        by (apply (Permutation_in _ (Permutation_sym Hp)); left; reflexivity).
      destruct Hia as [Heq|Hia]; [congruence|].
      destruct Hib as [Heq|Hib]; [congruence|].
      pose proof (Ha _ Hib) as H1. pose proof (Hb _ Hia) as H2.
      unfold by_paramid in *. lia. }
    subst b. f_equal. apply IH; [assumption|assumption|].
    apply (Permutation_cons_inv Hp).
Qed.

Lemma numbered_by_paramid (t : list (nat * list string)) : forall a,
  map fst t = seq a (List.length t) -> StronglySorted by_paramid t.
Proof.
  induction t as [|x t IH]; intros a Hm; [constructor|].
  cbn [map List.length seq] in Hm. injection Hm as Hx Hm.
  constructor; [apply (IH (S a)), Hm|].
  apply Forall_forall. intros y Hy. unfold by_paramid.
  apply (in_map fst) in Hy. rewrite Hm in Hy. apply in_seq in Hy. lia.
Qed.

Lemma sorted_param_types (apt : dict (list string) nat) :
  table_ok apt ->
  sorted param_leb (map (fun '(a, i) => (i, a)) (dict_items apt))
  = map (fun '(a, i) => (i, a)) apt.
Proof.
  intros Hok.
  assert (Hfst : forall l : list (list string * nat),
             map fst (map (fun '(a, i) => (i, a)) l) = map snd l).
  { intros l. rewrite map_map. apply map_ext. intros [a i]. reflexivity. }
  assert (Hperm : Permutation (map (fun '(a, i) => (i, a)) (dict_items apt))
                              (map (fun '(a, i) => (i, a)) apt)).
  { apply Permutation_map. unfold dict_items. apply hash_order_perm. }
  assert (Hsrt : StronglySorted by_paramid (map (fun '(a, i) => (i, a)) apt)).
  { apply (numbered_by_paramid _ 0). rewrite Hfst, length_map.
    apply (tbl_count _ Hok). }
  apply by_paramid_unique; [|exact Hsrt|].
  - apply sorted_by_paramid.
    apply (Permutation_NoDup (Permutation_sym (Permutation_map fst Hperm))).
    rewrite Hfst, (tbl_count _ Hok). apply seq_NoDup.
  - apply perm_trans with (map (fun '(a, i) => (i, a)) (dict_items apt));
      [apply sorted_perm|exact Hperm].
Qed.

Lemma generate_param_code_eq h :
  table_ok (all_param_types h) ->
  generate_param_code h =
  join NL ([""] ++ map (fun '(argtypes, paramid) => param_array paramid argtypes)
                       (all_param_types h) ++ [""])%list.
Proof.
  intros Hok. unfold generate_param_code.
  rewrite (sorted_param_types _ Hok), map_map.
  do 2 f_equal. f_equal. apply map_ext. intros [a i]. reflexivity.
Qed.

Lemma foldM_invariant {A S} (f : S -> A -> result S) (P : S -> Prop) :
  (forall s a s', f s a = Ok s' -> P s -> P s') ->
  forall l s s', foldM f l s = Ok s' -> P s -> P s'.
Proof.
  intros Hstep. induction l as [|a l IH]; intros s s' Hf HP; cbn [foldM] in Hf.
  - injection Hf as <-. exact HP.
  - apply bind_Ok in Hf as (s1 & Ha & Hf).
    apply (IH _ _ Hf). apply (Hstep _ _ _ Ha HP).
Qed.

Lemma responses_step_table m2i st enc st' :
  responses_step m2i st enc = Ok st' ->
  table_ok (loop_param_types st) -> table_ok (loop_param_types st').
Proof.
  unfold responses_step. destruct enc as [o msg]. intros Hb Hok.
  apply bind_Ok in Hb as (i & _ & Hb).
  destruct (dict_in i (did_output st)); [injection Hb as <-; exact Hok|].
  cbv zeta in Hb. apply bind_Ok in Hb as (p & _ & Hb).
  pose proof (build_parser_table p false (loop_param_types st)) as Ht.
  destruct (build_parser p false (loop_param_types st)) as [code apt].
  injection Hb as <-. cbn [loop_param_types]. cbn [snd] in Ht. rewrite Ht.
  apply table_ok_step, Hok.
Qed.

Lemma commands_step_table h by_id st i st' :
  commands_step h by_id st i = Ok st' ->
  table_ok (cmd_param_types st) -> table_ok (cmd_param_types st').
Proof.
  unfold commands_step. intros Hb Hok.
  destruct (dict_get i by_id) as [[[f fl] n]|];
    [|injection Hb as <-; exact Hok].
  apply bind_Ok in Hb as (msg & _ & Hb). cbv zeta in Hb.
  apply bind_Ok in Hb as (p & _ & Hb).
  pose proof (build_parser_table p true (cmd_param_types st)) as Ht.
  destruct (build_parser p true (cmd_param_types st)) as [code apt].
  injection Hb as <-. cbn [cmd_param_types]. cbn [snd] in Ht. rewrite Ht.
  apply table_ok_step, Hok.
Qed.

(** X14. The parameter arrays of the generated code come in the order of
    their numbers, command_parameters0 first, one array for each entry of
    all_param_types and each with the types of its signature: sorting the
    pairs (number, signature) undoes whatever order the dictionary is
    walked in, so the text does not depend on it. *)
Theorem parameter_arrays_come_in_index_order :
  forall h code h',
    all_param_types h = [] ->
    cmdgen_generate_code h = Ok (code, h') ->
    map snd (all_param_types h') = seq 0 (List.length (all_param_types h')) /\
    generate_param_code h' =
    join NL ([""] ++ map (fun '(argtypes, paramid) => param_array paramid argtypes)
                         (all_param_types h') ++ [""])%list /\
    exists parsercode cmdcode,
      code = generate_param_code h' ++ parsercode ++ cmdcode.
Proof.
  intros h code h' Hempty Hg. unfold cmdgen_generate_code in Hg.
  apply bind_Ok in Hg as ([parsercode h1] & Hr & Hg).
  apply bind_Ok in Hg as ([cmdcode h2] & Hc & Hg).
  injection Hg as <- <-.
  assert (Hok1 : table_ok (all_param_types h1)).
  { unfold generate_responses_code in Hr.
    apply bind_Ok in Hr as (st & Hst & Hr). injection Hr as _ <-.
    cbn [with_all_param_types all_param_types].
    unfold responses_loop_run in Hst.
    apply (foldM_invariant _ (fun st => table_ok (loop_param_types st))
             (responses_step_table _) _ _ _ Hst).
    cbn [loop_param_types]. rewrite Hempty. apply table_ok_empty. }
  assert (Hok2 : table_ok (all_param_types h2)).
  { unfold generate_commands_code in Hc.
    apply bind_Ok in Hc as (st & Hst & Hc). injection Hc as _ <-.
    cbn [with_all_param_types all_param_types].
    unfold commands_loop_run in Hst.
    apply bind_Ok in Hst as (by_id & _ & Hst).
    apply bind_Ok in Hst as (mx & _ & Hst).
    apply (foldM_invariant _ (fun st => table_ok (cmd_param_types st))
             (commands_step_table _ _) _ _ _ Hst).
    exact Hok1. }
  split; [apply (tbl_count _ Hok2)|].
  split; [apply generate_param_code_eq, Hok2|].
  exists parsercode, cmdcode. reflexivity.
Qed.

(* ================================================================== *)
(** * The identify array *)
(* ================================================================== *)

Lemma item_byte_fmt (c : ascii) :
  item_byte (" 0x" ++ fmt_02x (nat_of_ascii c) ++ ",") = Some (nat_of_ascii c).
Proof.
  destruct c as [[] [] [] [] [] [] [] []]; vm_compute; reflexivity.
Qed.

Lemma array_bytes_hex_lines z : forall i,
  array_bytes (hex_lines i z) = map nat_of_ascii z.
Proof.
  induction z as [|c z IH]; intros i; [reflexivity|].
  cbn [hex_lines map]. unfold array_bytes in *.
  rewrite !flat_map_app. cbn [flat_map].
  rewrite item_byte_fmt, IH, app_nil_r.
  destruct (Nat.eqb (i mod 8) 0); reflexivity.
Qed.

Lemma string_length_list s :
  List.length (list_ascii_of_string s) = String.length s.
Proof. induction s as [|c s IH]; cbn; [reflexivity|]. rewrite IH. reflexivity. Qed.

(** X17. The array command_identify_data of the generated code holds the
    bytes of zlib.compress(data, 9), data being the document that
    build_identify returns for the dictionary file: read back item by
    item, the array gives these bytes in order, and the number of its items is
    the size that the comment under it states. *)
Theorem identify_array_holds_the_compressed_document :
  forall H version tools H' doc icode,
    build_identify H version tools = Ok (H', doc, icode) ->
    exists items,
      icode = identify_code version tools items
                (String.length (zlib_compress doc 9)) (String.length doc) /\
      array_bytes items
      = map nat_of_ascii (list_ascii_of_string (zlib_compress doc 9)) /\
      List.length (array_bytes items) = String.length (zlib_compress doc 9).
Proof.
  intros H version tools H' doc icode Hb. unfold build_identify in Hb.
  apply bind_Ok in Hb as ([H1 data] & _ & Hb). cbv zeta in Hb.
  apply bind_Ok in Hb as (doc' & _ & Hb). injection Hb as _ <- <-.
  exists (hex_lines 0 (list_ascii_of_string (zlib_compress doc' 9))).
  split; [reflexivity|].
  rewrite array_bytes_hex_lines, length_map, string_length_list.
  split; reflexivity.
Qed.

(* ================================================================== *)
(** * The identifier lists of the data dictionary *)
(* ================================================================== *)

Lemma insert_sorted_Z x s :
  StronglySorted Z.le s -> StronglySorted Z.le (insert_sorted Z.leb x s).
Proof.
  induction s as [|y s IH]; intros Hs; cbn [insert_sorted].
  - constructor; constructor.
  - apply StronglySorted_inv in Hs as [Hs Hy].
    destruct (Z.leb_spec x y) as [Hle|Hgt].
    + constructor; [constructor; assumption|].
      constructor; [exact Hle|].
      eapply Forall_impl; [|exact Hy]. intros z Hz. lia.
    + constructor; [apply IH, Hs|].
      apply Forall_forall. intros z Hz.
      apply insert_sorted_In in Hz as [->|Hz]; [lia|].
      rewrite Forall_forall in Hy. apply Hy, Hz.
Qed.

Lemma sorted_Z l : StronglySorted Z.le (sorted Z.leb l).
Proof.
  induction l as [|x l IH]; cbn [sorted fold_right]; [constructor|].
  apply insert_sorted_Z, IH.
Qed.

Lemma sorted_distinct_increasing s :
  StronglySorted Z.le s -> NoDup s -> StronglySorted Z.lt s.
Proof.
  induction s as [|x s IH]; intros Hs Hnd; [constructor|].
  apply StronglySorted_inv in Hs as [Hs Hx].
  apply NoDup_cons_iff in Hnd as [Hni Hnd].
  constructor; [apply IH; assumption|].
  rewrite Forall_forall in *. intros y Hy.
  assert (x <> y) by (intros ->; contradiction).
  specialize (Hx _ Hy). lia.
Qed.

Lemma mapM_Forall2 {A B} (f : A -> result B) l : forall l',
  mapM f l = Ok l' -> Forall2 (fun a b => f a = Ok b) l l'.
Proof.
  induction l as [|a l IH]; intros l' Hm; cbn [mapM] in Hm.
  - injection Hm as <-. constructor.
  - apply bind_Ok in Hm as (b & Hb & Hm).
    apply bind_Ok in Hm as (bs & Hbs & Hm). injection Hm as <-.
    constructor; [exact Hb|apply IH, Hbs].
Qed.

Lemma Forall2_In_r {A B} (R : A -> B -> Prop) l l' b :
  Forall2 R l l' -> In b l' -> exists a, In a l /\ R a b.
Proof.
  induction 1 as [|a b' l l' Hab HF IH]; intros Hin; [destruct Hin|].
  destruct Hin as [->|Hin]; [exists a; split; [left; reflexivity|exact Hab]|].
  destruct (IH Hin) as (a' & Ha' & HR). exists a'. split; [right|]; assumption.
Qed.

Lemma Forall2_NoDup {A B} (R : A -> B -> Prop) l l' :
  Forall2 R l l' -> NoDup l ->
  (forall a a' b, In a l -> In a' l -> R a b -> R a' b -> a = a') ->
  NoDup l'.
Proof.
  induction 1 as [|a b l l' Hab HF IH]; intros Hnd Hinj; [constructor|].
  apply NoDup_cons_iff in Hnd as [Hni Hnd]. constructor.
  - intros Hin. destruct (Forall2_In_r _ _ _ _ HF Hin) as (a' & Ha' & HR).
    apply Hni. rewrite (Hinj a a' b); [exact Ha'|left; reflexivity
                                       |right; exact Ha'|exact Hab|exact HR].
  - apply IH; [exact Hnd|].
    intros x x' y Hx Hx'. apply Hinj; right; assumption.
Qed.

Lemma NoDup_keys {K V} (l : list (K * V)) : NoDup (map fst l) -> NoDup l.
Proof.
  induction l as [|x l IH]; intros Hnd; [constructor|].
  cbn [map] in Hnd. apply NoDup_cons_iff in Hnd as [Hni Hnd].
  constructor; [|apply IH, Hnd].
  intros Hin. apply Hni. apply in_map, Hin.
Qed.

(** No identifier comes twice out of the walk through messages_by_name. *)
Lemma ids_where_NoDup cond h l :
  registry_inv h -> ids_inv (msg_to_id h) ->
  ids_where cond h = Ok l -> NoDup l.
Proof.
  intros Hinv Hids Hl. unfold ids_where in Hl.
  apply mapM_Forall2 in Hl.
  pose proof (dict_items_NoDup _ (inv_mbn_nodup _ Hinv)) as Hnd.
  apply (Forall2_NoDup _ _ _ Hl).
  - apply NoDup_filter, NoDup_keys, Hnd.
  - intros [n1 m1] [n2 m2] i H1 H2 R1 R2.
    apply filter_In in H1 as [H1 _]. apply filter_In in H2 as [H2 _].
    apply dict_getitem_Ok in R1, R2.
    pose proof (ids_inj _ Hids _ _ _ R1 R2) as <-.
    assert (Hg : forall n, In (n, m1) (dict_items (messages_by_name h)) ->
                           first_token m1 = Some n).
    { intros n Hin. apply (inv_names _ Hinv).
      apply In_dict_get; [apply (inv_mbn_nodup _ Hinv)|].
      apply dict_items_In, Hin. }
    pose proof (Hg _ H1) as E1. pose proof (Hg _ H2) as E2. congruence.
Qed.

Lemma map_PInt_inj l l' : map PInt l = map PInt l' -> l = l'.
Proof.
  revert l'. induction l as [|x l IH]; intros [|y l'] Hm;
    try discriminate; [reflexivity|].
  cbn [map] in Hm. injection Hm as -> Hm. f_equal. apply IH, Hm.
Qed.

(** X18. The 'commands' list and the 'responses' list of the data
    dictionary are strictly increasing: sorted, and no identifier is in
    a list twice, as no two message names share a format and no two
    formats an identifier. *)
Theorem command_and_response_lists_are_increasing :
  forall reqs H H' doc cmds resps,
    replayed reqs H ->
    update_all H [] = Ok (H', doc) ->
    dict_get "commands" doc = Some (PList (map PInt cmds)) ->
    dict_get "responses" doc = Some (PList (map PInt resps)) ->
    StronglySorted Z.lt cmds /\ StronglySorted Z.lt resps.
Proof.
  intros reqs H H' doc cmds resps Hrep Hu Hc Hr.
  destruct (replayed_inv _ _ Hrep) as (Hinv & Hb & _).
  assert (Hids : ids_inv (msg_to_id (cmdgen H)))
    by (rewrite Hb; apply baseline_ids_inv).
  rewrite update_all_eq in Hu.
  apply bind_Ok in Hu as ([h doc'] & Hu & Heq). injection Heq as _ <-.
  unfold cmdgen_update_data_dictionary in Hu.
  apply bind_Ok in Hu as (h1 & Hh1 & Hu). cbv zeta in Hu.
  apply bind_Ok in Hu as (cmds0 & Hc0 & Hu).
  apply bind_Ok in Hu as (resps0 & Hr0 & Hu).
  injection Hu as _ <-.
  change (Some (PList (map PInt (sorted Z.leb cmds0)))
          = Some (PList (map PInt cmds))) in Hc.
  change (Some (PList (map PInt (sorted Z.leb resps0)))
          = Some (PList (map PInt resps))) in Hr.
  injection Hc as Hc. injection Hr as Hr.
  apply map_PInt_inj in Hc, Hr. subst cmds resps.
  destruct (create_message_ids_assigned _ _ Hinv Hids Hh1) as [Hinv1 Hids1 _].
  assert (Hinc : forall cond l, ids_where cond h1 = Ok l ->
                                StronglySorted Z.lt (sorted Z.leb l)).
  { intros cond l Hl. apply sorted_distinct_increasing; [apply sorted_Z|].
    apply (Permutation_NoDup (Permutation_sym (sorted_perm Z.leb l))).
    apply (ids_where_NoDup _ _ _ Hinv1 Hids1 Hl). }
  split; eapply Hinc; eassumption.
Qed.

(* ================================================================== *)
(** * The calls of build_parser *)
(* ================================================================== *)

Lemma build_parser_eq p iscmd apt :
  build_parser p iscmd apt
  = (parser_text p iscmd (params_ref (fst (intern_types (signature p) apt))),
     snd (intern_types (signature p) apt)).
Proof.
  unfold build_parser, parser_text, params_ref, signature.
  destruct (intern_types (map class_name (param_types p)) apt) as [paramid apt'].
  cbn [fst snd]. destruct iscmd; reflexivity.
Qed.

Lemma build_parser_run_intern calls : forall apt,
  snd (build_parser_run calls apt)
  = snd (intern_seq (map (fun c => signature (fst c)) calls) apt) /\
  forall j p iscmd,
    nth_error calls j = Some (p, iscmd) ->
    exists r,
      nth_error (fst (intern_seq (map (fun c => signature (fst c)) calls) apt)) j
      = Some r /\
      nth_error (fst (build_parser_run calls apt)) j
      = Some (parser_text p iscmd (params_ref r)).
Proof.
  induction calls as [|[p0 c0] calls IH]; intros apt;
    cbn [build_parser_run map intern_seq fst].
  - split; [reflexivity|]. intros [|j] p iscmd Hj; discriminate.
  - rewrite build_parser_eq.
    destruct (intern_types (signature p0) apt) as [r0 apt1] eqn:Ei.
    cbn [fst snd]. specialize (IH apt1). destruct IH as [IHt IHx].
    destruct (build_parser_run calls apt1) as [outs apt2].
    destruct (intern_seq (map (fun c => signature (fst c)) calls) apt1)
      as [rs apt3].
    cbn [fst snd] in *. split; [exact IHt|].
    intros [|j] p iscmd Hj; cbn [nth_error] in *.
    + injection Hj as <- <-. exists r0. split; reflexivity.
    + apply (IHx _ _ _ Hj).
Qed.

Lemma build_parser_run_app c1 c2 apt :
  build_parser_run (c1 ++ c2)%list apt =
  (fst (build_parser_run c1 apt)
   ++ fst (build_parser_run c2 (snd (build_parser_run c1 apt))),
   snd (build_parser_run c2 (snd (build_parser_run c1 apt))))%list.
Proof.
  revert apt. induction c1 as [|[p c] c1 IH]; intros apt;
    cbn [app build_parser_run fst snd].
  - destruct (build_parser_run c2 apt); reflexivity.
  - destruct (build_parser p c apt) as [out apt1]. rewrite IH.
    destruct (build_parser_run c1 apt1) as [outs apt2]. reflexivity.
Qed.

Lemma build_parser_run_length calls : forall apt,
  List.length (fst (build_parser_run calls apt)) = List.length calls.
Proof.
  induction calls as [|[p c] calls IH]; intros apt; cbn [build_parser_run];
    [reflexivity|].
  destruct (build_parser p c apt) as [out apt1]. specialize (IH apt1).
  destruct (build_parser_run calls apt1). cbn [fst List.length] in *.
  rewrite IH. reflexivity.
Qed.

(** The calls of the two loops. *)
Lemma responses_fold_calls m2i P : forall st st',
  foldM (responses_step m2i) P st = Ok st' ->
  exists built : list (Z * parser),
    loop_param_types st'
    = snd (build_parser_run (encoder_calls built) (loop_param_types st)) /\
    encoder_defs st'
    = (encoder_defs st
       ++ encoder_defs_of built
            (fst (build_parser_run (encoder_calls built)
                                   (loop_param_types st))))%list.
Proof.
  induction P as [|[o msg] P IH]; intros st st' Hf; cbn [foldM] in Hf.
  - injection Hf as <-. exists []. split; [reflexivity|].
    cbn. rewrite app_nil_r. reflexivity.
  - apply bind_Ok in Hf as (st1 & Hs & Hf).
    destruct (IH _ _ Hf) as (built & Ht & Hd).
    unfold responses_step in Hs.
    apply bind_Ok in Hs as (i & _ & Hs).
    destruct (dict_in i (did_output st)).
    { injection Hs as <-. exists built. split; assumption. }
    cbv zeta in Hs. apply bind_Ok in Hs as (p & _ & Hs).
    destruct (build_parser p false (loop_param_types st)) as [pc apt] eqn:Eb.
    injection Hs as <-. cbn [loop_param_types encoder_defs] in Ht, Hd.
    exists ((i, p) :: built).
    unfold encoder_calls, encoder_defs_of in *.
    cbn [map snd fst build_parser_run]. rewrite Eb.
    destruct (build_parser_run (map (fun b => (snd b, false)) built) apt)
      as [outs apt2].
    cbn [fst snd combine map] in *. split; [exact Ht|].
    rewrite Hd, <- app_assoc. reflexivity.
Qed.

Lemma commands_fold_calls h by_id l : forall st st',
  foldM (commands_step h by_id) l st = Ok st' ->
  exists slots : list (option (string * string * parser)),
    List.length slots = List.length l /\
    cmd_param_types st'
    = snd (build_parser_run (command_calls slots) (cmd_param_types st)) /\
    index st'
    = (index st
       ++ index_of slots
            (fst (build_parser_run (command_calls slots)
                                   (cmd_param_types st))))%list.
Proof.
  induction l as [|i l IH]; intros st st' Hf; cbn [foldM] in Hf.
  - injection Hf as <-. exists []. split; [reflexivity|].
    split; [reflexivity|]. cbn. rewrite app_nil_r. reflexivity.
  - apply bind_Ok in Hf as (st1 & Hs & Hf).
    destruct (IH _ _ Hf) as (slots & Hl & Ht & Hx).
    unfold commands_step in Hs.
    destruct (dict_get i by_id) as [[[f fl] n]|].
    + apply bind_Ok in Hs as (msg & _ & Hs). cbv zeta in Hs.
      apply bind_Ok in Hs as (p & _ & Hs).
      destruct (build_parser p true (cmd_param_types st)) as [pc apt] eqn:Eb.
      injection Hs as <-. cbn [cmd_param_types index] in Ht, Hx.
      exists (Some (fl, f, p) :: slots).
      split; [cbn [List.length]; rewrite Hl; reflexivity|].
      unfold command_calls in *. cbn [flat_map app build_parser_run].
      rewrite Eb.
      destruct (build_parser_run
                  (flat_map (fun s => match s with
                                      | Some (_, _, p0) => [(p0, true)]
                                      | None => []
                                      end) slots) apt) as [outs apt2].
      cbn [fst snd index_of] in *. split; [exact Ht|].
      rewrite Hx, <- app_assoc. reflexivity.
    + injection Hs as <-. cbn [cmd_param_types index] in Ht, Hx.
      exists (None :: slots).
      split; [cbn [List.length]; rewrite Hl; reflexivity|].
      unfold command_calls in *. cbn [flat_map app index_of].
      split; [exact Ht|]. rewrite Hx, <- app_assoc. reflexivity.
Qed.

(** ** C7 *)

(** C7. Over any run of calls of build_parser that starts with the table
    of __init__, each call on the table that the call before it left: the
    text of a call refers to the parameter array of the index that the
    table in the end has for the signature of its parser, and to 0 when
    the signature is empty; the table has an index for exactly the
    non-empty signatures of the run; two signatures of the run have the
    same index exactly when they are the same lists; a signature that was
    not seen before gets the number of distinct non-empty signatures seen
    before it, so the indices are 0, 1, 2, ... in the order of first
    appearance.  generate_code makes such a run: the calls of
    generate_responses_code for the encoders it emits, then the calls of
    generate_commands_code for the commands in the order of their
    identifiers; their texts are in the command_encoder definitions and in
    the entries of command_index, and the table they leave is the one
    that generate_param_code writes out, the array of each index with the
    types of its signature. *)
Theorem signatures_interned_in_first_seen_order :
  (forall calls : list (parser * bool),
     let sigs := map (fun c => signature (fst c)) calls in
     let texts := fst (build_parser_run calls []) in
     let table := snd (build_parser_run calls []) in
     (forall j p iscmd,
         nth_error calls j = Some (p, iscmd) ->
         nth_error texts j
         = Some (parser_text p iscmd
                   (params_ref (dict_get (signature p) table)))) /\
     (forall s, dict_in s table = true <-> In s sigs /\ s <> []) /\
     (forall s1 s2, In s1 sigs -> In s2 sigs ->
                    (dict_get s1 table = dict_get s2 table <-> s1 = s2)) /\
     (forall j s,
         nth_error sigs j = Some s -> s <> [] -> ~ In s (firstn j sigs) ->
         dict_get s table = Some (distinct_count (firstn j sigs))) /\
     map snd table = seq 0 (distinct_count sigs)) /\
  (forall h code h',
     all_param_types h = [] ->
     cmdgen_generate_code h = Ok (code, h') ->
     exists built slots st1 st2,
       let run1 := build_parser_run (encoder_calls built) [] in
       let run2 := build_parser_run (command_calls slots) (snd run1) in
       responses_loop_run h = Ok st1 /\
       commands_loop_run (with_all_param_types h (loop_param_types st1))
       = Ok st2 /\
       build_parser_run (encoder_calls built ++ command_calls slots) []
       = ((fst run1 ++ fst run2)%list, snd run2) /\
       encoder_defs st1 = encoder_defs_of built (fst run1) /\
       index st2 = index_of slots (fst run2) /\
       all_param_types h' = snd run2 /\
       generate_param_code h'
       = join NL ([""] ++ map (fun '(argtypes, paramid) =>
                                 param_array paramid argtypes) (snd run2)
                       ++ [""])%list /\
       code = generate_param_code h'
              ++ responses_text (encoder_defs st1) (encoder_code st1)
                                (output_code st1)
              ++ command_index_text
                   (sorted str_leb (dict_keys (externs st2))) (index st2)).
Proof.
  split.
  - intros calls sigs texts table. subst sigs texts table.
    destruct (build_parser_run_intern calls []) as [Ht Hx].
    set (sigs := map (fun c => signature (fst c)) calls) in *.
    destruct (intern_seq_spec sigs [] table_ok_empty) as (Hok & _ & Hids).
    destruct (intern_seq_first_seen sigs) as (_ & Hfirst & _).
    rewrite Ht.
    assert (Hkeys : forall k, In k (map fst (snd (intern_seq sigs [])))
                              <-> In k sigs /\ k <> []).
    { intros k. apply (intern_seq_keys sigs [] []). simpl; tauto. }
    assert (Hin : forall s, dict_in s (snd (intern_seq sigs [])) = true
                            <-> In s sigs /\ s <> []).
    { intros s. rewrite <- Hkeys. rewrite dict_in_true. split.
      - intros [i Hi]. apply dict_get_In in Hi.
        apply in_map_iff. exists (s, i). auto.
      - intros Hk. destruct (dict_get s (snd (intern_seq sigs []))) as [i|] eqn:E;
          [eauto|].
        apply dict_get_None_notin in E. contradiction. }
    split; [|split; [exact Hin|split; [|split]]].
    + intros j p iscmd Hj. destruct (Hx _ _ _ Hj) as (r & Hr & Htext).
      rewrite Htext. do 3 f_equal.
      assert (Hs : nth_error sigs j = Some (signature p)).
      { unfold sigs. rewrite nth_error_map, Hj. reflexivity. }
      rewrite (Hids _ _ Hs) in Hr. injection Hr as <-. reflexivity.
    + intros s1 s2 H1 H2. split; [|intros ->; reflexivity].
      intros Heq.
      destruct (dict_get s1 (snd (intern_seq sigs []))) as [i|] eqn:E1.
      * symmetry in Heq. eapply table_inj; eauto.
      * symmetry in Heq.
        assert (Hnone : forall s, In s sigs ->
                  dict_get s (snd (intern_seq sigs [])) = None -> s = []).
        { intros s Hs Hg. destruct s as [|x s]; [reflexivity|exfalso].
          apply dict_in_false in Hg.
          assert (Ht' : dict_in (x :: s) (snd (intern_seq sigs [])) = true)
            by (apply Hin; split; [exact Hs|discriminate]).
          congruence. }
        rewrite (Hnone s1), (Hnone s2); auto.
    + intros j s Hj Hne Hnew.
      pose proof (Hfirst j s Hj Hne Hnew) as Hr.
      rewrite (Hids _ _ Hj) in Hr. injection Hr as Hr. exact Hr.
    + rewrite (tbl_count _ Hok). f_equal.
      apply (distinct_count_keys _ sigs (tbl_nodup _ Hok)). exact Hkeys.
  - intros h code h' Hempty Hg. unfold cmdgen_generate_code in Hg.
    apply bind_Ok in Hg as ([parsercode h1] & Hr & Hg).
    apply bind_Ok in Hg as ([cmdcode h2] & Hc & Hg).
    injection Hg as <- <-.
    unfold generate_responses_code in Hr.
    apply bind_Ok in Hr as (st1 & Hst1 & Hr). injection Hr as <- <-.
    unfold generate_commands_code in Hc.
    apply bind_Ok in Hc as (st2 & Hst2 & Hc). injection Hc as <- <-.
    pose proof Hst1 as Hf1. unfold responses_loop_run in Hf1.
    destruct (responses_fold_calls _ _ _ _ Hf1) as (built & Ht1 & Hd1).
    cbn [loop_param_types encoder_defs app] in Ht1, Hd1.
    rewrite Hempty in Ht1, Hd1.
    pose proof Hst2 as Hf2. unfold commands_loop_run in Hf2.
    apply bind_Ok in Hf2 as (by_id & _ & Hf2).
    apply bind_Ok in Hf2 as (mx & _ & Hf2).
    destruct (commands_fold_calls _ _ _ _ _ Hf2) as (slots & _ & Ht2 & Hx2).
    cbn [cmd_param_types index app with_all_param_types all_param_types]
      in Ht2, Hx2.
    rewrite Ht1 in Ht2, Hx2.
    exists built, slots, st1, st2. cbv zeta.
    split; [exact Hst1|]. split; [exact Hst2|].
    split; [apply build_parser_run_app|].
    split; [exact Hd1|]. split; [exact Hx2|].
    split; [exact Ht2|]. split; [|reflexivity].
    rewrite <- Ht2.
    apply (generate_param_code_eq
             (with_all_param_types
                (with_all_param_types h (loop_param_types st1))
                (cmd_param_types st2))).
    cbn [with_all_param_types all_param_types]. rewrite Ht2.
    pose proof (build_parser_run_app (encoder_calls built)
                  (command_calls slots) []) as Happ.
    apply (f_equal snd) in Happ. cbn [snd] in Happ. rewrite <- Happ.
    rewrite (proj1 (build_parser_run_intern _ [])).
    apply (intern_seq_spec _ [] table_ok_empty).
Qed.

(* ================================================================== *)
(** * Tool versions *)
(* ================================================================== *)

Lemma version_of_set_same k x v : version_of k (set_version k x v) = x.
Proof. destruct k; reflexivity. Qed.

Lemma version_of_set_other k k' x v :
  k <> k' -> version_of k' (set_version k x v) = version_of k' v.
Proof. destruct k, k'; intros Hn; try reflexivity; congruence. Qed.

Lemma no_conflict_cases cur ver :
  (negb (String.eqb cur "") && negb (String.eqb cur ver))%bool = false ->
  cur = "" \/ cur = ver.
Proof.
  destruct (String.eqb_spec cur ""); [auto|].
  destruct (String.eqb_spec cur ver); [auto|discriminate].
Qed.

Lemma report_count rs : forall st,
  (success (fold_left report_step rs st) <= success st + List.length rs)%nat.
Proof.
  induction rs as [|r rs IH]; intros st; cbn [fold_left List.length]; [lia|].
  specialize (IH (report_step st r)).
  assert (success (report_step st r) <= S (success st))%nat; [|lia].
  unfold report_step. destruct r as [[k ver]|]; [|lia].
  cbv zeta. destruct (_ && _)%bool; cbn [success]; lia.
Qed.

Lemma versions_given_app rs r :
  versions_given (rs ++ [r]) -> versions_given rs.
Proof. intros Hg k Hin. apply (Hg k). apply in_or_app; left; exact Hin. Qed.

Lemma clean_sound rs :
  versions_given rs ->
  success (fold_left report_step rs tool_state0) = List.length rs ->
  clean_so_far rs (fold_left report_step rs tool_state0).
Proof.
  induction rs as [|r rs IH] using rev_ind; intros Hg Hs.
  - split; [intros r []|]. intros k Hk. destruct k; cbn in Hk; congruence.
  - rewrite fold_left_app in *. cbn [fold_left] in *.
    rewrite length_app in Hs. cbn [List.length] in Hs.
    pose proof (report_count rs tool_state0) as Hle. cbn [success tool_state0] in Hle.
    set (st := fold_left report_step rs tool_state0) in *.
    destruct r as [[k ver]|]; cbn [report_step] in *; [|lia].
    cbv zeta in *.
    destruct (negb (String.eqb (version_of k (versions st)) "")
              && negb (String.eqb (version_of k (versions st)) ver))%bool
      eqn:Ec; cbn [success versions] in *; [lia|].
    apply no_conflict_cases in Ec.
    destruct (IH (versions_given_app _ _ Hg)) as [Hall Hin]; [lia|].
    unfold clean_so_far. cbn [versions]. split.
    + intros r' Hr'. apply in_app_or in Hr' as [Hr'|[<-|[]]].
      * destruct (Hall _ Hr') as (k' & ->). exists k'.
        destruct (Bool.bool_dec k k') as [<-|Hn].
        -- rewrite version_of_set_same.
           destruct Ec as [Ec|Ec]; [|congruence].
           exfalso. apply (Hg k). apply in_or_app; left.
           rewrite Ec in Hr'. exact Hr'.
        -- rewrite (version_of_set_other _ _ _ _ Hn). reflexivity.
      * exists k. rewrite version_of_set_same. reflexivity.
    + intros k' Hk'. apply in_or_app.
      destruct (Bool.bool_dec k k') as [<-|Hn].
      * right; left. rewrite version_of_set_same. reflexivity.
      * left. rewrite (version_of_set_other _ _ _ _ Hn) in *.
        apply Hin, Hk'.
Qed.

Lemma clean_complete (v : bool -> string) rs :
  (forall k, v k <> "") ->
  (forall r, In r rs -> exists k, r = Some (k, v k)) ->
  success (fold_left report_step rs tool_state0) = List.length rs /\
  (forall k, version_of k (versions (fold_left report_step rs tool_state0)) = ""
             \/ version_of k (versions (fold_left report_step rs tool_state0))
                = v k) /\
  (forall k, In (Some (k, v k)) rs ->
             version_of k (versions (fold_left report_step rs tool_state0))
             = v k).
Proof.
  intros Hv. induction rs as [|r rs IH] using rev_ind; intros Hall.
  - split; [reflexivity|]. split; [intros k; left; destruct k; reflexivity|].
    intros k [].
  - destruct IH as (Hs & Hcur & Hin).
    { intros r' Hr'. apply Hall. apply in_or_app; left; exact Hr'. }
    destruct (Hall r) as (k & ->); [apply in_or_app; right; left; reflexivity|].
    rewrite fold_left_app. cbn [fold_left report_step]. cbv zeta.
    set (st := fold_left report_step rs tool_state0) in *.
    assert (Ec : (negb (String.eqb (version_of k (versions st)) "")
                  && negb (String.eqb (version_of k (versions st)) (v k)))%bool
                 = false).
    { destruct (Hcur k) as [-> | ->]; [reflexivity|].
      rewrite String.eqb_refl. apply andb_false_r. }
    rewrite Ec. cbn [success versions].
    split; [rewrite length_app; cbn [List.length]; lia|].
    split.
    + intros k'. destruct (Bool.bool_dec k k') as [<-|Hn].
      * right. apply version_of_set_same.
      * rewrite (version_of_set_other _ _ _ _ Hn). apply Hcur.
    + intros k' Hk'. destruct (Bool.bool_dec k k') as [<-|Hn].
      * apply version_of_set_same.
      * rewrite (version_of_set_other _ _ _ _ Hn). apply Hin.
        apply in_app_or in Hk' as [Hk'|[Heq|[]]]; [exact Hk'|].
        injection Heq as Heq _. contradiction.
Qed.

Lemma mixed_inv rs :
  versions_given rs ->
  mixed_or_agreed rs (fold_left report_step rs tool_state0).
Proof.
  induction rs as [|r rs IH] using rev_ind; intros Hg.
  - intros k. right. intros ver [].
  - specialize (IH (versions_given_app _ _ Hg)).
    rewrite fold_left_app. cbn [fold_left].
    set (st := fold_left report_step rs tool_state0) in *.
    destruct r as [[k0 w]|]; cbn [report_step].
    2:{ intros k. destruct (IH k) as [Hm|Ha]; [left; exact Hm|right].
        intros ver Hin. apply in_app_or in Hin as [Hin|[Heq|[]]];
          [apply Ha, Hin|discriminate]. }
    cbv zeta.
    destruct (negb (String.eqb (version_of k0 (versions st)) "")
              && negb (String.eqb (version_of k0 (versions st)) w))%bool
      eqn:Ec; unfold mixed_or_agreed; cbn [versions]; intros k;
      (destruct (Bool.bool_dec k0 k) as [<-|Hn];
       [|rewrite (version_of_set_other _ _ _ _ Hn);
         destruct (IH k) as [Hm|Ha]; [left; exact Hm|right];
         intros ver Hin; apply in_app_or in Hin as [Hin|[Heq|[]]];
         [apply Ha, Hin|injection Heq as Heq _; contradiction]]).
    + left. apply version_of_set_same.
    + rewrite version_of_set_same. apply no_conflict_cases in Ec.
      destruct (IH k0) as [Hm|Ha].
      * left. destruct Ec as [Ec|Ec]; [rewrite Hm in Ec; discriminate|].
        congruence.
      * right. intros ver Hin.
        apply in_app_or in Hin as [Hin|[Heq|[]]]; [|congruence].
        pose proof (Ha _ Hin) as Hver.
        destruct Ec as [Ec|Ec]; [|congruence].
        exfalso. apply (Hg k0). apply in_or_app; left.
        rewrite Hver, Ec in Hin. exact Hin.
Qed.

Lemma tool_step_report st tool :
  tool_step st tool = (r <- reported tool ;; Ok (report_step st r)).
Proof.
  unfold tool_step, reported.
  destruct (check_output (tool ++ " --version")) as [out|e]; cbn [bind];
    [|reflexivity].
  unfold version_line, report_step.
  destruct (startswith "GNU " _);
    (destruct (contains_char " " _); cbn [negb]; [|reflexivity]);
    (destruct (split_once " " _) as [prog ver]);
    (destruct (String.eqb prog "" || String.eqb ver "")%bool;
     [reflexivity|]);
    cbv zeta; destruct (negb _ && negb _)%bool; reflexivity.
Qed.

Lemma tool_fold_reports tl : forall st,
  foldM tool_step tl st
  = (rs <- mapM reported tl ;; Ok (fold_left report_step rs st)).
Proof.
  induction tl as [|t tl IH]; intros st; cbn [foldM mapM]; [reflexivity|].
  rewrite tool_step_report.
  destruct (reported t) as [r|e]; cbn [bind]; [|reflexivity].
  rewrite IH. destruct (mapM reported tl); reflexivity.
Qed.

Lemma version_line_given out k : version_line out <> Some (k, "").
Proof.
  unfold version_line.
  destruct (startswith "GNU " _);
    (destruct (contains_char " " _); cbn [negb]; [|discriminate]);
    (destruct (split_once " " _) as [prog ver]);
    (destruct (String.eqb prog "") eqn:Ep; cbn [orb]; [discriminate|]);
    (destruct (String.eqb_spec ver ""); [discriminate|]);
    intros Heq; injection Heq as _ ->; congruence.
Qed.

Lemma Forall2_In_l {A B} (R : A -> B -> Prop) l l' a :
  Forall2 R l l' -> In a l -> exists b, In b l' /\ R a b.
Proof.
  induction 1 as [|a' b l l' Hab HF IH]; intros Hin; [destruct Hin|].
  destruct Hin as [->|Hin]; [exists b; split; [left; reflexivity|exact Hab]|].
  destruct (IH Hin) as (b' & Hb' & HR). exists b'. split; [right|]; assumption.
Qed.

(** What the loop has taken from the tools, when check_output returned
    for each of them. *)
Lemma tool_loop_Ok tl st :
  tool_loop tl = Ok st <->
  exists rs, mapM reported tl = Ok rs /\
             st = fold_left report_step rs tool_state0.
Proof.
  unfold tool_loop. rewrite tool_fold_reports.
  destruct (mapM reported tl) as [rs|e]; cbn [bind]; split.
  - intros Heq; injection Heq as <-. exists rs. split; reflexivity.
  - intros (rs' & Heq & ->). injection Heq as <-. reflexivity.
  - discriminate.
  - intros (rs' & Heq & _). discriminate.
Qed.

Lemma reports_of_tools tl rs :
  mapM reported tl = Ok rs ->
  List.length rs = List.length tl /\
  versions_given rs /\
  (forall r, In r rs <-> exists t, In t tl /\ reported t = Ok r).
Proof.
  intros Hm. apply mapM_Forall2 in Hm.
  split; [symmetry; apply (Forall2_length Hm)|].
  assert (Hin : forall r, In r rs <-> exists t, In t tl /\ reported t = Ok r).
  { intros r. split.
    - apply (Forall2_In_r _ _ _ _ Hm).
    - intros (t & Ht & Hr). destruct (Forall2_In_l _ _ _ _ Hm Ht) as (r' & Hr' & HR).
      rewrite Hr in HR. injection HR as <-. exact Hr'. }
  split; [|exact Hin].
  intros k Hk. apply Hin in Hk as (t & _ & Hr). unfold reported in Hr.
  apply bind_Ok in Hr as (out & _ & Hr). injection Hr as Hr.
  exact (version_line_given _ _ Hr).
Qed.

Lemma tool_versions_Ok tools c s :
  tool_versions tools = Ok (c, s) <->
  exists st,
    tool_loop (tool_list tools) = Ok st /\
    c = (negb (String.eqb (fst (versions st)) "")
         && negb (String.eqb (snd (versions st)) "")
         && Nat.eqb (success st) (List.length (tool_list tools)))%bool /\
    s = "gcc: " ++ fst (versions st) ++ " binutils: " ++ snd (versions st).
Proof.
  unfold tool_versions. cbv zeta.
  destruct (tool_loop (tool_list tools)) as [st|e]; cbn [bind]; split.
  - intros Heq; injection Heq as <- <-. exists st. auto.
  - intros (st' & Heq & -> & ->). injection Heq as <-. reflexivity.
  - discriminate.
  - intros (st' & Heq & _). discriminate.
Qed.

Lemma cleanbuild_true (st : tool_state) n :
  (negb (String.eqb (fst (versions st)) "")
   && negb (String.eqb (snd (versions st)) "")
   && Nat.eqb (success st) n)%bool = true <->
  fst (versions st) <> "" /\ snd (versions st) <> "" /\ success st = n.
Proof.
  destruct (String.eqb_spec (fst (versions st)) "") as [E1|E1];
    cbn [negb andb]; [split; [discriminate|tauto]|].
  destruct (String.eqb_spec (snd (versions st)) "") as [E2|E2];
    cbn [negb andb]; [split; [discriminate|tauto]|].
  destruct (Nat.eqb_spec (success st) n); split; try tauto; discriminate.
Qed.

Lemma check_output_step st tool out :
  check_output (tool ++ " --version") = Ok out ->
  exists st', tool_step st tool = Ok st'.
Proof.
  intros Hc. rewrite tool_step_report. unfold reported. rewrite Hc.
  cbn [bind]. eauto.
Qed.

Lemma all_tools_report tl :
  (forall t, In t tl -> exists out, check_output (t ++ " --version") = Ok out) ->
  exists rs, mapM reported tl = Ok rs.
Proof.
  intros Hall. destruct (mapM_total reported tl) as (rs & Hrs & _); [|eauto].
  intros t Ht. destruct (Hall t Ht) as (out & Ho).
  unfold reported. rewrite Ho. cbn [bind]. eauto.
Qed.

(** X15. tool_versions returns with a clean build exactly when
    check_output returned for every tool of the list with a version line
    that could be read, the tools that are no binutils programs all gave
    one version, the binutils programs all gave one version, and there is
    a tool of each kind; the string it returns holds these two
    versions. *)
Theorem clean_build_means_agreeing_tools :
  forall tools s,
    tool_versions tools = Ok (true, s) <->
    exists vg vb,
      s = "gcc: " ++ vg ++ " binutils: " ++ vb /\
      (exists t, In t (tool_list tools) /\
                 reported t = Ok (Some (false, vg))) /\
      (exists t, In t (tool_list tools) /\
                 reported t = Ok (Some (true, vb))) /\
      forall t, In t (tool_list tools) ->
                reported t = Ok (Some (false, vg)) \/
                reported t = Ok (Some (true, vb)).
Proof.
  intros tools s. rewrite tool_versions_Ok. split.
  - intros (st & Hl & Hc & ->). symmetry in Hc.
    apply cleanbuild_true in Hc as (H1 & H2 & Hs).
    apply tool_loop_Ok in Hl as (rs & Hm & ->).
    destruct (reports_of_tools _ _ Hm) as (Hlen & Hg & Hin).
    rewrite <- Hlen in Hs.
    destruct (clean_sound _ Hg Hs) as [Hall Hone].
    set (st := fold_left report_step rs tool_state0) in *.
    exists (fst (versions st)), (snd (versions st)).
    split; [reflexivity|]. split; [|split].
    + apply Hin. apply (Hone false H1).
    + apply Hin. apply (Hone true H2).
    + intros t Ht.
      destruct (all_tools_report (tool_list tools)) as (rs' & Hrs').
      { intros t' Ht'.
        destruct (Forall2_In_l _ _ _ _ (mapM_Forall2 _ _ _ Hm) Ht')
          as (r & _ & Hr).
        unfold reported in Hr. apply bind_Ok in Hr as (out & Ho & _). eauto. }
      destruct (Forall2_In_l _ _ _ _ (mapM_Forall2 _ _ _ Hm) Ht)
        as (r & Hr & Hrep).
      destruct (Hall r Hr) as ([|] & ->); [right|left]; exact Hrep.
  - intros (vg & vb & -> & (tg & Htg & Hrg) & (tb & Htb & Hrb) & Hall).
    destruct (mapM_total reported (tool_list tools)) as (rs & Hm & _).
    { intros t Ht. destruct (Hall t Ht) as [-> | ->]; eauto. }
    destruct (reports_of_tools _ _ Hm) as (Hlen & Hg & Hin).
    assert (Hv : forall k, (if k : bool then vb else vg) <> "").
    { intros [|] Heq; subst.
      - apply (Hg true). apply Hin. eauto.
      - apply (Hg false). apply Hin. eauto. }
    destruct (clean_complete (fun k : bool => if k then vb else vg) rs Hv)
      as (Hs & _ & Hone).
    { intros r Hr. apply Hin in Hr as (t & Ht & Hrep).
      destruct (Hall t Ht) as [E|E]; rewrite E in Hrep; injection Hrep as <-;
        [exists false|exists true]; reflexivity. }
    exists (fold_left report_step rs tool_state0).
    split; [apply tool_loop_Ok; eauto|].
    assert (Hf : fst (versions (fold_left report_step rs tool_state0)) = vg).
    { apply (Hone false). apply Hin. eauto. }
    assert (Hb : snd (versions (fold_left report_step rs tool_state0)) = vb).
    { apply (Hone true). apply Hin. eauto. }
    split; [|rewrite Hf, Hb; reflexivity].
    symmetry. apply cleanbuild_true. rewrite Hf, Hb.
    split; [exact (Hv false)|]. split; [exact (Hv true)|]. congruence.
Qed.

(** X16. When check_output returns for every tool of the list, and two
    tools of one kind (binutils programs, or the others) give different
    versions: tool_versions returns, the version it returns for this kind
    is "mixed", wherever in the list the two tools are and whatever the
    tools after them give, and the build is not reported as clean. *)
Theorem differing_tools_give_mixed :
  forall tools t1 t2 k v1 v2,
    (forall t, In t (tool_list tools) ->
               exists out, check_output (t ++ " --version") = Ok out) ->
    In t1 (tool_list tools) -> In t2 (tool_list tools) ->
    reported t1 = Ok (Some (k, v1)) ->
    reported t2 = Ok (Some (k, v2)) ->
    v1 <> v2 ->
    exists st,
      tool_loop (tool_list tools) = Ok st /\
      version_of k (versions st) = "mixed" /\
      tool_versions tools
      = Ok (false,
            "gcc: " ++ fst (versions st) ++ " binutils: " ++ snd (versions st)).
Proof.
  intros tools t1 t2 k v1 v2 Hall Ht1 Ht2 Hr1 Hr2 Hne.
  destruct (all_tools_report _ Hall) as (rs & Hm).
  destruct (reports_of_tools _ _ Hm) as (Hlen & Hg & Hin).
  assert (Hi1 : In (Some (k, v1)) rs) by (apply Hin; eauto).
  assert (Hi2 : In (Some (k, v2)) rs) by (apply Hin; eauto).
  set (st := fold_left report_step rs tool_state0).
  assert (Hl : tool_loop (tool_list tools) = Ok st)
    by (apply tool_loop_Ok; eauto).
  exists st. split; [exact Hl|]. split.
  - destruct (mixed_inv _ Hg k) as [Hmx|Ha]; [exact Hmx|].
    exfalso. apply Hne. rewrite (Ha _ Hi1), (Ha _ Hi2). reflexivity.
  - apply tool_versions_Ok. exists st. split; [exact Hl|].
    split; [|reflexivity].
    destruct (negb (String.eqb (fst (versions st)) "")
              && negb (String.eqb (snd (versions st)) "")
              && Nat.eqb (success st) (List.length (tool_list tools)))%bool
      eqn:Ec; [|reflexivity].
    exfalso. apply cleanbuild_true in Ec as (_ & _ & Hs).
    rewrite <- Hlen in Hs.
    destruct (clean_sound _ Hg Hs) as [Hcl _].
    destruct (Hcl _ Hi1) as (k1 & E1). destruct (Hcl _ Hi2) as (k2 & E2).
    injection E1 as <- E1. injection E2 as <- E2. congruence.
Qed.

(** X19. A tool name that makes a command line which shlex.split cannot
    split (a quote that is not closed) is not skipped as a tool that
    cannot be run is: check_output catches OSError only, the exception of
    shlex.split goes through it and through tool_versions, once
    check_output has returned for the tools before it. *)
Theorem tool_name_that_cannot_be_split_raises :
  forall tools pre t post e,
    tool_list tools = (pre ++ t :: post)%list ->
    (forall t', In t' pre ->
                exists out, check_output (t' ++ " --version") = Ok out) ->
    shlex_split (t ++ " --version") = Raise e ->
    check_output (t ++ " --version") = Raise e /\
    tool_loop (tool_list tools) = Raise e /\
    tool_versions tools = Raise e.
Proof.
  intros tools pre t post e Hl Hpre Hsplit.
  assert (Hc : check_output (t ++ " --version") = Raise e)
    by (unfold check_output; rewrite Hsplit; reflexivity).
  split; [exact Hc|].
  assert (Hfold : forall st, exists st', foldM tool_step pre st = Ok st').
  { clear Hl. induction pre as [|a pre IH]; intros st; cbn [foldM]; [eauto|].
    destruct (Hpre a (or_introl eq_refl)) as (out & Ho).
    destruct (check_output_step st a out Ho) as (st1 & ->). cbn [bind].
    apply IH. intros t' Ht'. apply Hpre. right; exact Ht'. }
  assert (Hloop : tool_loop (tool_list tools) = Raise e).
  { unfold tool_loop. rewrite Hl.
    destruct (Hfold {| versions := ("", ""); success := 0 |}) as (st1 & Hst1).
    apply (foldM_fails _ _ _ _ _ _ _ Hst1).
    rewrite tool_step_report. unfold reported. rewrite Hc. reflexivity. }
  split; [exact Hloop|].
  unfold tool_versions. cbv zeta. rewrite Hloop. reflexivity.
Qed.

(** X20. A tool that cannot be started, that ends with a status other
    than 0 or that writes bytes which are no ASCII text gives the empty
    output in check_output and nothing to the loop of tool_versions: no
    error, and the build is not reported as clean. *)
Theorem tool_that_does_not_run_is_no_clean_build :
  forall tools t args,
    In t (tool_list tools) ->
    shlex_split (t ++ " --version") = Ok args ->
    (popen args = Ok None \/
     exists out rc, popen args = Ok (Some (out, rc)) /\
                    (rc <> 0 \/ is_ascii out = false)) ->
    check_output (t ++ " --version") = Ok "" /\
    reported t = Ok None /\
    forall s, tool_versions tools <> Ok (true, s).
Proof.
  intros tools t args Ht Hsplit Hrun.
  assert (Hc : check_output (t ++ " --version") = Ok "").
  { unfold check_output. rewrite Hsplit. cbn [bind].
    destruct Hrun as [-> |(out & rc & -> & Hbad)]; [reflexivity|].
    cbn [bind]. destruct (Z.eqb_spec rc 0) as [->|Hrc]; cbn [negb];
      [|reflexivity].
    destruct Hbad as [Hbad|Hbad]; [congruence|]. rewrite Hbad. reflexivity. }
  assert (Hr : reported t = Ok None)
    by (unfold reported; rewrite Hc; reflexivity).
  split; [exact Hc|]. split; [exact Hr|].
  intros s Hv. apply tool_versions_Ok in Hv as (st & Hl & Hcl & _).
  symmetry in Hcl. apply cleanbuild_true in Hcl as (_ & _ & Hs).
  apply tool_loop_Ok in Hl as (rs & Hm & ->).
  destruct (reports_of_tools _ _ Hm) as (Hlen & Hg & Hin).
  rewrite <- Hlen in Hs.
  destruct (clean_sound _ Hg Hs) as [Hall _].
  destruct (Hall None) as (k & Hk); [apply Hin; eauto|discriminate].
Qed.

End Properties.

(* ================================================================== *)
(** * The theorems at concrete requests *)
(* ================================================================== *)

Section Witnesses.

#[local] Existing Instance example_msgproto.
#[local] Existing Instance example_pylib.
#[local] Existing Instance example_order_string.
#[local] Existing Instance example_order_Z.
#[local] Existing Instance example_order_sig.
#[local] Existing Instance example_subprocess.

Lemma example_replayed : replayed example_requests example_handlers.
Proof. eexists; split; vm_compute; reflexivity. Qed.

Lemma baseline_identifiers_are_kept_witness :
  replayed example_requests example_handlers /\
  exists H' doc msgs,
    update_all example_handlers [] = Ok (H', doc) /\
    dict_get "identify offset=%u count=%c" (msg_to_id (cmdgen H')) = Some 1 /\
    dict_get "messages" doc = Some (PDictI msgs) /\
    dict_get 1 msgs = Some (PStr "identify offset=%u count=%c").
Proof.
  split; [eexists; split; vm_compute; reflexivity|].
  apply (baseline_identifiers_are_kept example_requests example_handlers 1
           "identify offset=%u count=%c").
  - eexists; split; vm_compute; reflexivity.
  - vm_compute; reflexivity.
  - intros k. vm_compute.
    destruct k as [|[p|p|]|p]; try discriminate; try reflexivity;
      destruct p; discriminate.
Defined.

Lemma create_message_ids_allocates_fresh_increasing_witness :
  py_max (dict_values (msg_to_id (cmdgen example_handlers))) = Ok 1 /\
  exists h' news,
    create_message_ids (cmdgen example_handlers) = Ok h' /\
    msg_to_id h' = (msg_to_id (cmdgen example_handlers) ++ news)%list /\
    map snd news = ids_from 1 (List.length news) /\
    (forall msg i, In (msg, i) news -> 1 < i).
Proof.
  split; [vm_compute; reflexivity|].
  destruct (create_message_ids_allocates_fresh_increasing
              example_requests example_handlers 1)
    as (h' & news & Hc & Hm & _ & Hs & Hgt & _).
  - eexists; split; vm_compute; reflexivity.
  - vm_compute; reflexivity.
  - exists h', news. split; [exact Hc|]. split; [exact Hm|].
    split; [exact Hs|].
    intros msg i Hin.
    apply (Hgt msg i Hin "identify offset=%u count=%c" 1).
    vm_compute; reflexivity.
Defined.

Lemma commands_responses_partition_named_messages_witness :
  replayed example_requests example_handlers /\
  exists H' doc msgs cmds resps,
    update_all example_handlers [] = Ok (H', doc) /\
    dict_get "messages" doc
      = Some (PDictI (map (fun '(i, m) => (i, PStr m)) msgs)) /\
    dict_get "commands" doc = Some (PList (map PInt cmds)) /\
    dict_get "responses" doc = Some (PList (map PInt resps)) /\
    (forall i, ~ (In i cmds /\ In i resps)) /\
    (forall i, In i cmds \/ In i resps -> dict_in i msgs = true).
Proof.
  split; [eexists; split; vm_compute; reflexivity|].
  destruct (commands_responses_partition_named_messages
              example_requests example_handlers)
    as (H' & doc & msgs & cmds & resps & Hu & Hm & Hc & Hr & Hd & Hs & _).
  - eexists; split; vm_compute; reflexivity.
  - discriminate.
  - exists H', doc, msgs, cmds, resps. repeat split; assumption.
Defined.

(** The identifier of an output is a key of 'messages' and in neither list. *)
Lemma output_identifier_in_neither_list : ~ partition_as_stated.
Proof.
  intros Hclaim.
  destruct (Hclaim ["_DECL_OUTPUT hello %u"] output_only_handlers
              (with_cmdgen output_only_handlers
                 (with_msg_to_id (cmdgen output_only_handlers)
                    [("identify_response offset=%u data=%.*s", 0);
                     ("identify offset=%u count=%c", 1);
                     ("hello %u", 2)]))
              [("static_strings", PDictI []); ("config", PDictS []);
               ("messages",
                PDictI [(0, PStr "identify_response offset=%u data=%.*s");
                        (1, PStr "identify offset=%u count=%c");
                        (2, PStr "hello %u")]);
               ("commands", PList []);
               ("responses", PList [PInt 0; PInt 1])]
              [(0, PStr "identify_response offset=%u data=%.*s");
               (1, PStr "identify offset=%u count=%c");
               (2, PStr "hello %u")]
              [] [0; 1]) as [_ Hunion].
  - eexists; split; vm_compute; reflexivity.
  - vm_compute; reflexivity.
  - reflexivity.
  - reflexivity.
  - reflexivity.
  - destruct (proj1 (Hunion 2) eq_refl) as [[]|[H|[H|[]]]]; discriminate.
Qed.

Lemma conflicting_redeclaration_fails_without_output_witness :
  command_of "_DECL_COMMAND command_x 0 a %u" = Some ("command_x", "0", "a", "a %u") /\
  command_of "_DECL_COMMAND command_x 0 a %hu" = Some ("command_x", "0", "a", "a %hu") /\
  exit_status (main example_env conflict_file) <> 0 /\
  events (main example_env conflict_file) = [] /\
  files_touched (main example_env conflict_file) = [].
Proof.
  split; [vm_compute; reflexivity|]. split; [vm_compute; reflexivity|].
  destruct (conflicting_redeclaration_fails_without_output
              example_env conflict_file []
              "_DECL_COMMAND command_x 0 a %u" []
              "_DECL_COMMAND command_x 0 a %hu" []
              "command_x" "0" "a" "a %u" "a %hu")
    as (He & Hev & Hf & _).
  - vm_compute; reflexivity.
  - vm_compute; reflexivity.
  - left. exists "command_x", "0". vm_compute; reflexivity.
  - discriminate.
  - repeat split; assumption.
Defined.

Lemma second_command_declaration_is_fatal_witness :
  handle_request repeated_handlers
    "_DECL_COMMAND command_get_config 0x01 get_config"
  = Raise (multiple_definitions "get_config") /\
  finish (main example_env repeated_file)
  = Raise (multiple_definitions "get_config") /\
  exit_status (main example_env repeated_file) = -1 /\
  events (main example_env repeated_file) = [].
Proof.
  apply (second_command_declaration_is_fatal
           example_env repeated_file []
           "_DECL_COMMAND command_get_config 0x01 get_config"
           ["_DECL_ENCODER config is_config=%c"]
           "_DECL_COMMAND command_get_config 0x01 get_config" []
           "command_get_config" "0x01" "get_config" "get_config"
           "command_get_config" "0x01" "get_config" repeated_handlers).
  - vm_compute; reflexivity.
  - vm_compute; reflexivity.
  - vm_compute; reflexivity.
  - eexists; split; vm_compute; reflexivity.
Defined.

Lemma command_index_is_dense_witness :
  exists maxid st text h2,
    commands_loop_run (cmdgen example_assigned) = Ok st /\
    generate_commands_code (cmdgen example_assigned) = Ok (text, h2) /\
    text = command_index_text ["command_get_config"; "command_queue_step"]
                              (index st) /\
    maxid = 3 /\
    List.length (index st) = 4%nat /\
    nth_error (index st) 0 = Some placeholder_entry /\
    nth_error (index st) 1 = Some placeholder_entry /\
    (exists parsercode,
        nth_error (index st) 2
        = Some (command_entry parsercode "0x01" "command_get_config")) /\
    (exists parsercode,
        nth_error (index st) 3
        = Some (command_entry parsercode "0" "command_queue_step")).
Proof.
  destruct (command_index_is_dense example_requests example_handlers
              example_assigned
              (match update_all example_handlers [] with
               | Ok (_, doc) => doc
               | Raise _ => []
               end) [])
    as (maxid & st & text & h2 & Hrun & Hgen & Htext & (n & c & Hc & Hid)
        & Hmax & Hlen & _ & Hent).
  - eexists; split; vm_compute; reflexivity.
  - vm_compute; reflexivity.
  - discriminate.
  - intros n c m i Hc Hm Hi.
    change (with_all_param_types (cmdgen example_assigned) [])
      with (cmdgen example_assigned) in *.
    destruct (String.eqb_spec n "get_config") as [->|N1].
    + vm_compute in Hm. injection Hm as <-.
      vm_compute in Hi. injection Hi as <-.
      eexists; vm_compute; reflexivity.
    + destruct (String.eqb_spec n "queue_step") as [->|N2].
      * vm_compute in Hm. injection Hm as <-.
        vm_compute in Hi. injection Hi as <-.
        eexists; vm_compute; reflexivity.
      * exfalso. cbn in Hc.
        destruct (String.eqb_spec n "get_config"); [contradiction|].
        destruct (String.eqb_spec n "queue_step"); [contradiction|].
        discriminate.
  - change (with_all_param_types (cmdgen example_assigned) [])
      with (cmdgen example_assigned) in *.
    assert (Hm3 : maxid = 3).
    { assert (H3 : 3 <= maxid).
      { apply (Hmax "queue_step" ("command_queue_step", "0", "queue_step"));
          vm_compute; reflexivity. }
      assert (Hle : maxid <= 3); [|lia].
      cbn in Hc.
      destruct (String.eqb_spec n "get_config") as [->|N1].
      - vm_compute in Hid. injection Hid as <-. lia.
      - destruct (String.eqb_spec n "queue_step") as [->|N2].
        + vm_compute in Hid. injection Hid as <-. lia.
        + discriminate. }
    subst maxid.
    assert (Hnone : forall i, i = 0 \/ i = 1 ->
              forall n c, dict_get n (commands (cmdgen example_assigned)) = Some c ->
                          command_id (cmdgen example_assigned) n <> Some i).
    { intros i Hi n' c' Hc'. cbn in Hc'.
      destruct (String.eqb_spec n' "get_config") as [->|N1].
      - vm_compute. destruct Hi as [->| ->]; discriminate.
      - destruct (String.eqb_spec n' "queue_step") as [->|N2].
        + vm_compute. destruct Hi as [->| ->]; discriminate.
        + discriminate. }
    exists 3, st, text, h2.
    split; [exact Hrun|]. split; [exact Hgen|].
    split.
    { rewrite Htext. f_equal.
      assert (Hst : Ok st = commands_loop_run (cmdgen example_assigned))
        by (symmetry; exact Hrun).
      vm_compute in Hst. injection Hst as ->. vm_compute. reflexivity. }
    split; [reflexivity|].
    split; [exact Hlen|].
    split; [apply (proj1 (Hent 0 ltac:(lia))), Hnone; auto|].
    split; [apply (proj1 (Hent 1 ltac:(lia))), Hnone; auto|].
    split.
    + apply (proj2 (Hent 2 ltac:(lia)) "get_config"); vm_compute; reflexivity.
    + apply (proj2 (Hent 3 ltac:(lia)) "queue_step"); vm_compute; reflexivity.
Defined.

(** ** C2 *)

(** C2 fails on the code.  create_message_ids walks
    self.commands.keys(), the keys of a dict, in the order in which the
    interpreter iterates the dict, and hands out the identifiers in that
    order.  Two runs on the request file with the commands get_config
    and queue_step, with the same baseline, the same version string and
    the same tool-chain string: the run that iterates its dicts in the
    order of insertion gives get_config the identifier 2 and queue_step
    the identifier 3; the run that iterates them in the reverse order
    gives 3 and 2.  Both runs end well; their generated tables differ
    and their schema documents differ. *)
Theorem iteration_order_changes_identifiers :
  (exists ids1 ids2,
     identifier_mapping (hs := insertion_order string) two_commands_file
     = Ok ids1 /\
     identifier_mapping (hs := reversed_order string) two_commands_file
     = Ok ids2 /\
     dict_get "get_config" ids1 = Some 2 /\
     dict_get "queue_step oid=%c interval=%u count=%hu add=%hi" ids1 = Some 3 /\
     dict_get "get_config" ids2 = Some 3 /\
     dict_get "queue_step oid=%c interval=%u count=%hu add=%hi" ids2 = Some 2) /\
  (exists code1 code2,
     generated_tables (hs := insertion_order string) example_env
       two_commands_file = Ok code1 /\
     generated_tables (hs := reversed_order string) example_env
       two_commands_file = Ok code2 /\
     code1 <> code2) /\
  (exists doc1 doc2,
     schema_document (hs := insertion_order string) example_env
       two_commands_file = Ok doc1 /\
     schema_document (hs := reversed_order string) example_env
       two_commands_file = Ok doc2 /\
     doc1 <> doc2) /\
  finish (main (hs := insertion_order string) example_env two_commands_file)
  = Ok tt /\
  finish (main (hs := reversed_order string) example_env two_commands_file)
  = Ok tt.
Proof.
  split; [|split; [|split; [|split]]].
  - eexists. eexists.
    split; [vm_compute; reflexivity|].
    split; [vm_compute; reflexivity|].
    repeat split; vm_compute; reflexivity.
  - eexists. eexists.
    split; [vm_compute; reflexivity|].
    split; [vm_compute; reflexivity|].
    apply String.eqb_neq. vm_compute. reflexivity.
  - eexists. eexists.
    split; [vm_compute; reflexivity|].
    split; [vm_compute; reflexivity|].
    apply String.eqb_neq. vm_compute. reflexivity.
  - vm_compute. reflexivity.
  - vm_compute. reflexivity.
Qed.

(** ** C9 *)

(** C9 fails on the code.  On a request file that declares no command (the
    empty file here) identifiers are assigned and the output file is
    opened, and then generate_commands_code raises ValueError, from max()
    of an empty sequence: the run ends with status 1 and nothing written
    into the file it has opened. *)
Theorem no_command_raises_value_error :
  (exists H0 H doc icode,
      Handlers = Ok H0 /\ parse_request_file "" H0 = Ok H0 /\
      build_identify H0 (build_version example_env) (toolstr example_env)
      = Ok (H, doc, icode) /\
      commands (cmdgen H) = [] /\
      generate_commands_code (cmdgen H) = Raise ValueError) /\
  finish (main example_env "") = Raise ValueError /\
  exit_status (main example_env "") = 1 /\
  events (main example_env "")
  = [Stdout ("Version: v0.5.0-12-gabcdef-20180101_120000-build" ++ NL);
     Open "out/compile_time_request.c"].
Proof.
  split.
  - do 4 eexists. split; [vm_compute; reflexivity|].
    split; [vm_compute; reflexivity|].
    split; [vm_compute; reflexivity|].
    split; vm_compute; reflexivity.
  - repeat split; vm_compute; reflexivity.
Qed.



Lemma signatures_interned_in_first_seen_order_witness :
  all_param_types (cmdgen example_assigned) = [] /\
  exists code h' built slots,
    cmdgen_generate_code (cmdgen example_assigned) = Ok (code, h') /\
    all_param_types h'
    = snd (build_parser_run (encoder_calls built ++ command_calls slots) []) /\
    map snd (all_param_types h')
    = seq 0 (distinct_count
               (map (fun c => signature (fst c))
                    (encoder_calls built ++ command_calls slots))).
Proof.
  split; [reflexivity|].
  destruct signatures_interned_in_first_seen_order as [Hrun Hgen].
  destruct (cmdgen_generate_code (cmdgen example_assigned))
    as [[code h']|e] eqn:Hg; [|vm_compute in Hg; discriminate].
  destruct (Hgen (cmdgen example_assigned) code h' eq_refl Hg)
    as (built & slots & st1 & st2 & _ & _ & Happ & _ & _ & Htable & _ & _).
  exists code, h', built, slots. split; [reflexivity|].
  assert (Ht : all_param_types h'
               = snd (build_parser_run
                        (encoder_calls built ++ command_calls slots) []))
    by (rewrite Happ; exact Htable).
  split; [exact Ht|].
  rewrite Ht.
  apply (Hrun (encoder_calls built ++ command_calls slots)%list).
Defined.


Lemma split_on_join_records_witness :
  example_requests <> [] /\
  split_on NUL (request_file example_requests) = example_requests.
Proof.
  split; [discriminate|].
  apply (split_on_join_records example_requests); [discriminate|].
  intros r Hin. cbn [example_requests In] in Hin.
  repeat (destruct Hin as [<-|Hin]; [vm_compute; reflexivity|]).
  destruct Hin.
Defined.

Lemma trailing_blank_record_is_skipped_witness :
  lstrip NL = "" /\
  main example_env (request_file example_requests ++ String NUL NL)
  = main example_env (request_file example_requests).
Proof.
  split; [vm_compute; reflexivity|].
  apply (trailing_blank_record_is_skipped example_env
           (request_file example_requests) NL);
    vm_compute; reflexivity.
Defined.

Lemma unknown_directive_is_fatal_witness :
  replayed ["_DECL_CONSTANT MCU avr"] one_constant_handlers /\
  main example_env unknown_directive_file
  = stop [] (SystemExit "Unknown build time command '_DECL_BOGUS'") /\
  exit_status (main example_env unknown_directive_file) = -1.
Proof.
  split; [eexists; split; vm_compute; reflexivity|].
  destruct (unknown_directive_is_fatal example_env unknown_directive_file
              ["_DECL_CONSTANT MCU avr"] "_DECL_BOGUS x"
              ["_DECL_OUTPUT hello %u"] "_DECL_BOGUS" one_constant_handlers)
    as (_ & Hm & He).
  - vm_compute; reflexivity.
  - eexists; split; vm_compute; reflexivity.
  - vm_compute; reflexivity.
  - cbn [directives In]. intros Hin.
    repeat (destruct Hin as [Hin|Hin]; [discriminate|]). destruct Hin.
  - split; [exact Hm|exact He].
Defined.

Lemma call_lists_keep_declaration_order_witness :
  replayed calllist_requests calllist_handlers /\
  dict_get "ctr_run_taskfuncs" (call_lists (calllist calllist_handlers))
  = Some ["sched_task"; "adc_task"] /\
  dict_get "ctr_run_initfuncs" (call_lists (calllist calllist_handlers))
  = Some ["sched_init"].
Proof.
  assert (Hr : replayed calllist_requests calllist_handlers)
    by (eexists; split; vm_compute; reflexivity).
  split; [exact Hr|]. split.
  - exact (call_lists_keep_declaration_order calllist_requests
             calllist_handlers Hr "ctr_run_taskfuncs").
  - exact (call_lists_keep_declaration_order calllist_requests
             calllist_handlers Hr "ctr_run_initfuncs").
Defined.

Lemma static_strings_numbered_in_request_order_witness :
  replayed static_requests static_handlers /\
  exists H' doc d,
    update_all static_handlers [] = Ok (H', doc) /\
    dict_get "static_strings" doc = Some (PDictI d) /\
    dict_get 2 d = Some (PStr "Timer too close") /\
    dict_get 3 d = Some (PStr "Rescheduled timer in the past") /\
    dict_get 4 d = Some (PStr "Timer too close") /\
    dict_get 5 d = None.
Proof.
  assert (Hr : replayed static_requests static_handlers)
    by (eexists; split; vm_compute; reflexivity).
  split; [exact Hr|].
  destruct (update_all static_handlers []) as [[H' doc]|e] eqn:Hu;
    [|vm_compute in Hu; discriminate].
  destruct (static_strings_numbered_in_request_order
              static_requests static_handlers H' doc Hr Hu) as (d & Hd & Hk).
  exists H', doc, d. split; [reflexivity|]. split; [exact Hd|].
  rewrite (Hk 2), (Hk 3), (Hk 4), (Hk 5).
  repeat split; vm_compute; reflexivity.
Defined.

Lemma config_holds_the_declared_constants_witness :
  replayed constant_requests constant_handlers /\
  exists H' doc cfg,
    update_all constant_handlers [] = Ok (H', doc) /\
    dict_get "config" doc = Some (PDictS cfg) /\
    dict_get "MCU" cfg = Some (PStr "avr") /\
    dict_get "CLOCK_FREQ" cfg = Some (PStr "16000000").
Proof.
  assert (Hr : replayed constant_requests constant_handlers)
    by (eexists; split; vm_compute; reflexivity).
  split; [exact Hr|].
  destruct (update_all constant_handlers []) as [[H' doc]|e] eqn:Hu;
    [|vm_compute in Hu; discriminate].
  destruct (config_holds_the_declared_constants
              constant_requests constant_handlers H' doc Hr Hu)
    as (cfg & Hc & Hk).
  exists H', doc, cfg. split; [reflexivity|]. split; [exact Hc|]. split.
  - apply Hk. exists ("_DECL_CONSTANT MCU " ++ DQ ++ "avr" ++ DQ), "avr".
    split; [right; right; left; reflexivity|].
    split; vm_compute; reflexivity.
  - apply Hk. exists "_DECL_CONSTANT CLOCK_FREQ 16000000", "16000000".
    split; [right; left; reflexivity|].
    split; vm_compute; reflexivity.
Defined.

Lemma conflicting_constant_is_fatal_witness :
  replayed ["_DECL_CONSTANT MCU avr"] one_constant_handlers /\
  main example_env constant_conflict_file
  = stop [] (SystemExit "Conflicting definition for constant 'MCU'") /\
  exit_status (main example_env constant_conflict_file) = -1.
Proof.
  assert (Hr : replayed ["_DECL_CONSTANT MCU avr"] one_constant_handlers)
    by (eexists; split; vm_compute; reflexivity).
  split; [exact Hr|].
  destruct (conflicting_constant_is_fatal example_env constant_conflict_file
              ["_DECL_CONSTANT MCU avr"] "_DECL_CONSTANT MCU avr"
              "_DECL_CONSTANT MCU sam3x8e" [] one_constant_handlers
              "MCU" "avr" "sam3x8e")
    as (_ & Hm & He).
  - vm_compute; reflexivity.
  - exact Hr.
  - left; reflexivity.
  - vm_compute; reflexivity.
  - vm_compute; reflexivity.
  - discriminate.
  - split; [exact Hm|exact He].
Defined.

Lemma quoted_constant_is_the_bare_one_witness :
  is_token "MCU" /\ is_token "avr" /\
  handle_request one_constant_handlers
    ("_DECL_CONSTANT MCU " ++ DQ ++ "avr" ++ DQ)
  = handle_request one_constant_handlers "_DECL_CONSTANT MCU avr".
Proof.
  assert (Hn : is_token "MCU") by (split; [discriminate|reflexivity]).
  assert (Hv : is_token "avr") by (split; [discriminate|reflexivity]).
  split; [exact Hn|]. split; [exact Hv|].
  exact (quoted_constant_is_the_bare_one one_constant_handlers "MCU" "avr"
           Hn Hv eq_refl).
Defined.

Lemma wrong_word_count_is_uncaught_witness :
  replayed ["_DECL_CONSTANT MCU avr"] one_constant_handlers /\
  main example_env blank_constant_file = stop [] ValueError /\
  exit_status (main example_env blank_constant_file) = 1.
Proof.
  assert (Hr : replayed ["_DECL_CONSTANT MCU avr"] one_constant_handlers)
    by (eexists; split; vm_compute; reflexivity).
  split; [exact Hr|].
  destruct (wrong_word_count_is_uncaught example_env blank_constant_file
              ["_DECL_CONSTANT MCU avr"]
              ("_DECL_CONSTANT BOARD " ++ DQ ++ "my board" ++ DQ) []
              one_constant_handlers ValueError)
    as (_ & _ & Hm & He).
  - vm_compute; reflexivity.
  - exact Hr.
  - vm_compute; reflexivity.
  - split; [exact Hm|exact He].
Defined.

Lemma command_against_known_format_is_fatal_witness :
  replayed ["_DECL_ENCODER stats count=%u"] one_encoder_handlers /\
  main example_env command_conflict_file
  = stop [] (SystemExit "Conflicting definition for command 'stats'") /\
  exit_status (main example_env command_conflict_file) = -1.
Proof.
  assert (Hr : replayed ["_DECL_ENCODER stats count=%u"] one_encoder_handlers)
    by (eexists; split; vm_compute; reflexivity).
  split; [exact Hr|].
  destruct (command_against_known_format_is_fatal example_env
              command_conflict_file
              ["_DECL_ENCODER stats count=%u"]
              "_DECL_COMMAND command_stats 0 stats count=%hu" []
              one_encoder_handlers
              "command_stats" "0" "stats" "stats count=%hu" "stats count=%u")
    as (_ & Hm & He).
  - vm_compute; reflexivity.
  - exact Hr.
  - vm_compute; reflexivity.
  - vm_compute; reflexivity.
  - vm_compute; reflexivity.
  - discriminate.
  - split; [exact Hm|exact He].
Defined.

Lemma declared_text_is_kept_verbatim_witness :
  blank_head "   Timer  too close " = true /\
  handle_request example_handlers ("_DECL_STATIC_STR" ++ "   Timer  too close ")
  = Ok (with_static_str example_handlers "Timer  too close ") /\
  handle_request example_handlers ("_DECL_OUTPUT" ++ "   Timer  too close ")
  = Ok (with_cmdgen example_handlers
          (declared_encoder (cmdgen example_handlers) None "Timer  too close ")).
Proof.
  split; [reflexivity|].
  destruct (declared_text_is_kept_verbatim example_handlers
              "   Timer  too close ") as (Hs & Ho & _).
  - reflexivity.
  - discriminate.
  - split; [exact Hs|exact Ho].
Defined.

Lemma output_with_the_name_of_a_message_gets_no_identifier_witness :
  replayed (split_on NUL shadowed_output_file) shadowed_output_handlers /\
  In (None, "status") (encoders (cmdgen shadowed_output_handlers)) /\
  exists e, finish (main example_env shadowed_output_file) = Raise e.
Proof.
  assert (Hr : replayed (split_on NUL shadowed_output_file)
                        shadowed_output_handlers)
    by (eexists; split; vm_compute; reflexivity).
  split; [exact Hr|].
  split; [right; left; reflexivity|].
  apply (output_with_the_name_of_a_message_gets_no_identifier
           example_env shadowed_output_file shadowed_output_handlers
           "status" "status clock=%u").
  - exact Hr.
  - right; left; reflexivity.
  - vm_compute; reflexivity.
  - discriminate.
  - vm_compute; reflexivity.
Defined.

Lemma parameter_arrays_come_in_index_order_witness :
  all_param_types (cmdgen example_assigned) = [] /\
  exists code h',
    cmdgen_generate_code (cmdgen example_assigned) = Ok (code, h') /\
    map snd (all_param_types h') = seq 0 (List.length (all_param_types h')) /\
    exists parsercode cmdcode,
      code = generate_param_code h' ++ parsercode ++ cmdcode.
Proof.
  split; [reflexivity|].
  destruct (cmdgen_generate_code (cmdgen example_assigned))
    as [[code h']|e] eqn:Hg; [|vm_compute in Hg; discriminate].
  destruct (parameter_arrays_come_in_index_order
              (cmdgen example_assigned) code h' eq_refl Hg)
    as (Hn & _ & Hc).
  exists code, h'. split; [reflexivity|]. split; [exact Hn|exact Hc].
Defined.

Lemma clean_build_means_agreeing_tools_witness :
  tool_list "avr-gcc; avr-ld" = ["avr-gcc"; "avr-ld"] /\
  tool_versions "avr-gcc; avr-ld"
  = Ok (true, "gcc: (GCC) 7.2.0 binutils: (GNU Binutils) 2.29").
Proof.
  split; [vm_compute; reflexivity|].
  apply (proj2 (clean_build_means_agreeing_tools "avr-gcc; avr-ld"
                  "gcc: (GCC) 7.2.0 binutils: (GNU Binutils) 2.29")).
  exists "(GCC) 7.2.0", "(GNU Binutils) 2.29".
  split; [vm_compute; reflexivity|].
  split; [exists "avr-gcc"; split; [left; reflexivity|vm_compute; reflexivity]|].
  split; [exists "avr-ld";
          split; [right; left; reflexivity|vm_compute; reflexivity]|].
  intros t Ht. change (tool_list "avr-gcc; avr-ld") with ["avr-gcc"; "avr-ld"] in Ht.
  destruct Ht as [<-|[<-|[]]]; [left|right]; vm_compute; reflexivity.
Defined.

Lemma differing_tools_give_mixed_witness :
  tool_list "avr-gcc; avr-ld; avr-objcopy"
  = ["avr-gcc"; "avr-ld"; "avr-objcopy"] /\
  exists st,
    tool_loop (tool_list "avr-gcc; avr-ld; avr-objcopy") = Ok st /\
    version_of true (versions st) = "mixed" /\
    tool_versions "avr-gcc; avr-ld; avr-objcopy"
    = Ok (false,
          "gcc: " ++ fst (versions st) ++ " binutils: " ++ snd (versions st)).
Proof.
  split; [vm_compute; reflexivity|].
  apply (differing_tools_give_mixed
           "avr-gcc; avr-ld; avr-objcopy" "avr-ld" "avr-objcopy" true
           "(GNU Binutils) 2.29" "(GNU Binutils) 2.26").
  - intros t Ht.
    change (tool_list "avr-gcc; avr-ld; avr-objcopy")
      with ["avr-gcc"; "avr-ld"; "avr-objcopy"] in Ht.
    destruct Ht as [<-|[<-|[<-|[]]]]; eexists; vm_compute; reflexivity.
  - right; left; reflexivity.
  - right; right; left; reflexivity.
  - vm_compute; reflexivity.
  - vm_compute; reflexivity.
  - discriminate.
Defined.

Lemma tool_name_that_cannot_be_split_raises_witness :
  tool_list "avr-gcc; avr-'ld; avr-objcopy"
  = ["avr-gcc"; "avr-'ld"; "avr-objcopy"] /\
  tool_versions "avr-gcc; avr-'ld; avr-objcopy" = Raise ValueError.
Proof.
  split; [vm_compute; reflexivity|].
  apply (tool_name_that_cannot_be_split_raises
           "avr-gcc; avr-'ld; avr-objcopy" ["avr-gcc"] "avr-'ld"
           ["avr-objcopy"] ValueError).
  - vm_compute; reflexivity.
  - intros t [<-|[]]. eexists; vm_compute; reflexivity.
  - vm_compute; reflexivity.
Defined.

Lemma tool_that_does_not_run_is_no_clean_build_witness :
  tool_list "avr-gcc; avr-ld; avr-size" = ["avr-gcc"; "avr-ld"; "avr-size"] /\
  reported "avr-size" = Ok None /\
  tool_versions "avr-gcc; avr-ld; avr-size"
  = Ok (false, "gcc: (GCC) 7.2.0 binutils: (GNU Binutils) 2.29") /\
  forall s, tool_versions "avr-gcc; avr-ld; avr-size" <> Ok (true, s).
Proof.
  split; [vm_compute; reflexivity|].
  destruct (tool_that_does_not_run_is_no_clean_build
              "avr-gcc; avr-ld; avr-size" "avr-size" ["avr-size"; "--version"])
    as (_ & Hr & Hn).
  - right; right; left; reflexivity.
  - vm_compute; reflexivity.
  - left. vm_compute; reflexivity.
  - split; [exact Hr|]. split; [vm_compute; reflexivity|exact Hn].
Defined.

Lemma identify_array_holds_the_compressed_document_witness :
  exists H' doc icode items,
    build_identify example_handlers "v0.5.0" "gcc: 7.2.0" = Ok (H', doc, icode) /\
    icode = identify_code "v0.5.0" "gcc: 7.2.0" items
              (String.length (zlib_compress doc 9)) (String.length doc) /\
    array_bytes items
    = map nat_of_ascii (list_ascii_of_string (zlib_compress doc 9)).
Proof.
  destruct (build_identify example_handlers "v0.5.0" "gcc: 7.2.0")
    as [[[H' doc] icode]|e] eqn:Hb; [|vm_compute in Hb; discriminate].
  destruct (identify_array_holds_the_compressed_document
              example_handlers "v0.5.0" "gcc: 7.2.0" H' doc icode Hb)
    as (items & Hi & Ha & _).
  exists H', doc, icode, items.
  split; [reflexivity|]. split; [exact Hi|exact Ha].
Defined.

Lemma command_and_response_lists_are_increasing_witness :
  replayed example_requests example_handlers /\
  exists H' doc,
    update_all example_handlers [] = Ok (H', doc) /\
    dict_get "commands" doc = Some (PList (map PInt [2; 3])) /\
    dict_get "responses" doc = Some (PList (map PInt [0; 1; 4])) /\
    StronglySorted Z.lt [2; 3] /\ StronglySorted Z.lt [0; 1; 4].
Proof.
  assert (Hr : replayed example_requests example_handlers)
    by (eexists; split; vm_compute; reflexivity).
  split; [exact Hr|].
  destruct (update_all example_handlers []) as [[H' doc]|e] eqn:Hu;
    [|vm_compute in Hu; discriminate].
  assert (Hc : dict_get "commands" doc = Some (PList (map PInt [2; 3]))).
  { vm_compute in Hu. injection Hu as _ <-. vm_compute; reflexivity. }
  assert (Hp : dict_get "responses" doc = Some (PList (map PInt [0; 1; 4]))).
  { vm_compute in Hu. injection Hu as _ <-. vm_compute; reflexivity. }
  exists H', doc. split; [reflexivity|]. split; [exact Hc|]. split; [exact Hp|].
  exact (command_and_response_lists_are_increasing
           example_requests example_handlers H' doc [2; 3] [0; 1; 4]
           Hr Hu Hc Hp).
Defined.

End Witnesses.
